(** * Typify: a shallow embedding of the typing animator

    The development models the two versions of the Typify object
    ([src/typify.js], version 1.0.0, and [src/typify-v-2.0.0.js], version
    2.0.0) together with the part of the browser they talk to: the target
    element and its children, the class list and inline style of the target,
    the cursor span, the timer table behind [setTimeout] / [setInterval] /
    [clearInterval], and the console.

    Conventions.
    - A JavaScript string is the list of its UTF-16 code units ([list N]);
      [charAt] and [length] therefore count code units, as in the source.
    - A configuration object is a record of optional fields: an absent key
      is [None].  The spread [{...a, ...b}] is the right-biased merge.
      Fields are typed as the option table of the source documents them.
    - Time is in integer milliseconds.  Callbacks cost no time, and a timer
      fires exactly when it is due; the clamping that browsers apply to
      deeply nested timers is not modelled.
    - Host operations that raise in a browser raise here: a property access
      on [null] ([TypeError]), [insertBefore] / [removeChild] with a node
      that is not a child ([NotFoundError]), [querySelector] called with a
      string that is no selector ([SyntaxError]), and a [classList] method
      called with the empty token ([SyntaxError]) or a token holding white
      space ([InvalidCharacterError]).  The state reached before the
      exception is kept, as in JavaScript.  Which strings are selectors is
      for the page to say: the grammar of selectors is not modelled. *)

From Stdlib Require Import ZArith List Ascii String Lia.
From stdpp Require Import base option list gmap.

Open Scope Z_scope.

(** ** JavaScript strings *)

Abbreviation jsstring := (list N).

Definition lit (s : string) : jsstring := N_of_ascii <$> list_ascii_of_string s.

(** [s.charAt(i)]: the one-unit string at index [i], or the empty string. *)
Definition charAt (s : jsstring) (i : nat) : jsstring :=
  match s !! i with Some c => [c] | None => [] end.

(** ASCII white space as the DOM standard lists it: tab, line feed, form
    feed, carriage return and space. *)
Definition is_ascii_whitespace (c : N) : bool :=
  (N.eqb c 9 || N.eqb c 10 || N.eqb c 12 || N.eqb c 13 || N.eqb c 32)%bool.

(** ** The monad of host and animator code: state with exceptions *)

Inductive exn := TypeError | NotFoundError | SyntaxError | InvalidCharacterError.

Inductive outcome (A : Type) :=
  | Val (a : A)
  | Throw (e : exn).
Arguments Val {A} a.
Arguments Throw {A} e.

Definition M (S A : Type) : Type := S -> outcome A * S.

Definition ret {S A} (a : A) : M S A := fun s => (Val a, s).

Definition bind {S A B} (m : M S A) (k : A -> M S B) : M S B :=
  fun s => match m s with
           | (Val a, s') => k a s'
           | (Throw e, s') => (Throw e, s')
           end.

Definition throw {S A} (e : exn) : M S A := fun s => (Throw e, s).
Definition gets {S A} (f : S -> A) : M S A := fun s => (Val (f s), s).
Definition modify {S} (f : S -> S) : M S unit := fun s => (Val tt, f s).

(** [when_ b m]: a JavaScript [if (b) { m }] without [else]. *)
Definition when_ {S} (b : bool) (m : M S unit) : M S unit :=
  if b then m else ret tt.

(** The state a call leaves behind, whether it returned or threw. *)
Definition exec {S A} (m : M S A) (s : S) : S := snd (m s).

Definition returns {S A} (m : M S A) (s : S) : bool :=
  match fst (m s) with Val _ => true | Throw _ => false end.

Declare Scope js_scope.
Delimit Scope js_scope with js.
Notation "x <- m ;; k" := (bind m (fun x => k))
  (at level 100, m at next level, right associativity) : js_scope.
Notation "m ;; k" := (bind m (fun _ => k))
  (at level 100, right associativity) : js_scope.
Open Scope js_scope.

(** ** The host: visual tree, timers, console *)

(** A child of the target: a text node, or the cursor [span] with the
    identity [createElement] gave it. *)
Inductive node :=
  | Text (s : jsstring)
  | Span (id : nat).

#[global] Instance node_eq_dec : EqDecision node.
Proof. solve_decision. Defined.

Record Element := mkElement {
  children : list node;
  classList : list jsstring;
  style_color : jsstring;            (* the last string assigned to it *)
  style_animationDuration : option Z  (* [Some n] is the value `${n}ms` *)
}.

#[global] Instance Element_inhabited : Inhabited Element :=
  populate (mkElement [] [] [] None).

Record SpanData := mkSpan {
  span_classList : list jsstring;
  textContent : jsstring
}.

Inductive timer_kind := Timeout | Interval.

#[global] Instance timer_kind_eq_dec : EqDecision timer_kind.
Proof. solve_decision. Defined.

Record Timer := mkTimer {
  tid : nat;
  kind : timer_kind;
  period : Z;    (* the delay the timer was armed with *)
  due : Z        (* the time at which it fires next *)
}.

Record Host := mkHost {
  selectors : gmap jsstring nat;   (* what [document.querySelector] finds *)
  dom : gmap nat Element;          (* the elements, by identity *)
  spans : gmap nat SpanData;       (* the spans made by [createElement] *)
  nextNode : nat;
  timers : list Timer;             (* active timers, in arming order *)
  nextTimer : nat;
  now : Z;
  console : list jsstring;
  invalid_selector : jsstring -> bool  (* the strings that are no selector *)
}.

Definition set_dom (f : gmap nat Element -> gmap nat Element) (h : Host) : Host :=
  mkHost (selectors h) (f (dom h)) (spans h) (nextNode h) (timers h)
         (nextTimer h) (now h) (console h) (invalid_selector h).
Definition set_spans (f : gmap nat SpanData -> gmap nat SpanData) (h : Host) : Host :=
  mkHost (selectors h) (dom h) (f (spans h)) (nextNode h) (timers h)
         (nextTimer h) (now h) (console h) (invalid_selector h).
Definition set_nextNode (n : nat) (h : Host) : Host :=
  mkHost (selectors h) (dom h) (spans h) n (timers h)
         (nextTimer h) (now h) (console h) (invalid_selector h).
Definition set_timers (f : list Timer -> list Timer) (h : Host) : Host :=
  mkHost (selectors h) (dom h) (spans h) (nextNode h) (f (timers h))
         (nextTimer h) (now h) (console h) (invalid_selector h).
Definition set_nextTimer (n : nat) (h : Host) : Host :=
  mkHost (selectors h) (dom h) (spans h) (nextNode h) (timers h)
         n (now h) (console h) (invalid_selector h).
Definition set_now (t : Z) (h : Host) : Host :=
  mkHost (selectors h) (dom h) (spans h) (nextNode h) (timers h)
         (nextTimer h) t (console h) (invalid_selector h).
Definition set_console (f : list jsstring -> list jsstring) (h : Host) : Host :=
  mkHost (selectors h) (dom h) (spans h) (nextNode h) (timers h)
         (nextTimer h) (now h) (f (console h)) (invalid_selector h).

Definition set_children (f : list node -> list node) (el : Element) : Element :=
  mkElement (f (children el)) (classList el) (style_color el)
            (style_animationDuration el).
Definition set_classList (f : list jsstring -> list jsstring) (el : Element) : Element :=
  mkElement (children el) (f (classList el)) (style_color el)
            (style_animationDuration el).
Definition set_style_color (c : jsstring) (el : Element) : Element :=
  mkElement (children el) (classList el) c (style_animationDuration el).
Definition set_style_animationDuration (d : option Z) (el : Element) : Element :=
  mkElement (children el) (classList el) (style_color el) d.

(** An element that was never written to is an empty element. *)
Definition elem (h : Host) (e : nat) : Element := dom h !!! e.

Definition update_elem (e : nat) (f : Element -> Element) (h : Host) : Host :=
  set_dom (fun d => <[e := f (d !!! e)]> d) h.

Module Dom.

(** [document.querySelector(sel)]: the first element that [sel] matches,
    [null] when [sel] is a selector that matches nothing, and a
    [SyntaxError] when [sel] is no selector at all.  [selectors] holds the
    strings that match an element of the page, which are selectors;
    [invalid_selector] tells which of the other strings are none. *)
Definition querySelector (sel : jsstring) : M Host (option nat) :=
  found <- gets (fun h => selectors h !! sel) ;;
  match found with
  | Some e => ret (Some e)
  | None =>
      bad <- gets (fun h => invalid_selector h sel) ;;
      if bad then throw SyntaxError else ret None
  end.

(** [e.innerHTML = '']: every child is detached. *)
Definition clear_innerHTML (e : nat) : M Host unit :=
  modify (update_elem e (set_children (fun _ => []))).

Definition set_color (e : nat) (c : jsstring) : M Host unit :=
  modify (update_elem e (set_style_color c)).

Definition set_animationDuration (e : nat) (d : option Z) : M Host unit :=
  modify (update_elem e (set_style_animationDuration d)).

(** The token check that [classList.add] and [classList.remove] share
    (DOM Standard, interface DOMTokenList, first step of both methods):
    the empty token is a [SyntaxError], a token with white space an
    [InvalidCharacterError]. *)
Definition token_error (tok : jsstring) : option exn :=
  match tok with
  | [] => Some SyntaxError
  | _ => if existsb is_ascii_whitespace tok
         then Some InvalidCharacterError else None
  end.

Definition check_token (tok : jsstring) : M Host unit :=
  match token_error tok with
  | Some e => throw e
  | None => ret tt
  end.

Definition add_token (tok : jsstring) (l : list jsstring) : list jsstring :=
  if decide (tok ∈ l) then l else l ++ [tok].

Definition remove_token (tok : jsstring) (l : list jsstring) : list jsstring :=
  filter (fun t => t ≠ tok) l.

Definition classList_add (e : nat) (tok : jsstring) : M Host unit :=
  check_token tok ;;
  modify (update_elem e (set_classList (add_token tok))).

Definition classList_remove (e : nat) (tok : jsstring) : M Host unit :=
  check_token tok ;;
  modify (update_elem e (set_classList (remove_token tok))).

(** [document.createElement('span')], followed by the two writes that the
    source always does next: the class [typify-cursor] and the text. *)
Definition createCursorSpan (glyph : jsstring) : M Host nat :=
  id <- gets nextNode ;;
  modify (set_nextNode (S id)) ;;
  modify (set_spans (fun m => <[id := mkSpan [lit "typify-cursor"] glyph]> m)) ;;
  ret id.

Definition set_textContent (id : nat) (glyph : jsstring) : M Host unit :=
  modify (set_spans (fun m =>
    <[id := mkSpan (match m !! id with
                    | Some sp => span_classList sp
                    | None => []
                    end) glyph]> m)).

Definition detach (id : nat) (l : list node) : list node :=
  filter (fun n => n ≠ Span id) l.

(** [e.appendChild(document.createTextNode(s))]. *)
Definition appendText (e : nat) (s : jsstring) : M Host unit :=
  modify (update_elem e (set_children (fun l => l ++ [Text s]))).

(** [e.appendChild(span)]: the span leaves its old parent, if it has one,
    and becomes the last child of [e]. *)
Definition appendSpan (e : nat) (id : nat) : M Host unit :=
  modify (set_dom (fun d => set_children (detach id) <$> d)) ;;
  modify (update_elem e (set_children (fun l => l ++ [Span id]))).

Fixpoint insert_before (n : node) (ref : node) (l : list node) : list node :=
  match l with
  | [] => []
  | x :: l' => if decide (x = ref) then n :: x :: l'
               else x :: insert_before n ref l'
  end.

(** [e.insertBefore(document.createTextNode(s), span)]. *)
Definition insertTextBefore (e : nat) (s : jsstring) (id : nat) : M Host unit :=
  l <- gets (fun h => children (elem h e)) ;;
  if decide (Span id ∈ l)
  then modify (update_elem e (set_children (insert_before (Text s) (Span id))))
  else throw NotFoundError.

(** [e.removeChild(span)]. *)
Definition removeSpan (e : nat) (id : nat) : M Host unit :=
  l <- gets (fun h => children (elem h e)) ;;
  if decide (Span id ∈ l)
  then modify (update_elem e (set_children (detach id)))
  else throw NotFoundError.

Definition console_error (msg : jsstring) : M Host unit :=
  modify (set_console (fun l => l ++ [msg])).

(** [setTimeout] and [setInterval]: a negative delay counts as zero. *)
Definition arm (k : timer_kind) (d : Z) : M Host nat :=
  id <- gets nextTimer ;;
  t <- gets now ;;
  modify (set_nextTimer (S id)) ;;
  modify (set_timers (fun l => l ++ [mkTimer id k d (t + Z.max 0 d)])) ;;
  ret id.

Definition setTimeout (d : Z) : M Host nat := arm Timeout d.
Definition setInterval (d : Z) : M Host nat := arm Interval d.

(** [clearInterval(id)]; [clearInterval(null)] does nothing.  Timeouts and
    intervals share one table of identifiers. *)
Definition clearInterval (id : option nat) : M Host unit :=
  match id with
  | Some i => modify (set_timers (filter (fun t => tid t ≠ i)))
  | None => ret tt
  end.

End Dom.

(** ** Configuration objects *)

Inductive Animation := anim_none | anim_fade | anim_slide | anim_zoom.

#[global] Instance Animation_eq_dec : EqDecision Animation.
Proof. solve_decision. Defined.

Definition animation_name (a : Animation) : jsstring :=
  match a with
  | anim_none => lit "none"
  | anim_fade => lit "fade"
  | anim_slide => lit "slide"
  | anim_zoom => lit "zoom"
  end.

Module Options.

Record t := mk {
  selector : option jsstring;
  text : option jsstring;
  speed : option Z;
  loop : option bool;
  cursor : option bool;
  cursorStyle : option jsstring;
  delay : option Z;
  animation : option Animation;
  color : option jsstring;
  animationDuration : option Z
}.

(** The empty object [{}]. *)
Definition empty : t := mk None None None None None None None None None None.

Definition over {A} (new old : option A) : option A :=
  match new with Some x => Some x | None => old end.

(** [{...a, ...b}] *)
Definition spread (a b : t) : t :=
  mk (over (selector b) (selector a)) (over (text b) (text a))
     (over (speed b) (speed a)) (over (loop b) (loop a))
     (over (cursor b) (cursor a)) (over (cursorStyle b) (cursorStyle a))
     (over (delay b) (delay a)) (over (animation b) (animation a))
     (over (color b) (color a))
     (over (animationDuration b) (animationDuration a)).

(** Truthiness of a field, as [if (x)] and [x && ...] test it: an absent
    key, the empty string, zero and [false] are falsy. *)
Definition truthy_str (o : option jsstring) : bool :=
  match o with Some (_ :: _) => true | _ => false end.
Definition truthy_num (o : option Z) : bool :=
  match o with Some z => negb (Z.eqb z 0) | None => false end.
Definition truthy_bool (o : option bool) : bool :=
  match o with Some b => b | None => false end.
(** Every animation name is a non-empty string. *)
Definition truthy_anim (o : option Animation) : bool :=
  match o with Some _ => true | None => false end.

(** A number handed to a timer: an absent delay counts as zero. *)
Definition ms (o : option Z) : Z := default 0 o.

(** A string interpolated into a template or handed to the host. *)
Definition str (o : option jsstring) : jsstring := default (lit "undefined") o.

End Options.

(** ** The animator object and the page it runs in *)

Record World (T : Type) := mkWorld {
  this : T;      (* the Typify object *)
  host : Host
}.
Arguments mkWorld {T} this host.
Arguments this {T} w.
Arguments host {T} w.

(** A host operation called from animator code. *)
Definition call {T A} (m : M Host A) : M (World T) A :=
  fun w => let (r, h) := m (host w) in (r, mkWorld (this w) h).

(** A read or a write of a field of [this]. *)
Definition self {T} (f : T -> T) : M (World T) unit :=
  modify (fun w => mkWorld (f (this w)) (host w)).
Definition read {T A} (f : T -> A) : M (World T) A :=
  gets (fun w => f (this w)).

(** [x.prop] where [x] may be [null]. *)
Definition deref {S A} (o : option A) : M S A :=
  match o with Some a => ret a | None => throw TypeError end.

(** ** The event loop *)

Fixpoint earliest (best : Timer) (l : list Timer) : Timer :=
  match l with
  | [] => best
  | t :: l' => earliest (if due t <? due best then t else best) l'
  end.

(** The timer that fires next: the one due first, and among timers due at
    the same time the one armed first. *)
Definition next_timer (l : list Timer) : option Timer :=
  match l with
  | [] => None
  | t :: l' => Some (earliest t l')
  end.

Definition drop_timer (i : nat) (h : Host) : Host :=
  set_timers (filter (fun t => tid t ≠ i)) h.

(** After its callback an interval that is still active is armed again. *)
Definition rearm (i : nat) (h : Host) : Host :=
  match find (fun t => bool_decide (tid t = i)) (timers h) with
  | Some t =>
      set_timers (fun l => filter (fun t' => tid t' ≠ i) l
                           ++ [mkTimer i (kind t) (period t)
                                       (now h + Z.max 0 (period t))]) h
  | None => h
  end.

Definition on_host {T} (f : Host -> Host) (w : World T) : World T :=
  mkWorld (this w) (f (host w)).

Section EventLoop.
Context {T : Type}.
(** The callback of every timeout and the callback of every interval that
    the animator arms; both close over the one Typify object. *)
Variable onTimeout onInterval : M (World T) unit.

Definition fire (t : Timer) (w : World T) : World T :=
  let w1 := on_host (fun h => set_now (Z.max (now h) (due t)) h) w in
  match kind t with
  | Timeout => exec onTimeout (on_host (drop_timer (tid t)) w1)
  | Interval => on_host (rearm (tid t)) (exec onInterval w1)
  end.

Definition fire_next (w : World T) : option (World T) :=
  match next_timer (timers (host w)) with
  | Some t => Some (fire t w)
  | None => None
  end.

(** [n] callbacks in a row (fewer if the timer table runs empty). *)
Fixpoint fire_n (n : nat) (w : World T) : World T :=
  match n with
  | O => w
  | S n' => match fire_next w with
            | Some w' => fire_n n' w'
            | None => w
            end
  end.

(** Let the clock run up to time [t]: every timer due by then fires, in
    order.  [fuel] bounds the number of callbacks. *)
Fixpoint elapse (fuel : nat) (t : Z) (w : World T) : World T :=
  match fuel with
  | O => w
  | S fuel' =>
      match next_timer (timers (host w)) with
      | Some tm => if due tm <=? t then elapse fuel' t (fire tm w)
                   else on_host (fun h => set_now (Z.max (now h) t) h) w
      | None => on_host (fun h => set_now (Z.max (now h) t) h) w
      end
  end.

End EventLoop.

(** Nothing is due up to time [t]. *)
Definition settled {T} (t : Z) (w : World T) : Prop :=
  Forall (fun tm => t < due tm) (timers (host w)).

Definition tickers (h : Host) : list Timer :=
  filter (fun t => kind t = Interval) (timers h).

(** The text the target shows: its text nodes, in order. *)
Fixpoint shown (l : list node) : jsstring :=
  match l with
  | [] => []
  | Text s :: l' => s ++ shown l'
  | Span _ :: l' => shown l'
  end.

(** What the page does to the animator: the three public operations, and
    the event loop running the callback of the timer that is due next. *)
Inductive action :=
  | Init (cfg : Options.t)
  | UpdateConfig (cfg : Options.t)
  | Destroy
  | Fire.

Definition is_update_or_destroy (a : action) : bool :=
  match a with UpdateConfig _ | Destroy => true | _ => false end.

(** ** Version 2.0.0 (src/typify-v-2.0.0.js) *)

Module V2.

Record Typify := mk {
  config : Options.t;
  isInitialized : bool;
  typingInterval : option nat;
  currentIndex : nat;
  text : jsstring;
  element : option nat;
  cursorElement : option nat;
  animationClass : jsstring
}.

(** The object literal of lines 10-18. *)
Definition initial : Typify :=
  mk Options.empty false None 0 [] None None [].

Definition set_config (c : Options.t) (o : Typify) : Typify :=
  mk c (isInitialized o) (typingInterval o) (currentIndex o) (text o)
     (element o) (cursorElement o) (animationClass o).
Definition set_isInitialized (b : bool) (o : Typify) : Typify :=
  mk (config o) b (typingInterval o) (currentIndex o) (text o)
     (element o) (cursorElement o) (animationClass o).
Definition set_typingInterval (i : option nat) (o : Typify) : Typify :=
  mk (config o) (isInitialized o) i (currentIndex o) (text o)
     (element o) (cursorElement o) (animationClass o).
Definition set_currentIndex (n : nat) (o : Typify) : Typify :=
  mk (config o) (isInitialized o) (typingInterval o) n (text o)
     (element o) (cursorElement o) (animationClass o).
Definition set_text (s : jsstring) (o : Typify) : Typify :=
  mk (config o) (isInitialized o) (typingInterval o) (currentIndex o) s
     (element o) (cursorElement o) (animationClass o).
Definition set_element (e : option nat) (o : Typify) : Typify :=
  mk (config o) (isInitialized o) (typingInterval o) (currentIndex o) (text o)
     e (cursorElement o) (animationClass o).
Definition set_cursorElement (c : option nat) (o : Typify) : Typify :=
  mk (config o) (isInitialized o) (typingInterval o) (currentIndex o) (text o)
     (element o) c (animationClass o).
Definition set_animationClass (s : jsstring) (o : Typify) : Typify :=
  mk (config o) (isInitialized o) (typingInterval o) (currentIndex o) (text o)
     (element o) (cursorElement o) s.

Definition defaultOptions : Options.t :=
  Options.mk (Some (lit "#typing-demo")) (Some (lit "Hello, TurboChat!"))
             (Some 100) (Some false) (Some true) (Some (lit "|")) (Some 500)
             (Some anim_none) (Some (lit "#e0e0e0")) (Some 1000).

(** `typify-animation-${a}` *)
Definition animation_class (a : option Animation) : jsstring :=
  lit "typify-animation-" ++
  match a with Some x => animation_name x | None => lit "undefined" end.

(** `Typify Error: No element found for selector "${sel}"` *)
Definition not_found_message (sel : jsstring) : jsstring :=
  lit "Typify Error: No element found for selector " ++ [34%N] ++ sel ++ [34%N].

(** [this.element.style.animationDuration = `${d}ms`].  A declaration
    that is no CSS time ("undefinedms", a negative time) is dropped by the
    host and the style keeps its value. *)
Definition apply_duration (e : nat) (d : option Z) : M (World Typify) unit :=
  match d with
  | Some n => if 0 <=? n then call (Dom.set_animationDuration e (Some n))
              else ret tt
  | None => ret tt
  end.

(** Lines 65-68 and 157-160: make the cursor span and append it. *)
Definition create_cursor : M (World Typify) unit :=
  c <- read config ;;
  id <- call (Dom.createCursorSpan (Options.str (Options.cursorStyle c))) ;;
  self (set_cursorElement (Some id)) ;;
  e <- (el <- read element ;; deref el) ;;
  call (Dom.appendSpan e id).

(** Lines 82-105: [startTyping] arms the ticker. *)
Definition startTyping : M (World Typify) unit :=
  c <- read config ;;
  id <- call (Dom.setInterval (Options.ms (Options.speed c))) ;;
  self (set_typingInterval (Some id)).

(** Lines 110-125. *)
Definition resetTyping : M (World Typify) unit :=
  self (set_currentIndex 0) ;;
  e <- (el <- read element ;; deref el) ;;
  call (Dom.clear_innerHTML e) ;;
  c <- read config ;;
  when_ (bool_decide (Options.animation c ≠ Some anim_none))
    (cls <- read animationClass ;;
     call (Dom.classList_remove e cls) ;;
     call (Dom.classList_add e cls)) ;;
  when_ (Options.truthy_bool (Options.cursor c))
    (cur <- read cursorElement ;;
     id <- deref cur ;;
     call (Dom.appendSpan e id)).

(** Lines 83-104: the callback handed to [setInterval]. *)
Definition tick : M (World Typify) unit :=
  i <- read currentIndex ;;
  t <- read text ;;
  if bool_decide (i < length t)%nat then
    cur <- read cursorElement ;;
    e <- (el <- read element ;; deref el) ;;
    match cur with
    | Some id => call (Dom.insertTextBefore e (charAt t i) id)
    | None => call (Dom.appendText e (charAt t i))
    end ;;
    self (set_currentIndex (S i))
  else
    ti <- read typingInterval ;;
    call (Dom.clearInterval ti) ;;
    c <- read config ;;
    when_ (Options.truthy_bool (Options.loop c))
      (resetTyping ;;
       c' <- read config ;;
       call (Dom.setTimeout (Options.ms (Options.delay c'))) ;;
       ret tt).

(** Lines 24-77. *)
Definition init (cfg : Options.t) : M (World Typify) unit :=
  self (set_config (Options.spread defaultOptions cfg)) ;;
  c <- read config ;;
  el <- call (Dom.querySelector (Options.str (Options.selector c))) ;;
  self (set_element el) ;;
  match el with
  | None =>
      call (Dom.console_error
              (not_found_message (Options.str (Options.selector c))))
  | Some e =>
      call (Dom.set_color e (Options.str (Options.color c))) ;;
      (* [defaultOptions] has a text, so the merged configuration has one *)
      self (set_text (default [] (Options.text c))) ;;
      self (set_currentIndex 0) ;;
      call (Dom.clear_innerHTML e) ;;
      when_ (bool_decide (Options.animation c ≠ Some anim_none))
        (self (set_animationClass (animation_class (Options.animation c))) ;;
         call (Dom.classList_add e (animation_class (Options.animation c))) ;;
         apply_duration e (Options.animationDuration c)) ;;
      when_ (Options.truthy_bool (Options.cursor c)) create_cursor ;;
      call (Dom.setTimeout (Options.ms (Options.delay c))) ;;
      self (set_isInitialized true)
  end.

(** Lines 137-145: "Update text if changed". *)
Definition update_text (newConfig : Options.t) : M (World Typify) unit :=
  t <- read text ;;
  when_ (Options.truthy_str (Options.text newConfig)
         && bool_decide (Options.text newConfig ≠ Some t))
    (self (set_text (default [] (Options.text newConfig))) ;;
     resetTyping ;;
     ti <- read typingInterval ;;
     call (Dom.clearInterval ti) ;;
     c <- read config ;;
     call (Dom.setTimeout (Options.ms (Options.delay c))) ;;
     ret tt).

(** Lines 147-151: "Update speed if changed". *)
Definition update_speed (newConfig : Options.t) : M (World Typify) unit :=
  when_ (Options.truthy_num (Options.speed newConfig))
    (ti <- read typingInterval ;;
     call (Dom.clearInterval ti) ;;
     startTyping).

(** Lines 153-166: "Update cursor settings". *)
Definition update_cursor (newConfig : Options.t) : M (World Typify) unit :=
  match Options.cursor newConfig with
  | None => ret tt
  | Some b =>
      cur <- read cursorElement ;;
      match b, cur with
      | true, None => create_cursor
      | false, Some id =>
          e <- (el <- read element ;; deref el) ;;
          call (Dom.removeSpan e id) ;;
          self (set_cursorElement None)
      | _, _ => ret tt
      end
  end.

(** Lines 168-171: "Update cursor style if changed". *)
Definition update_cursorStyle (newConfig : Options.t) : M (World Typify) unit :=
  cur <- read cursorElement ;;
  match cur with
  | Some id =>
      when_ (Options.truthy_str (Options.cursorStyle newConfig))
        (c <- read config ;;
         call (Dom.set_textContent id (Options.str (Options.cursorStyle c))))
  | None => ret tt
  end.

(** Lines 173-189: "Update animation settings".  [this.config] is read
    here, after the merge of line 135. *)
Definition update_animation (newConfig : Options.t) : M (World Typify) unit :=
  c <- read config ;;
  when_ (Options.truthy_anim (Options.animation newConfig)
         && bool_decide (Options.animation newConfig ≠ Options.animation c))
    (cls <- read animationClass ;;
     when_ (bool_decide (cls ≠ []))
       (e <- (el <- read element ;; deref el) ;;
        call (Dom.classList_remove e cls)) ;;
     if bool_decide (Options.animation newConfig ≠ Some anim_none) then
       self (set_animationClass (animation_class (Options.animation newConfig))) ;;
       e <- (el <- read element ;; deref el) ;;
       call (Dom.classList_add e (animation_class (Options.animation newConfig))) ;;
       apply_duration e (Options.animationDuration c)
     else
       self (set_animationClass []) ;;
       e <- (el <- read element ;; deref el) ;;
       call (Dom.set_animationDuration e None)).

(** Lines 191-194: "Update color if changed". *)
Definition update_color (newConfig : Options.t) : M (World Typify) unit :=
  when_ (Options.truthy_str (Options.color newConfig))
    (e <- (el <- read element ;; deref el) ;;
     c <- read config ;;
     call (Dom.set_color e (Options.str (Options.color c)))).

(** Lines 196-199: "Update animation duration if changed". *)
Definition update_animationDuration (newConfig : Options.t)
    : M (World Typify) unit :=
  when_ (Options.truthy_num (Options.animationDuration newConfig))
    (e <- (el <- read element ;; deref el) ;;
     c <- read config ;;
     apply_duration e (Options.animationDuration c)).

(** Lines 131-200. *)
Definition updateConfig (newConfig : Options.t) : M (World Typify) unit :=
  ini <- read isInitialized ;;
  if negb ini then ret tt else
  old <- read config ;;
  self (set_config (Options.spread old newConfig)) ;;
  update_text newConfig ;;
  update_speed newConfig ;;
  update_cursor newConfig ;;
  update_cursorStyle newConfig ;;
  update_animation newConfig ;;
  update_color newConfig ;;
  update_animationDuration newConfig.

(** Lines 205-214. *)
Definition destroy : M (World Typify) unit :=
  ini <- read isInitialized ;;
  if negb ini then ret tt else
  ti <- read typingInterval ;;
  call (Dom.clearInterval ti) ;;
  e <- (el <- read element ;; deref el) ;;
  call (Dom.clear_innerHTML e) ;;
  cls <- read animationClass ;;
  call (Dom.classList_remove e cls) ;;
  self (set_animationClass []) ;;
  self (set_isInitialized false).

(** Lines 224-226: [initializeTypify(options = {})]; the default value
    stands in for an argument that is absent. *)
Definition initializeTypify (options : option Options.t) : M (World Typify) unit :=
  init (default Options.empty options).

Definition step (a : action) (w : World Typify) : World Typify :=
  match a with
  | Init cfg => exec (init cfg) w
  | UpdateConfig cfg => exec (updateConfig cfg) w
  | Destroy => exec destroy w
  | Fire => default w (fire_next startTyping tick w)
  end.

Definition run (l : list action) (w : World Typify) : World Typify :=
  foldl (fun w a => step a w) w l.

End V2.

(** ** Version 1.0.0 (src/typify.js) *)

Module V1.

Record Typify := mk {
  config : Options.t;
  isInitialized : bool;
  typingInterval : option nat;
  currentIndex : nat;
  text : jsstring;
  element : option nat;
  cursorElement : option nat
}.

Definition initial : Typify := mk Options.empty false None 0 [] None None.

Definition set_config (c : Options.t) (o : Typify) : Typify :=
  mk c (isInitialized o) (typingInterval o) (currentIndex o) (text o)
     (element o) (cursorElement o).
Definition set_isInitialized (b : bool) (o : Typify) : Typify :=
  mk (config o) b (typingInterval o) (currentIndex o) (text o)
     (element o) (cursorElement o).
Definition set_typingInterval (i : option nat) (o : Typify) : Typify :=
  mk (config o) (isInitialized o) i (currentIndex o) (text o)
     (element o) (cursorElement o).
Definition set_currentIndex (n : nat) (o : Typify) : Typify :=
  mk (config o) (isInitialized o) (typingInterval o) n (text o)
     (element o) (cursorElement o).
Definition set_text (s : jsstring) (o : Typify) : Typify :=
  mk (config o) (isInitialized o) (typingInterval o) (currentIndex o) s
     (element o) (cursorElement o).
Definition set_element (e : option nat) (o : Typify) : Typify :=
  mk (config o) (isInitialized o) (typingInterval o) (currentIndex o) (text o)
     e (cursorElement o).
Definition set_cursorElement (c : option nat) (o : Typify) : Typify :=
  mk (config o) (isInitialized o) (typingInterval o) (currentIndex o) (text o)
     (element o) c.

Definition defaultOptions : Options.t :=
  Options.mk (Some (lit "#typing-demo")) (Some (lit "Hello, TurboChat!"))
             (Some 100) (Some false) (Some true) (Some (lit "|")) (Some 500)
             None None None.

(** Lines 50-53 and 133-136. *)
Definition create_cursor : M (World Typify) unit :=
  c <- read config ;;
  id <- call (Dom.createCursorSpan (Options.str (Options.cursorStyle c))) ;;
  self (set_cursorElement (Some id)) ;;
  e <- (el <- read element ;; deref el) ;;
  call (Dom.appendSpan e id).

(** Lines 67-90. *)
Definition startTyping : M (World Typify) unit :=
  c <- read config ;;
  id <- call (Dom.setInterval (Options.ms (Options.speed c))) ;;
  self (set_typingInterval (Some id)).

(** Lines 95-101. *)
Definition resetTyping : M (World Typify) unit :=
  self (set_currentIndex 0) ;;
  e <- (el <- read element ;; deref el) ;;
  call (Dom.clear_innerHTML e) ;;
  c <- read config ;;
  when_ (Options.truthy_bool (Options.cursor c))
    (cur <- read cursorElement ;;
     id <- deref cur ;;
     call (Dom.appendSpan e id)).

(** Lines 68-89: the callback handed to [setInterval]. *)
Definition tick : M (World Typify) unit :=
  i <- read currentIndex ;;
  t <- read text ;;
  if bool_decide (i < length t)%nat then
    cur <- read cursorElement ;;
    e <- (el <- read element ;; deref el) ;;
    match cur with
    | Some id => call (Dom.insertTextBefore e (charAt t i) id)
    | None => call (Dom.appendText e (charAt t i))
    end ;;
    self (set_currentIndex (S i))
  else
    ti <- read typingInterval ;;
    call (Dom.clearInterval ti) ;;
    c <- read config ;;
    when_ (Options.truthy_bool (Options.loop c))
      (resetTyping ;;
       c' <- read config ;;
       call (Dom.setTimeout (Options.ms (Options.delay c'))) ;;
       ret tt).

(** Lines 23-62. *)
Definition init (cfg : Options.t) : M (World Typify) unit :=
  self (set_config (Options.spread defaultOptions cfg)) ;;
  c <- read config ;;
  el <- call (Dom.querySelector (Options.str (Options.selector c))) ;;
  self (set_element el) ;;
  match el with
  | None =>
      call (Dom.console_error
              (lit "Typify Error: No element found for selector "
               ++ [34%N] ++ Options.str (Options.selector c) ++ [34%N]))
  | Some e =>
      self (set_text (default [] (Options.text c))) ;;
      self (set_currentIndex 0) ;;
      call (Dom.clear_innerHTML e) ;;
      when_ (Options.truthy_bool (Options.cursor c)) create_cursor ;;
      call (Dom.setTimeout (Options.ms (Options.delay c))) ;;
      self (set_isInitialized true)
  end.

(** Lines 113-121: "If text has changed, reset the typing animation". *)
Definition update_text (newConfig : Options.t) : M (World Typify) unit :=
  t <- read text ;;
  when_ (Options.truthy_str (Options.text newConfig)
         && bool_decide (Options.text newConfig ≠ Some t))
    (self (set_text (default [] (Options.text newConfig))) ;;
     resetTyping ;;
     ti <- read typingInterval ;;
     call (Dom.clearInterval ti) ;;
     c <- read config ;;
     call (Dom.setTimeout (Options.ms (Options.delay c))) ;;
     ret tt).

(** Lines 123-127: "Update speed if changed". *)
Definition update_speed (newConfig : Options.t) : M (World Typify) unit :=
  when_ (Options.truthy_num (Options.speed newConfig))
    (ti <- read typingInterval ;;
     call (Dom.clearInterval ti) ;;
     startTyping).

(** Lines 129-142: "Update cursor settings". *)
Definition update_cursor (newConfig : Options.t) : M (World Typify) unit :=
  match Options.cursor newConfig with
  | None => ret tt
  | Some b =>
      cur <- read cursorElement ;;
      match b, cur with
      | true, None => create_cursor
      | false, Some id =>
          e <- (el <- read element ;; deref el) ;;
          call (Dom.removeSpan e id) ;;
          self (set_cursorElement None)
      | _, _ => ret tt
      end
  end.

(** Lines 144-147: "Update cursor style if changed". *)
Definition update_cursorStyle (newConfig : Options.t) : M (World Typify) unit :=
  cur <- read cursorElement ;;
  match cur with
  | Some id =>
      when_ (Options.truthy_str (Options.cursorStyle newConfig))
        (call (Dom.set_textContent id
                 (Options.str (Options.cursorStyle newConfig))))
  | None => ret tt
  end.

(** Lines 107-151. *)
Definition updateConfig (newConfig : Options.t) : M (World Typify) unit :=
  ini <- read isInitialized ;;
  if negb ini then ret tt else
  old <- read config ;;
  self (set_config (Options.spread old newConfig)) ;;
  update_text newConfig ;;
  update_speed newConfig ;;
  update_cursor newConfig ;;
  update_cursorStyle newConfig.

(** Lines 156-162. *)
Definition destroy : M (World Typify) unit :=
  ini <- read isInitialized ;;
  if negb ini then ret tt else
  ti <- read typingInterval ;;
  call (Dom.clearInterval ti) ;;
  e <- (el <- read element ;; deref el) ;;
  call (Dom.clear_innerHTML e) ;;
  self (set_isInitialized false).

(** Lines 172-174: [initializeTypify(options = {})]. *)
Definition initializeTypify (options : option Options.t) : M (World Typify) unit :=
  init (default Options.empty options).

Definition step (a : action) (w : World Typify) : World Typify :=
  match a with
  | Init cfg => exec (init cfg) w
  | UpdateConfig cfg => exec (updateConfig cfg) w
  | Destroy => exec destroy w
  | Fire => default w (fire_next startTyping tick w)
  end.

Definition run (l : list action) (w : World Typify) : World Typify :=
  foldl (fun w a => step a w) w l.

End V1.

(** ** A concrete page, for the scenarios below *)

(** A page whose only element is [#typing-demo], at time zero.  Of the
    strings the scenarios query it with, [div[] and the empty string are no
    selectors. *)
Definition page : Host :=
  mkHost {[ lit "#typing-demo" := 0%nat ]} ∅ ∅ 0 [] 0 0 []
         (fun s => bool_decide (s ∈ [[]; lit "div["])).

Definition fresh2 : World V2.Typify := mkWorld V2.initial page.
Definition fresh1 : World V1.Typify := mkWorld V1.initial page.

Definition opt_selector (s : jsstring) : Options.t :=
  Options.mk (Some s) None None None None None None None None None.
Definition opt_text (s : jsstring) : Options.t :=
  Options.mk None (Some s) None None None None None None None None.
Definition opt_speed (n : Z) : Options.t :=
  Options.mk None None (Some n) None None None None None None None.
Definition opt_cursor (b : bool) : Options.t :=
  Options.mk None None None None (Some b) None None None None None.
Definition opt_delay (n : Z) : Options.t :=
  Options.mk None None None None None None (Some n) None None None.
Definition opt_animation (a : Animation) : Options.t :=
  Options.mk None None None None None None None (Some a) None None.

(** The configuration of the scenario of the specification:
    [{text: "Hi", speed: 10, delay: 0, cursor: false, loop: false}]. *)
Definition hi_cfg : Options.t :=
  Options.mk None (Some (lit "Hi")) (Some 10) (Some false) (Some false) None
             (Some 0) None None None.

Definition missing_cfg : Options.t := opt_selector (lit "#missing").

(** Three callbacks into the default session: "He" is on show and the
    ticker is running. *)
Definition mid_reveal : World V2.Typify :=
  V2.run [Init Options.empty; Fire; Fire; Fire] fresh2.

(** A session with an enter animation, right after [init]. *)
Definition fade_session : World V2.Typify :=
  exec (V2.init (opt_animation anim_fade)) fresh2.

(** The start-delay timeout that [init] arms on [page]. *)
Definition start_timeout : Timer := mkTimer 0 Timeout 500 500.

(** A session that uses only options both versions know. *)
Definition compat_trace : list action :=
  [Init Options.empty; Destroy; UpdateConfig (opt_text (lit "X"));
   Fire; Fire; Fire].

(** An update of the speed during the start delay. *)
Definition early_speed_trace : list action :=
  [Init (opt_delay 10); UpdateConfig (opt_speed 50); Fire].

(** A session without cursor, three callbacks in. *)
Definition mid_reveal_no_cursor : World V2.Typify :=
  V2.run [Init (opt_cursor false); Fire; Fire; Fire] fresh2.

(** [{text: "X", cursor: true}] and [{text: "X", speed: 50}]. *)
Definition opt_text_cursor : Options.t :=
  Options.mk None (Some (lit "X")) None None (Some true) None None None None None.
Definition opt_text_speed : Options.t :=
  Options.mk None (Some (lit "X")) (Some 50) None None None None None None None.

(** ** Quantities of the main results *)

(** The configuration [init] works with (line 38). *)
Definition init_config (cfg : Options.t) : Options.t :=
  Options.spread V2.defaultOptions cfg.

Definition init_text (cfg : Options.t) : jsstring :=
  default [] (Options.text (init_config cfg)).

Definition init_speed (cfg : Options.t) : Z :=
  Options.ms (Options.speed (init_config cfg)).

Definition init_delay (cfg : Options.t) : Z :=
  Options.ms (Options.delay (init_config cfg)).

(** The time [delay + length(text) * speed] after an [init] made in [w]. *)
Definition reveal_time (w : World V2.Typify) (cfg : Options.t) : Z :=
  now (host w) + init_delay cfg
  + Z.of_nat (length (init_text cfg)) * init_speed cfg.

(** The world after the clock has run to time [z]. *)
Definition at_time (fuel : nat) (z : Z) (w : World V2.Typify) : World V2.Typify :=
  elapse V2.startTyping V2.tick fuel z w.

(** The children of element [e]. *)
Definition content (w : World V2.Typify) (e : nat) : list node :=
  children (elem (host w) e).

(** ** Vocabulary for the reveal pass *)

(** One text node per code unit, as [tick] makes them. *)
Definition glyphs (s : jsstring) : list node := (fun u => Text [u]) <$> s.

Definition cursor_part (cur : option nat) : list node :=
  match cur with Some i => [Span i] | None => [] end.

(** The cursor handle a successful [init] leaves: the span it creates, if
    the cursor is enabled. *)
Definition init_cursor (c : Options.t) (h : Host) : option nat :=
  if Options.truthy_bool (Options.cursor c) then Some (nextNode h) else None.

(** The animator part of a reveal pass that has typed [k] units of [t] into
    the element [e], the cursor span (if any) staying last. *)
Definition typing (e : nat) (cur : option nat) (c : Options.t) (t : jsstring)
    (k : nat) (w : World V2.Typify) : Prop :=
  V2.config (this w) = c /\ V2.text (this w) = t /\
  V2.currentIndex (this w) = k /\ V2.element (this w) = Some e /\
  V2.cursorElement (this w) = cur /\
  children (elem (host w) e) = glyphs (take k t) ++ cursor_part cur.

(** What a reveal tick leaves alone. *)
Definition same_schedule (w w' : World V2.Typify) : Prop :=
  V2.typingInterval (this w') = V2.typingInterval (this w)
  /\ V2.isInitialized (this w') = V2.isInitialized (this w)
  /\ timers (host w') = timers (host w)
  /\ nextTimer (host w') = nextTimer (host w)
  /\ now (host w') = now (host w).

(** The ticker [id] of configuration [c], due at [d]. *)
Definition ticker (id : nat) (c : Options.t) (d : Z) : Timer :=
  mkTimer id Interval (Options.ms (Options.speed c)) d.

(** A reveal pass whose ticker [id] was armed at time [t0] and has ticked
    [k] times; no other timer is active. *)
Definition revealing (e : nat) (cur : option nat) (c : Options.t)
    (t : jsstring) (id : nat) (t0 : Z) (k : nat) (w : World V2.Typify) : Prop :=
  typing e cur c t k w
  /\ V2.typingInterval (this w) = Some id
  /\ timers (host w)
     = [ticker id c (t0 + (Z.of_nat k + 1) * Options.ms (Options.speed c))]
  /\ now (host w) = t0 + Z.of_nat k * Options.ms (Options.speed c).

(** A reveal pass that is over: the whole text is shown and no timer is
    left. *)
Definition quiescent (e : nat) (cur : option nat) (c : Options.t)
    (t : jsstring) (w : World V2.Typify) : Prop :=
  typing e cur c t (length t) w /\ timers (host w) = [].

(** The start delay is running: nothing is typed yet and the one active
    timer is the timeout, due at [d], that will call [startTyping]. *)
Definition armed (e : nat) (cur : option nat) (c : Options.t) (t : jsstring)
    (d : Z) (w : World V2.Typify) : Prop :=
  typing e cur c t 0 w
  /\ (exists i p, timers (host w) = [mkTimer i Timeout p d])
  /\ now (host w) <= d.

(** ** Vocabulary for [updateConfig], [destroy] and sessions *)

(** [m] leaves the world in relation [R] with the one it started from,
    whether it returns or raises. *)
Definition frame {A} (R : World V2.Typify -> World V2.Typify -> Prop)
    (m : M (World V2.Typify) A) : Prop :=
  forall w, R w (exec m w).

(** The part of the host a reveal pass depends on: the timer table, the
    clock, and the text each element shows. *)
Definition host_same_text (h h' : Host) : Prop :=
  timers h' = timers h /\ nextTimer h' = nextTimer h /\ now h' = now h
  /\ forall e, shown (children (elem h' e)) = shown (children (elem h e)).

(** What the later blocks of [updateConfig] leave alone. *)
Definition same_reveal (w w' : World V2.Typify) : Prop :=
  V2.config (this w') = V2.config (this w)
  /\ V2.isInitialized (this w') = V2.isInitialized (this w)
  /\ V2.typingInterval (this w') = V2.typingInterval (this w)
  /\ V2.currentIndex (this w') = V2.currentIndex (this w)
  /\ V2.text (this w') = V2.text (this w)
  /\ V2.element (this w') = V2.element (this w)
  /\ host_same_text (host w) (host w').

(** The blocks of [updateConfig] after the text and speed blocks. *)
Definition update_rest (nc : Options.t) : M (World V2.Typify) unit :=
  V2.update_cursor nc ;; V2.update_cursorStyle nc ;; V2.update_animation nc ;;
  V2.update_color nc ;; V2.update_animationDuration nc.

(** The timers left by [clearInterval(handle)]. *)
Definition cleared (handle : option nat) (l : list Timer) : list Timer :=
  match handle with
  | Some i => filter (fun t => tid t ≠ i) l
  | None => l
  end.

(** The three fields the cursor invariant speaks of. *)
Definition same_cursor_state (w w' : World V2.Typify) : Prop :=
  V2.config (this w') = V2.config (this w)
  /\ V2.isInitialized (this w') = V2.isInitialized (this w)
  /\ V2.cursorElement (this w') = V2.cursorElement (this w).

(** The cursor invariant of the data model. *)
Definition cursor_consistent (w : World V2.Typify) : Prop :=
  V2.cursorElement (this w) <> None
  <-> Options.truthy_bool (Options.cursor (V2.config (this w))) = true
      /\ V2.isInitialized (this w) = true.

(** The states the cursor invariant is about: those reached from the
    animator as the page loads it by [init] calls made while it is not
    initialized, by timer callbacks, and by [updateConfig] calls that
    return without raising. *)
Inductive session : World V2.Typify -> Prop :=
  | session_start h : session (mkWorld V2.initial h)
  | session_init w cfg :
      session w -> V2.isInitialized (this w) = false ->
      session (exec (V2.init cfg) w)
  | session_update w nc :
      session w -> returns (V2.updateConfig nc) w = true ->
      session (exec (V2.updateConfig nc) w)
  | session_fire w w' :
      session w -> fire_next V2.startTyping V2.tick w = Some w' ->
      session w'.

(** ** Timer handles *)

(** Timer identifiers are handed out in increasing order, and the handle in
    [typingInterval] names an interval, never a timeout. *)
Definition timers_ok (handle : option nat) (next : nat) (l : list Timer) : Prop :=
  (forall t, t ∈ l -> (tid t < next)%nat)
  /\ (forall i, handle = Some i ->
        (i < next)%nat /\ forall t, t ∈ l -> tid t = i -> kind t = Interval).

Definition handles_ok (w : World V2.Typify) : Prop :=
  timers_ok (V2.typingInterval (this w)) (nextTimer (host w)) (timers (host w)).

Definition keeps_handles (w w' : World V2.Typify) : Prop :=
  handles_ok w -> handles_ok w'.

(** A host operation that leaves the timer table alone. *)
Definition untimed {A} (m : M Host A) : Prop :=
  forall h, timers (snd (m h)) = timers h /\ nextTimer (snd (m h)) = nextTimer h.

(** ** Further scenarios *)

(** [{cursorStyle: g}], [{color: "#ffffff", animationDuration: 250}] and
    [{text: "X", cursor: false}]. *)
Definition opt_cursorStyle (g : jsstring) : Options.t :=
  Options.mk None None None None None (Some g) None None None None.
Definition opt_style : Options.t :=
  Options.mk None None None None None None None None (Some (lit "#ffffff"))
             (Some 250).
Definition opt_text_no_cursor : Options.t :=
  Options.mk None (Some (lit "X")) None None (Some false) None None None None None.

(** The looping scenario of the specification:
    [{text: "Hi", speed: 10, delay: 5, cursor: false, loop: true}]. *)
Definition hi_loop_cfg : Options.t :=
  Options.mk None (Some (lit "Hi")) (Some 10) (Some true) (Some false) None
             (Some 5) None None None.

(** The default session of each version, right after [init]. *)
Definition default_session1 : World V1.Typify := exec (V1.init Options.empty) fresh1.
Definition default_session2 : World V2.Typify := exec (V2.init Options.empty) fresh2.

(** A session with an enter animation that was destroyed: the cursor
    handle that [init] made is still set. *)
Definition destroyed_session : World V2.Typify :=
  V2.run [Init (opt_animation anim_fade); Destroy] fresh2.

(** The scenario of the specification with the cursor and an enter
    animation: [{text: "Hi", speed: 10, delay: 0, animation: "fade"}]. *)
Definition hi_fade_cfg : Options.t :=
  Options.mk None (Some (lit "Hi")) (Some 10) None None None (Some 0)
             (Some anim_fade) None None.

(** That session run to its end (the start timeout, two ticks, and the
    tick that cancels the ticker), then destroyed. *)
Definition finished_session : World V2.Typify :=
  V2.run [Init hi_fade_cfg; Fire; Fire; Fire; Fire; Destroy] fresh2.

(** The default session, followed by an [init] whose selector matches
    nothing. *)
Definition lost_target_session : World V2.Typify :=
  V2.run [Init Options.empty; Init missing_cfg] fresh2.

(** [{selector: "div["}]: a string that is no selector. *)
Definition invalid_cfg : Options.t := opt_selector (lit "div[").


(** ** Vocabulary for the further properties *)

(** The page after the blocks of [updateConfig] that follow the cursor
    block, for an animator [o] whose target is [e]: the glyph of the cursor,
    the colour and the animation duration are written, in this order. *)
Definition tail_host (nc : Options.t) (o : V2.Typify) (e : nat) (h : Host) : Host :=
  let c := V2.config o in
  let h1 := match V2.cursorElement o with
            | Some id => if Options.truthy_str (Options.cursorStyle nc)
                         then snd (Dom.set_textContent id
                                     (Options.str (Options.cursorStyle c)) h)
                         else h
            | None => h
            end in
  let h2 := if Options.truthy_str (Options.color nc)
            then update_elem e (set_style_color (Options.str (Options.color c))) h1
            else h1 in
  if Options.truthy_num (Options.animationDuration nc)
  then match Options.animationDuration c with
       | Some n => if 0 <=? n
                   then update_elem e (set_style_animationDuration (Some n)) h2
                   else h2
       | None => h2
       end
  else h2.

(** What the text, speed and cursor blocks leave alone. *)
Definition same_target (w w' : World V2.Typify) : Prop :=
  V2.config (this w') = V2.config (this w)
  /\ V2.element (this w') = V2.element (this w).

(** What no timer callback changes, and the way the timer counter moves. *)
Definition steady (w w' : World V2.Typify) : Prop :=
  V2.isInitialized (this w') = V2.isInitialized (this w)
  /\ V2.animationClass (this w') = V2.animationClass (this w)
  /\ (nextTimer (host w) <= nextTimer (host w'))%nat.

(** The time one round of a looping session takes: the start delay, one
    tick per unit, and the tick that notices the end. *)
Definition round_time (c : Options.t) (t : jsstring) : Z :=
  Options.ms (Options.delay c)
  + (Z.of_nat (length t) + 1) * Options.ms (Options.speed c).

(** [resetTyping] can take the animation class off and put it back. *)
Definition class_ok (c : Options.t) (w : World V2.Typify) : Prop :=
  Options.animation c = Some anim_none
  \/ Dom.token_error (V2.animationClass (this w)) = None.

(** What may follow the revealed text in the target: nothing, or the span
    the cursor handle names. *)
Definition cursor_tail (w : World V2.Typify) (tail : list node) : Prop :=
  tail = [] \/ exists i, V2.cursorElement (this w) = Some i /\ tail = [Span i].

(** The target holds the first [currentIndex] units of the text, one text
    node each, followed by at most the cursor. *)
Definition reveal_consistent (w : World V2.Typify) : Prop :=
  forall e, V2.element (this w) = Some e ->
    exists tail,
      content w e
      = glyphs (take (V2.currentIndex (this w)) (V2.text (this w))) ++ tail
      /\ cursor_tail w tail.

Definition keeps_reveal (w w' : World V2.Typify) : Prop :=
  reveal_consistent w -> reveal_consistent w'.

Definition no_destroy (a : action) : bool :=
  match a with Destroy => false | _ => true end.

(** A host operation that leaves every list of children alone. *)
Definition childless {A} (m : M Host A) : Prop :=
  forall h e, children (elem (snd (m h)) e) = children (elem h e).

(** [currentIndex] is an index into [text], or its length. *)
Definition index_in_range (w : World V2.Typify) : Prop :=
  (V2.currentIndex (this w) <= length (V2.text (this w)))%nat.

Definition keeps_range (w w' : World V2.Typify) : Prop :=
  index_in_range w -> index_in_range w'.

(** ** Vocabulary for the comparison of the two versions *)










(* ================================================================= *)
(** * Properties *)

(** ** Symbolic execution of animator code *)

Ltac js :=
  cbv beta iota zeta delta
    [bind ret throw gets modify when_ call self read deref exec returns
     fst snd this host on_host
     Dom.querySelector Dom.clear_innerHTML Dom.set_color
     Dom.set_animationDuration Dom.check_token Dom.classList_add
     Dom.classList_remove Dom.createCursorSpan Dom.set_textContent
     Dom.appendText Dom.appendSpan Dom.insertTextBefore Dom.removeSpan
     Dom.console_error Dom.arm Dom.setTimeout Dom.setInterval
     Dom.clearInterval
     V2.config V2.isInitialized V2.typingInterval V2.currentIndex V2.text
     V2.element V2.cursorElement V2.animationClass
     V2.set_config V2.set_isInitialized V2.set_typingInterval
     V2.set_currentIndex V2.set_text V2.set_element V2.set_cursorElement
     V2.set_animationClass V2.apply_duration V2.create_cursor
     V2.startTyping V2.resetTyping V2.tick V2.init V2.updateConfig V2.destroy
     V2.update_text V2.update_speed V2.update_cursor V2.update_cursorStyle
     V2.update_animation V2.update_color V2.update_animationDuration
     negb andb].

(** Host states are compared field by field. *)
Ltac host_fields :=
  cbv beta iota zeta delta
    [update_elem elem set_dom set_spans set_nextNode set_timers set_nextTimer
     set_now set_console drop_timer
     selectors dom spans nextNode timers nextTimer now console invalid_selector].

Lemma filter_idem {A} (P : A -> Prop) `{!∀ x, Decision (P x)} (l : list A) :
  filter P (filter P l) = filter P l.
Proof.
  induction l as [|x l IH]; [done|].
  rewrite filter_cons. case_decide as Hx; [|done].
  rewrite filter_cons, decide_True by done. by rewrite IH.
Qed.

(** ** Destroying twice *)

(** C8.  For every state of the animator and of the page, a second
    [destroy] right after a first one changes nothing: the animator object,
    the visual tree and the timer table are those the first call left. *)
Theorem destroy_twice_same_state (w : World V2.Typify) :
  exec V2.destroy (exec V2.destroy w) = exec V2.destroy w.
Proof.
  destruct w as [[cfg ini ti ci tx el cur cls] h].
  destruct ini; [|reflexivity].
  destruct el as [e|], ti as [i|]; js;
    try (destruct (Dom.token_error cls) eqn:E; js; rewrite ?E; js);
    try reflexivity.
  all: f_equal; destruct h; host_fields; f_equal;
    rewrite ?filter_idem, ?lookup_total_insert_eq, ?insert_insert_eq;
    reflexivity.
Qed.

(** ** [init] on a selector that finds nothing *)

Lemma uninitialized_calls_do_nothing (w : World V2.Typify) (l : list action) :
  V2.isInitialized (this w) = false ->
  forallb is_update_or_destroy l = true ->
  V2.run l w = w.
Proof.
  intros Hini. induction l as [|a l IH]; [done|].
  cbn [forallb]. intros [Ha Hl]%andb_prop.
  unfold V2.run in *. cbn [foldl].
  assert (V2.step a w = w) as ->; [|by apply IH].
  destruct w as [[cfg ini ti ci tx el cur cls] h]. cbn in Hini. subst ini.
  destruct a; try discriminate; reflexivity.
Qed.

(** What [init] does when the selector of the merged configuration is a
    selector that finds no node. *)
Lemma init_not_found_effect (w : World V2.Typify) (cfg : Options.t) :
  let c := Options.spread V2.defaultOptions cfg in
  let sel := Options.str (Options.selector c) in
  let w' := exec (V2.init cfg) w in
  selectors (host w) !! sel = None ->
  invalid_selector (host w) sel = false ->
  returns (V2.init cfg) w = true
  /\ console (host w') = console (host w) ++ [V2.not_found_message sel]
  /\ V2.isInitialized (this w') = V2.isInitialized (this w)
  /\ timers (host w') = timers (host w)
  /\ dom (host w') = dom (host w)
  /\ spans (host w') = spans (host w)
  /\ (V2.isInitialized (this w) = false ->
      forall l, forallb is_update_or_destroy l = true -> V2.run l w' = w').
Proof.
  intros c sel w' Hsel Hok.
  assert (V2.init cfg w =
          (Val tt, mkWorld (V2.set_element None (V2.set_config c (this w)))
                           (set_console (fun l => l ++ [V2.not_found_message sel])
                                        (host w)))) as Hrun.
  { destruct w as [o h]. change (selectors h !! sel = None) in Hsel.
    change (invalid_selector h sel = false) in Hok.
    js. fold c. fold sel. rewrite Hsel, Hok. reflexivity. }
  subst w'. unfold exec, returns. rewrite Hrun. cbn [fst snd].
  repeat split; try reflexivity.
  intros Hini l Hl. apply uninitialized_calls_do_nothing; [|done].
  destruct w as [[]]; exact Hini.
Qed.

(** ** The reveal pass *)

Lemma span_not_in_glyphs i s : Span i ∉ glyphs s.
Proof.
  unfold glyphs. intros (u & Hu & _)%list_elem_of_fmap. discriminate.
Qed.

Lemma insert_before_cursor s u i :
  Dom.insert_before (Text u) (Span i) (glyphs s ++ [Span i])
  = glyphs s ++ [Text u; Span i].
Proof.
  induction s as [|x s IH]; cbn.
  - rewrite decide_True by done. done.
  - rewrite decide_False by done. f_equal. exact IH.
Qed.

Lemma glyphs_take_S (t : jsstring) k u :
  t !! k = Some u -> glyphs (take (S k) t) = glyphs (take k t) ++ [Text [u]].
Proof.
  intros H. rewrite (take_S_r _ _ _ H). unfold glyphs. by rewrite fmap_app.
Qed.

Lemma shown_glyphs s cur : shown (glyphs s ++ cursor_part cur) = s.
Proof.
  induction s as [|x s IH]; cbn.
  - by destruct cur.
  - f_equal. exact IH.
Qed.

Lemma fire_next_single {T} (oT oI : M (World T) unit) (w : World T) tm :
  timers (host w) = [tm] -> fire_next oT oI w = Some (fire oT oI tm w).
Proof. unfold fire_next. intros ->. reflexivity. Qed.

Lemma rearm_single i k p d (h : Host) :
  timers h = [mkTimer i k p d] ->
  rearm i h = set_timers (fun _ => [mkTimer i k p (now h + Z.max 0 p)]) h.
Proof.
  intros H. unfold rearm. rewrite H. cbn [find tid].
  rewrite bool_decide_true by done.
  destruct h; cbn in *. unfold set_timers; cbn. subst. f_equal.
  rewrite filter_cons, decide_False by (cbn; intros ?; done). reflexivity.
Qed.

Lemma rearm_gone i (h : Host) : timers h = [] -> rearm i h = h.
Proof. intros H. unfold rearm. rewrite H. reflexivity. Qed.

Lemma fire_interval {T} (oT oI : M (World T) unit) (w : World T) tm :
  kind tm = Interval ->
  fire oT oI tm w =
    on_host (rearm (tid tm))
      (exec oI (on_host (fun h => set_now (Z.max (now h) (due tm)) h) w)).
Proof. unfold fire. intros ->. reflexivity. Qed.

Lemma fire_timeout {T} (oT oI : M (World T) unit) (w : World T) tm :
  kind tm = Timeout ->
  fire oT oI tm w =
    exec oT (on_host (drop_timer (tid tm))
               (on_host (fun h => set_now (Z.max (now h) (due tm)) h) w)).
Proof. unfold fire. intros ->. reflexivity. Qed.

Lemma typing_on_host e cur c t k w (f : Host -> Host) :
  (forall h, dom (f h) = dom h) -> typing e cur c t k w ->
  typing e cur c t k (on_host f w).
Proof.
  intros Hf (? & ? & ? & ? & ? & Hch). repeat split; try done.
  unfold on_host, elem. cbn [host]. rewrite Hf. exact Hch.
Qed.

Lemma tick_reveals e cur c t k w u :
  typing e cur c t k w -> t !! k = Some u ->
  exists w', V2.tick w = (Val tt, w') /\ typing e cur c t (S k) w'
             /\ same_schedule w w'.
Proof.
  destruct w as [[cfg ini ti ci tx el cu cls] h].
  intros (Hc & Ht & Hk & He & Hcu & Hch) Hu.
  cbv [this host V2.config V2.text V2.currentIndex V2.element
       V2.cursorElement V2.typingInterval] in *. subst cfg tx ci el cu.
  js. rewrite bool_decide_true by (by eapply lookup_lt_Some).
  unfold charAt. rewrite Hu.
  destruct cur as [i|]; js.
  - rewrite Hch.
    rewrite decide_True
      by (apply elem_of_app; right; apply list_elem_of_singleton; done).
    eexists. split; [reflexivity|].
    split; [|by destruct h].
    repeat split.
    unfold elem in *. destruct h; cbn in *. rewrite lookup_total_insert_eq.
    cbn. rewrite Hch. rewrite insert_before_cursor.
    rewrite (glyphs_take_S _ _ _ Hu). by rewrite <- app_assoc.
  - eexists. split; [reflexivity|].
    split; [|by destruct h].
    repeat split.
    unfold elem in *. destruct h; cbn in *. rewrite lookup_total_insert_eq.
    cbn. rewrite Hch. rewrite (glyphs_take_S _ _ _ Hu).
    by rewrite !app_nil_r.
Qed.

Lemma tick_finishes e cur c t id w :
  typing e cur c t (length t) w ->
  Options.truthy_bool (Options.loop c) = false ->
  V2.typingInterval (this w) = Some id ->
  V2.tick w = (Val tt, on_host (drop_timer id) w).
Proof.
  destruct w as [[cfg ini ti ci tx el cu cls] h].
  intros (Hc & Ht & Hk & He & Hcu & Hch) Hloop Hti.
  cbv [this host V2.config V2.text V2.currentIndex V2.element
       V2.cursorElement V2.typingInterval] in *. subst cfg tx ci el cu.
  subst ti. js. rewrite bool_decide_false by lia. js. rewrite Hloop. reflexivity.
Qed.

Lemma startTyping_arms (w : World V2.Typify) :
  V2.startTyping w =
    (Val tt,
     mkWorld (V2.set_typingInterval (Some (nextTimer (host w))) (this w))
       (set_timers (fun l => l ++
            [mkTimer (nextTimer (host w)) Interval
               (Options.ms (Options.speed (V2.config (this w))))
               (now (host w)
                + Z.max 0 (Options.ms (Options.speed (V2.config (this w)))))])
          (set_nextTimer (S (nextTimer (host w))) (host w)))).
Proof. destruct w as [[] []]. reflexivity. Qed.

Lemma dom_rearm i h : dom (rearm i h) = dom h.
Proof. unfold rearm. destruct (find _ _); by destruct h. Qed.

Lemma dom_drop_timer i h : dom (drop_timer i h) = dom h.
Proof. by destruct h. Qed.

Lemma dom_set_now z h : dom (set_now z h) = dom h.
Proof. by destruct h. Qed.

Lemma elapse_fire {T} (oT oI : M (World T) unit) f z (w : World T) tm :
  timers (host w) = [tm] -> due tm <= z ->
  elapse oT oI (S f) z w = elapse oT oI f z (fire oT oI tm w).
Proof.
  intros H Hd. cbn [elapse]. rewrite H. cbn [next_timer earliest].
  destruct (Z.leb_spec (due tm) z); [done|lia].
Qed.

Lemma elapse_wait {T} (oT oI : M (World T) unit) f z (w : World T) tm :
  timers (host w) = [tm] -> z < due tm ->
  elapse oT oI (S f) z w = on_host (fun h => set_now (Z.max (now h) z) h) w.
Proof.
  intros H Hd. cbn [elapse]. rewrite H. cbn [next_timer earliest].
  destruct (Z.leb_spec (due tm) z); [lia|done].
Qed.

Lemma elapse_idle {T} (oT oI : M (World T) unit) f z (w : World T) :
  timers (host w) = [] ->
  elapse oT oI (S f) z w = on_host (fun h => set_now (Z.max (now h) z) h) w.
Proof. intros H. cbn [elapse]. rewrite H. reflexivity. Qed.

Lemma reveal_step e cur c t id t0 k w :
  0 <= Options.ms (Options.speed c) ->
  revealing e cur c t id t0 k w -> (k < length t)%nat ->
  exists w', fire_next V2.startTyping V2.tick w = Some w'
             /\ revealing e cur c t id t0 (S k) w'
             /\ V2.isInitialized (this w') = V2.isInitialized (this w).
Proof.
  intros Hsp (Hty & Hti & Htm & Hnow) Hlt.
  destruct (lookup_lt_is_Some_2 t k Hlt) as [u Hu].
  rewrite (fire_next_single _ _ _ _ Htm), fire_interval by done.
  set (w1 := on_host _ w).
  assert (typing e cur c t k w1) as Hty1
    by (apply typing_on_host; [intros; apply dom_set_now|done]).
  destruct (tick_reveals _ _ _ _ _ _ _ Hty1 Hu)
    as (w2 & Hrun & Hty2 & Hti2 & Hini2 & Htm2 & Hnt2 & Hnow2).
  unfold exec. rewrite Hrun. cbn [snd].
  eexists. split; [reflexivity|].
  assert (timers (host w1) = timers (host w)) as Htm1 by (by destruct w as [? []]).
  assert (now (host w1) = t0 + (Z.of_nat k + 1) * Options.ms (Options.speed c))
    as Hnow1.
  { subst w1. destruct w as [? []]. cbn in *. subst. cbn. nia. }
  rewrite Htm1, Htm in Htm2. rewrite Hnow1 in Hnow2.
  split; [|cbn [on_host this]; rewrite Hini2; by destruct w].
  split; [apply typing_on_host; [intros; apply dom_rearm|done]|].
  split; [cbn [on_host this]; rewrite Hti2; by destruct w|].
  cbn [on_host host ticker tid]. rewrite (rearm_single _ _ _ _ _ Htm2).
  destruct w2 as [? []]. cbn in *. subst. split; [|lia].
  unfold ticker. do 2 f_equal. lia.
Qed.

Lemma reveal_finish e cur c t id t0 w :
  0 <= Options.ms (Options.speed c) ->
  Options.truthy_bool (Options.loop c) = false ->
  revealing e cur c t id t0 (length t) w ->
  exists w', fire_next V2.startTyping V2.tick w = Some w'
             /\ quiescent e cur c t w'
             /\ now (host w')
                = t0 + (Z.of_nat (length t) + 1) * Options.ms (Options.speed c)
             /\ V2.isInitialized (this w') = V2.isInitialized (this w).
Proof.
  intros Hsp Hloop (Hty & Hti & Htm & Hnow).
  rewrite (fire_next_single _ _ _ _ Htm), fire_interval by done.
  set (w1 := on_host _ w).
  assert (typing e cur c t (length t) w1) as Hty1
    by (apply typing_on_host; [intros; apply dom_set_now|done]).
  unfold exec. rewrite (tick_finishes _ _ _ _ id _ Hty1 Hloop) by (by destruct w).
  cbn [snd]. eexists. split; [reflexivity|].
  assert (timers (host (on_host (drop_timer id) w1)) = []) as Hgone.
  { subst w1. destruct w as [? []]. cbn in *. subst.
    unfold ticker. rewrite filter_cons, decide_False by (cbn; intros ?; done).
    reflexivity. }
  cbn [ticker tid]. 
  assert (on_host (rearm id) (on_host (drop_timer id) w1) = on_host (drop_timer id) w1) as ->.
  { unfold on_host at 1. cbn [this host]. rewrite rearm_gone by exact Hgone.
    by destruct w1. }
  split; [split; [|exact Hgone]|].
  - apply typing_on_host; [intros; apply dom_drop_timer|done].
  - subst w1. destruct w as [[] []]. cbn in *. subst. split; [nia|reflexivity].
Qed.

Lemma filter_drop_single i k p d :
  filter (fun t => tid t ≠ i) [mkTimer i k p d] = [].
Proof. rewrite filter_cons, decide_False by (cbn; intros ?; done). done. Qed.

Ltac fields :=
  cbv beta iota zeta delta
    [this host on_host
     V2.config V2.isInitialized V2.typingInterval V2.currentIndex V2.text
     V2.element V2.cursorElement V2.animationClass
     V2.set_config V2.set_isInitialized V2.set_typingInterval
     V2.set_currentIndex V2.set_text V2.set_element V2.set_cursorElement
     V2.set_animationClass
     update_elem elem set_dom set_spans set_nextNode set_timers set_nextTimer
     set_now set_console drop_timer
     selectors dom spans nextNode timers nextTimer now console invalid_selector
     tid kind period due] in *.

Lemma reveal_start e cur c t d w :
  0 <= Options.ms (Options.speed c) ->
  armed e cur c t d w ->
  exists w' id, fire_next V2.startTyping V2.tick w = Some w'
                /\ revealing e cur c t id d 0 w'
                /\ V2.isInitialized (this w') = V2.isInitialized (this w).
Proof.
  intros Hsp (Hty & (i & p & Htm) & Hnow).
  rewrite (fire_next_single _ _ _ _ Htm), fire_timeout by done.
  unfold exec. rewrite startTyping_arms. cbn [snd].
  eexists. exists (nextTimer (host w)). split; [reflexivity|].
  destruct Hty as (Hc & Ht & Hk & He & Hcu & Hch).
  destruct w as [[cfg ini ti ci tx el cu cls] [sel dm sp nn tm nt nw co bad]].
  unfold revealing, typing, ticker in *. fields. subst.
  rewrite filter_drop_single.
  repeat split; try done.
  - cbn. do 2 f_equal. lia.
  - lia.
Qed.

Lemma detach_all_lookup id (d : gmap nat Element) e :
  (set_children (Dom.detach id) <$> d) !!! e
  = set_children (Dom.detach id) (d !!! e).
Proof.
  rewrite lookup_total_fmap, !lookup_total_alt.
  destruct (d !! e); reflexivity.
Qed.

Lemma animation_class_token a : Dom.token_error (V2.animation_class a) = None.
Proof. destruct a as [[]|]; vm_compute; reflexivity. Qed.

Lemma init_arms (w : World V2.Typify) (cfg : Options.t) (e : nat) :
  let c := Options.spread V2.defaultOptions cfg in
  selectors (host w) !! Options.str (Options.selector c) = Some e ->
  timers (host w) = [] ->
  (Options.truthy_bool (Options.cursor c) = false ->
   V2.cursorElement (this w) = None) ->
  0 <= Options.ms (Options.delay c) ->
  exists w', V2.init cfg w = (Val tt, w')
    /\ armed e (init_cursor c (host w)) c (default [] (Options.text c))
             (now (host w) + Options.ms (Options.delay c)) w'
    /\ V2.isInitialized (this w') = true.
Proof.
  intros c Hsel Htm Hcur Hdelay.
  destruct w as [[cfg0 ini ti ci tx el cu cls] [sel dm sp nn tm nt nw co bad]].
  fields. subst tm. js. fields. fold c. rewrite Hsel.
  unfold armed, typing, init_cursor.
  destruct (bool_decide (Options.animation c ≠ Some anim_none)); js;
    rewrite ?animation_class_token; js;
    destruct (Options.animationDuration c) as [n|]; js;
    try destruct (0 <=? n); js.
  all: destruct (Options.truthy_bool (Options.cursor c)); js.
  all: eexists; (split; [reflexivity|]).
  all: fields.
  all: rewrite ?detach_all_lookup, ?lookup_total_insert_eq.
  all: cbn [children set_children set_classList set_style_color set_style_animationDuration classList style_color style_animationDuration].
  all: rewrite Z.max_r by lia.
  all: repeat split; try done; try lia; try (by apply Hcur).
  all: by do 2 eexists.
Qed.

(** After the timeout and [k] ticks, [k] units are on show. *)
Lemma reveal_ticks e cur c t id t0 j k w :
  0 <= Options.ms (Options.speed c) ->
  revealing e cur c t id t0 j w -> (j + k <= length t)%nat ->
  revealing e cur c t id t0 (j + k) (fire_n V2.startTyping V2.tick k w)
  /\ V2.isInitialized (this (fire_n V2.startTyping V2.tick k w))
     = V2.isInitialized (this w).
Proof.
  intros Hsp. revert j w. induction k as [|k IH]; intros j w Hrev Hle.
  - rewrite Nat.add_0_r. done.
  - destruct (reveal_step _ _ _ _ _ _ _ _ Hsp Hrev) as (w' & Hf & Hrev' & Hini);
      [lia|].
    cbn [fire_n]. rewrite Hf.
    destruct (IH (S j) w' Hrev') as [H1 H2]; [lia|].
    replace (j + S k)%nat with (S j + k)%nat by lia.
    split; [done|congruence].
Qed.

(** With [fuel] to spare, letting the clock run to the time of the last
    tick leaves the whole text on show, and nothing more is due by then. *)
Lemma elapse_reveals e cur c t id t0 j w fuel :
  0 <= Options.ms (Options.speed c) ->
  Options.truthy_bool (Options.loop c) = false ->
  revealing e cur c t id t0 j w -> (j <= length t)%nat ->
  (length t - j + 2 <= fuel)%nat ->
  let z := t0 + Z.of_nat (length t) * Options.ms (Options.speed c) in
  let w' := elapse V2.startTyping V2.tick fuel z w in
  typing e cur c t (length t) w' /\ settled z w' /\ now (host w') = z
  /\ V2.isInitialized (this w') = V2.isInitialized (this w).
Proof.
  intros Hsp Hloop Hrev Hle Hfuel z.
  remember (length t - j)%nat as m eqn:Hm.
  revert j w fuel Hrev Hle Hfuel Hm.
  induction m as [|m IH]; intros j w fuel Hrev Hle Hfuel Hm.
  - assert (j = length t) as -> by lia.
    destruct fuel as [|[|fuel]]; [lia|lia|].
    destruct Hrev as (Hty & Hti & Htm & Hnow).
    destruct (Z.eq_dec (Options.ms (Options.speed c)) 0) as [Hz|Hnz].
    + destruct (reveal_finish _ _ _ _ _ _ _ Hsp Hloop
                  (conj Hty (conj Hti (conj Htm Hnow))))
        as (w2 & Hf & [Hty2 Htm2] & Hnow2 & Hini2).
      rewrite (fire_next_single _ _ _ _ Htm) in Hf. injection Hf as Hf.
      rewrite (elapse_fire _ _ _ _ _ _ Htm) by (subst z; cbn; lia).
      rewrite Hf, (elapse_idle _ _ _ _ _ Htm2).
      split; [apply typing_on_host; [intros; apply dom_set_now|done]|].
      destruct w2 as [? []]. unfold settled. fields. subst.
      repeat split; [constructor|subst z; lia|done].
    + rewrite (elapse_wait _ _ _ _ _ _ Htm) by (subst z; cbn; lia).
      split; [apply typing_on_host; [intros; apply dom_set_now|done]|].
      destruct w as [? []]. unfold settled. fields. subst.
      repeat split; [|subst z; lia].
      constructor; [|constructor]. unfold ticker. cbn. subst z. lia.
  - destruct (reveal_step _ _ _ _ _ _ _ _ Hsp Hrev) as (w2 & Hf & Hrev2 & Hini2);
      [lia|].
    destruct fuel as [|fuel]; [lia|].
    destruct Hrev as (Hty & Hti & Htm & Hnow).
    rewrite (fire_next_single _ _ _ _ Htm) in Hf. injection Hf as Hf.
    rewrite (elapse_fire _ _ _ _ _ _ Htm) by (subst z; cbn; nia).
    rewrite Hf.
    destruct (IH (S j) w2 fuel Hrev2) as (H1 & H2 & H3 & H4); [lia|lia|lia|].
    split; [exact H1|]. split; [exact H2|]. split; [exact H3|].
    rewrite H4. exact Hini2.
Qed.

(** One tick period later the ticker has cancelled itself. *)
Lemma elapse_quiesces e cur c t id t0 j w fuel :
  0 <= Options.ms (Options.speed c) ->
  Options.truthy_bool (Options.loop c) = false ->
  revealing e cur c t id t0 j w -> (j <= length t)%nat ->
  (length t - j + 2 <= fuel)%nat ->
  let z := t0 + (Z.of_nat (length t) + 1) * Options.ms (Options.speed c) in
  let w' := elapse V2.startTyping V2.tick fuel z w in
  quiescent e cur c t w' /\ now (host w') = z
  /\ V2.isInitialized (this w') = V2.isInitialized (this w).
Proof.
  intros Hsp Hloop Hrev Hle Hfuel z.
  remember (length t - j)%nat as m eqn:Hm.
  revert j w fuel Hrev Hle Hfuel Hm.
  induction m as [|m IH]; intros j w fuel Hrev Hle Hfuel Hm.
  - assert (j = length t) as -> by lia.
    destruct fuel as [|[|fuel]]; [lia|lia|].
    destruct (reveal_finish _ _ _ _ _ _ _ Hsp Hloop Hrev)
      as (w2 & Hf & [Hty2 Htm2] & Hnow2 & Hini2).
    destruct Hrev as (Hty & Hti & Htm & Hnow).
    rewrite (fire_next_single _ _ _ _ Htm) in Hf. injection Hf as Hf.
    rewrite (elapse_fire _ _ _ _ _ _ Htm) by (subst z; cbn; lia).
    rewrite Hf, (elapse_idle _ _ _ _ _ Htm2).
    split; [split|].
    + apply typing_on_host; [intros; apply dom_set_now|done].
    + by destruct w2 as [? []].
    + destruct w2 as [? []]. fields. subst. split; [subst z; lia|done].
  - destruct (reveal_step _ _ _ _ _ _ _ _ Hsp Hrev) as (w2 & Hf & Hrev2 & Hini2);
      [lia|].
    destruct fuel as [|fuel]; [lia|].
    destruct Hrev as (Hty & Hti & Htm & Hnow).
    rewrite (fire_next_single _ _ _ _ Htm) in Hf. injection Hf as Hf.
    rewrite (elapse_fire _ _ _ _ _ _ Htm) by (subst z; cbn; nia).
    rewrite Hf.
    destruct (IH (S j) w2 fuel Hrev2) as (H1 & H2 & H3); [lia|lia|lia|].
    split; [exact H1|]. split; [exact H2|].
    rewrite H3. exact Hini2.
Qed.

Lemma reveal_after_init (w : World V2.Typify) (cfg : Options.t) (e fuel : nat) :
  let c := Options.spread V2.defaultOptions cfg in
  let t := default [] (Options.text c) in
  let speed := Options.ms (Options.speed c) in
  let delay := Options.ms (Options.delay c) in
  let cur := init_cursor c (host w) in
  let w1 := exec (V2.init cfg) w in
  let z := now (host w) + delay + Z.of_nat (length t) * speed in
  selectors (host w) !! Options.str (Options.selector c) = Some e ->
  Options.truthy_bool (Options.loop c) = false ->
  0 <= speed -> 0 <= delay ->
  timers (host w) = [] ->
  (Options.truthy_bool (Options.cursor c) = false ->
   V2.cursorElement (this w) = None) ->
  (length t + 3 <= fuel)%nat ->
  returns (V2.init cfg) w = true
  /\ (forall k, (k <= length t)%nat ->
      children (elem (host (fire_n V2.startTyping V2.tick (1 + k) w1)) e)
      = glyphs (take k t) ++ cursor_part cur)
  /\ (let w2 := elapse V2.startTyping V2.tick fuel z w1 in
      children (elem (host w2) e) = glyphs t ++ cursor_part cur
      /\ shown (children (elem (host w2) e)) = t
      /\ V2.cursorElement (this w2) = cur
      /\ settled z w2 /\ now (host w2) = z
      /\ V2.isInitialized (this w2) = true)
  /\ (let w3 := elapse V2.startTyping V2.tick fuel (z + speed) w1 in
      children (elem (host w3) e) = glyphs t ++ cursor_part cur
      /\ timers (host w3) = []
      /\ fire_next V2.startTyping V2.tick w3 = None
      /\ V2.isInitialized (this w3) = true).
Proof.
  intros c t speed delay cur w1 z Hsel Hloop Hsp Hdl Htm Hcur Hfuel.
  destruct (init_arms w cfg e Hsel Htm Hcur Hdl) as (w1' & Hrun & Harm & Hini).
  assert (w1 = w1') as -> by (subst w1; unfold exec; by rewrite Hrun).
  fold c t delay cur in Harm.
  destruct (reveal_start _ _ _ _ _ _ Hsp Harm) as (w2 & id & Hf & Hrev & Hini2).
  destruct Harm as (Hty & (i & p & Htm1) & Hnow).
  pose proof Hf as Hf'.
  rewrite (fire_next_single _ _ _ _ Htm1) in Hf'. injection Hf' as Hf'.
  split; [unfold returns; by rewrite Hrun|].
  split.
  { intros k Hk. cbn [Nat.add fire_n]. rewrite Hf.
    destruct (reveal_ticks _ _ _ _ _ _ 0 k w2 Hsp Hrev) as [(Hty' & _) _]; [lia|].
    cbn [Nat.add] in Hty'. apply Hty'. }
  destruct fuel as [|fuel]; [lia|].
  assert (0 <= Z.of_nat (length t) * speed) as Hpos
    by (apply Z.mul_nonneg_nonneg; lia).
  split.
  - cbn zeta.
    rewrite (elapse_fire _ _ _ _ _ _ Htm1) by (unfold z; cbn [due]; lia).
    rewrite Hf'.
    destruct (elapse_reveals _ _ _ _ _ _ 0 w2 fuel Hsp Hloop Hrev)
      as (H1 & H2 & H3 & H4); [lia|lia|].
    fold speed z in H1, H2, H3, H4.
    destruct H1 as (? & ? & ? & ? & Hcu & Hch).
    rewrite firstn_all in Hch.
    repeat split; try done.
    + rewrite Hch. apply shown_glyphs.
    + congruence.
  - cbn zeta.
    rewrite (elapse_fire _ _ _ _ _ _ Htm1) by (unfold z; cbn [due]; lia).
    rewrite Hf'.
    destruct (elapse_quiesces _ _ _ _ _ _ 0 w2 fuel Hsp Hloop Hrev)
      as ([H1 H2] & H3 & H4); [lia|lia|].
    fold speed in H1, H2, H3, H4.
    replace (now (host w) + delay + (Z.of_nat (length t) + 1) * speed)
      with (z + speed) in * by (subst z; lia).
    destruct H1 as (? & ? & ? & ? & Hcu & Hch).
    rewrite firstn_all in Hch.
    repeat split; try done.
    + unfold fire_next. by rewrite H2.
    + congruence.
Qed.

(** ** Frames of the blocks of [updateConfig] *)

Lemma frame_bind {A B} R (m : M (World V2.Typify) A)
    (k : A -> M (World V2.Typify) B) :
  Transitive R -> frame R m -> (forall a, frame R (k a)) -> frame R (bind m k).
Proof.
  intros HR Hm Hk w. specialize (Hm w). unfold exec, bind in *.
  destruct (m w) as [[a|x] w1]; cbn in *; [|exact Hm].
  etransitivity; [exact Hm|apply Hk].
Qed.

Lemma host_same_text_trans a b c :
  host_same_text a b -> host_same_text b c -> host_same_text a c.
Proof.
  intros (?&?&?&Ha) (?&?&?&Hb).
  repeat split; try congruence; intros e; by rewrite Hb.
Qed.

#[local] Instance same_reveal_trans : Transitive same_reveal.
Proof.
  intros a b c (?&?&?&?&?&?&Ha) (?&?&?&?&?&?&Hb).
  repeat split; try congruence.
  all: apply (host_same_text_trans _ _ _ Ha Hb).
Qed.

Lemma shown_app l1 l2 : shown (l1 ++ l2) = shown l1 ++ shown l2.
Proof.
  induction l1 as [|[s|i] l1 IH]; cbn; [done| |done].
  by rewrite IH, app_assoc.
Qed.

Lemma shown_snoc_span l i : shown (l ++ [Span i]) = shown l.
Proof. rewrite shown_app. cbn. apply app_nil_r. Qed.

Lemma shown_detach i l : shown (Dom.detach i l) = shown l.
Proof.
  unfold Dom.detach. induction l as [|[s|j] l IH]; [done| |].
  - rewrite filter_cons, decide_True by done. cbn. by rewrite IH.
  - rewrite filter_cons. case_decide; cbn; exact IH.
Qed.

Create HintDb hostframe.

Lemma hst_refl h : host_same_text h h.
Proof. by repeat split. Qed.

Lemma hst_update_elem e f h0 h :
  (forall el, shown (children (f el)) = shown (children el)) ->
  host_same_text h0 h -> host_same_text h0 (update_elem e f h).
Proof.
  intros Hf H. apply (host_same_text_trans _ _ _ H).
  destruct h. repeat split. intros e'. unfold elem, update_elem, set_dom. cbn.
  destruct (decide (e = e')) as [->|Hne].
  - rewrite lookup_total_insert_eq. apply Hf.
  - by rewrite lookup_total_insert_ne.
Qed.

Lemma hst_detach_all i h0 h :
  host_same_text h0 h ->
  host_same_text h0
    (set_dom (fun d => set_children (Dom.detach i) <$> d) h).
Proof.
  intros H. apply (host_same_text_trans _ _ _ H).
  destruct h. repeat split. intros e'. unfold elem, set_dom. cbn.
  rewrite lookup_total_fmap, !lookup_total_alt.
  destruct (_ !! e'); cbn; [apply shown_detach|done].
Qed.

Lemma hst_set_spans f h0 h :
  host_same_text h0 h -> host_same_text h0 (set_spans f h).
Proof. intros H. apply (host_same_text_trans _ _ _ H). by destruct h. Qed.

Lemma hst_set_nextNode n h0 h :
  host_same_text h0 h -> host_same_text h0 (set_nextNode n h).
Proof. intros H. apply (host_same_text_trans _ _ _ H). by destruct h. Qed.

Lemma shown_set_children_snoc i el :
  shown (children (set_children (fun l => l ++ [Span i]) el))
  = shown (children el).
Proof. destruct el. apply shown_snoc_span. Qed.

Lemma shown_set_children_detach i el :
  shown (children (set_children (Dom.detach i) el)) = shown (children el).
Proof. destruct el. apply shown_detach. Qed.

Lemma shown_set_classList f el :
  shown (children (set_classList f el)) = shown (children el).
Proof. by destruct el. Qed.

Lemma shown_set_style_color c el :
  shown (children (set_style_color c el)) = shown (children el).
Proof. by destruct el. Qed.

Lemma shown_set_style_animationDuration d el :
  shown (children (set_style_animationDuration d el)) = shown (children el).
Proof. by destruct el. Qed.

#[local] Hint Resolve hst_refl hst_update_elem hst_detach_all hst_set_spans
  hst_set_nextNode shown_set_children_snoc shown_set_children_detach
  shown_set_classList shown_set_style_color shown_set_style_animationDuration
  : hostframe.

Ltac split_match :=
  match goal with
  | |- context [match ?x with _ => _ end] =>
      lazymatch x with
      | context [match _ with _ => _ end] => fail
      | _ => destruct x eqn:?
      end
  end.

Ltac crush := js; repeat (split_match; js).

Ltac frame_leaf :=
  unfold same_reveal;
  cbv beta iota delta
    [this host V2.config V2.isInitialized V2.typingInterval V2.currentIndex
     V2.text V2.element V2.cursorElement V2.animationClass];
  do 6 (apply conj; [reflexivity|]); eauto 10 with hostframe.

Lemma update_cursor_same_reveal nc : frame same_reveal (V2.update_cursor nc).
Proof. intros [[cfg ini ti ci tx el cu cls] h]. crush; frame_leaf. Qed.

Lemma update_cursorStyle_same_reveal nc :
  frame same_reveal (V2.update_cursorStyle nc).
Proof. intros [[cfg ini ti ci tx el cu cls] h]. crush; frame_leaf. Qed.

Lemma update_animation_same_reveal nc :
  frame same_reveal (V2.update_animation nc).
Proof. intros [[cfg ini ti ci tx el cu cls] h]. crush; frame_leaf. Qed.

Lemma update_color_same_reveal nc : frame same_reveal (V2.update_color nc).
Proof. intros [[cfg ini ti ci tx el cu cls] h]. crush; frame_leaf. Qed.

Lemma update_animationDuration_same_reveal nc :
  frame same_reveal (V2.update_animationDuration nc).
Proof. intros [[cfg ini ti ci tx el cu cls] h]. crush; frame_leaf. Qed.

Lemma update_rest_same_reveal nc : frame same_reveal (update_rest nc).
Proof.
  unfold update_rest.
  repeat (apply frame_bind; [apply _| |intros _]).
  - apply update_cursor_same_reveal.
  - apply update_cursorStyle_same_reveal.
  - apply update_animation_same_reveal.
  - apply update_color_same_reveal.
  - apply update_animationDuration_same_reveal.
Qed.

Lemma updateConfig_blocks nc (w : World V2.Typify) :
  V2.isInitialized (this w) = true ->
  V2.updateConfig nc w
  = (V2.update_text nc ;; V2.update_speed nc ;; update_rest nc)
      (mkWorld (V2.set_config (Options.spread (V2.config (this w)) nc) (this w))
               (host w)).
Proof.
  destruct w as [[cfg ini ti ci tx el cu cls] h]. cbn. intros ->. reflexivity.
Qed.

Lemma bind_val {S A B} (m : M S A) (k : A -> M S B) s a s1 :
  m s = (Val a, s1) -> bind m k s = k a s1.
Proof. unfold bind. by intros ->. Qed.

Lemma update_text_skip nc (w : World V2.Typify) :
  Options.truthy_str (Options.text nc)
    && bool_decide (Options.text nc ≠ Some (V2.text (this w))) = false ->
  V2.update_text nc w = (Val tt, w).
Proof.
  destruct w as [[cfg ini ti ci tx el cu cls] h].
  cbv [this V2.text andb]. intros H. js. rewrite H. reflexivity.
Qed.

Lemma update_speed_skip nc (w : World V2.Typify) :
  Options.truthy_num (Options.speed nc) = false ->
  V2.update_speed nc w = (Val tt, w).
Proof. intros H. unfold V2.update_speed. rewrite H. reflexivity. Qed.

Lemma update_speed_restarts nc (w : World V2.Typify) :
  Options.truthy_num (Options.speed nc) = true ->
  V2.update_speed nc w
  = V2.startTyping
      (on_host (fun h => snd (Dom.clearInterval (V2.typingInterval (this w)) h)) w).
Proof.
  intros H. unfold V2.update_speed. rewrite H.
  destruct w as [[cfg ini [i|] ci tx el cu cls] h]; reflexivity.
Qed.

Lemma speed_spread cfg nc v :
  Options.speed nc = Some v -> Options.speed (Options.spread cfg nc) = Some v.
Proof. intros H. unfold Options.spread. cbn. by rewrite H. Qed.

Lemma speed_change_effect (w : World V2.Typify) (nc : Options.t)
    (v : Z) (tk : nat) :
  let w' := exec (V2.updateConfig nc) w in
  V2.isInitialized (this w) = true ->
  V2.typingInterval (this w) = Some tk ->
  Options.speed nc = Some v -> v <> 0 ->
  Options.truthy_str (Options.text nc)
    && bool_decide (Options.text nc ≠ Some (V2.text (this w))) = false ->
  V2.currentIndex (this w') = V2.currentIndex (this w)
  /\ V2.text (this w') = V2.text (this w)
  /\ (forall e, shown (children (elem (host w') e))
               = shown (children (elem (host w) e)))
  /\ V2.typingInterval (this w') = Some (nextTimer (host w))
  /\ timers (host w')
     = filter (fun t => tid t ≠ tk) (timers (host w))
       ++ [mkTimer (nextTimer (host w)) Interval v (now (host w) + Z.max 0 v)]
  /\ now (host w') = now (host w).
Proof.
  intros w' Hini Hti Hsp Hv Htext. subst w'.
  unfold exec. rewrite updateConfig_blocks by done.
  erewrite bind_val; [|apply update_text_skip; exact Htext].
  assert (Options.truthy_num (Options.speed nc) = true) as Htr.
  { unfold Options.truthy_num. rewrite Hsp. by destruct (Z.eqb_spec v 0). }
  erewrite bind_val;
    [|rewrite (update_speed_restarts _ _ Htr), startTyping_arms; reflexivity].
  match goal with |- context [update_rest nc ?w1] =>
    destruct (update_rest_same_reveal nc w1)
      as (_&_&Hti'&Hci&Htx&_&Htm&Hnt&Hnow&Hsh)
  end.
  unfold exec in *.
  destruct (update_rest nc _) as [r [o h']].
  destruct w as [[cfg ini ti ci tx el cu cls] h]. destruct h.
  cbn [snd this host] in *. fields.
  rewrite (speed_spread _ _ _ Hsp) in *. cbn [Options.ms default from_option id] in *.
  subst ti. cbn [Dom.clearInterval modify snd] in *. fields.
  repeat split; try done.
Qed.

Lemma update_text_resets nc (w : World V2.Typify) t' e :
  Options.text nc = Some t' -> t' <> [] -> t' <> V2.text (this w) ->
  V2.element (this w) = Some e ->
  (Options.animation (V2.config (this w)) = Some anim_none
   \/ Dom.token_error (V2.animationClass (this w)) = None) ->
  (Options.truthy_bool (Options.cursor (V2.config (this w))) = true ->
   V2.cursorElement (this w) <> None) ->
  exists w1, V2.update_text nc w = (Val tt, w1)
    /\ V2.config (this w1) = V2.config (this w)
    /\ V2.isInitialized (this w1) = V2.isInitialized (this w)
    /\ V2.typingInterval (this w1) = V2.typingInterval (this w)
    /\ V2.text (this w1) = t' /\ V2.currentIndex (this w1) = 0%nat
    /\ shown (children (elem (host w1) e)) = []
    /\ timers (host w1)
       = cleared (V2.typingInterval (this w)) (timers (host w))
         ++ [mkTimer (nextTimer (host w)) Timeout
               (Options.ms (Options.delay (V2.config (this w))))
               (now (host w)
                + Z.max 0 (Options.ms (Options.delay (V2.config (this w)))))]
    /\ nextTimer (host w1) = S (nextTimer (host w))
    /\ now (host w1) = now (host w).
Proof.
  destruct w as [[cfg ini ti ci tx el cu cls] h].
  cbv [this host V2.config V2.text V2.element V2.cursorElement
       V2.typingInterval V2.animationClass V2.isInitialized V2.currentIndex].
  intros Ht Hne Hch -> Hanim Hcur.
  js. rewrite Ht. cbn [Options.truthy_str].
  destruct t' as [|u t']; [done|]. js.
  rewrite bool_decide_true by congruence. js.
  destruct (bool_decide (Options.animation cfg ≠ Some anim_none)) eqn:Ha; js.
  - destruct Hanim as [Hanim|Hanim];
      [by rewrite Hanim, bool_decide_false in Ha by (intros ?; done)|].
    rewrite Hanim. js.
    destruct (Options.truthy_bool (Options.cursor cfg)) eqn:Hc; js.
    + destruct cu as [sp|]; [|by destruct Hcur]. js.
      destruct ti; js; eexists; (split; [reflexivity|]); destruct h; fields;
        rewrite ?lookup_total_insert_eq, ?detach_all_lookup, ?lookup_total_insert_eq;
        repeat split.
    + destruct ti; js; eexists; (split; [reflexivity|]); destruct h; fields;
        rewrite ?lookup_total_insert_eq; repeat split.
  - destruct (Options.truthy_bool (Options.cursor cfg)) eqn:Hc; js.
    + destruct cu as [sp|]; [|by destruct Hcur]. js.
      destruct ti; js; eexists; (split; [reflexivity|]); destruct h; fields;
        rewrite ?lookup_total_insert_eq, ?detach_all_lookup, ?lookup_total_insert_eq;
        repeat split.
    + destruct ti; js; eexists; (split; [reflexivity|]); destruct h; fields;
        rewrite ?lookup_total_insert_eq; repeat split.
Qed.

Lemma text_change_effect (w : World V2.Typify) (nc : Options.t)
    (t' : jsstring) (e tk : nat) :
  let c := Options.spread (V2.config (this w)) nc in
  let w' := exec (V2.updateConfig nc) w in
  let tm := mkTimer (nextTimer (host w)) Timeout (Options.ms (Options.delay c))
                    (now (host w) + Z.max 0 (Options.ms (Options.delay c))) in
  let w'' := fire V2.startTyping V2.tick tm w' in
  V2.isInitialized (this w) = true ->
  V2.element (this w) = Some e ->
  V2.typingInterval (this w) = Some tk -> (tk < nextTimer (host w))%nat ->
  Options.text nc = Some t' -> t' <> [] -> t' <> V2.text (this w) ->
  (Options.animation c = Some anim_none
   \/ Dom.token_error (V2.animationClass (this w)) = None) ->
  (Options.truthy_bool (Options.cursor c) = true ->
   V2.cursorElement (this w) <> None) ->
  (V2.text (this w') = t' /\ V2.currentIndex (this w') = 0%nat
   /\ shown (children (elem (host w') e)) = []
   /\ timers (host w')
      = filter (fun t => tid t ≠ tk) (timers (host w))
        ++ tm :: (if Options.truthy_num (Options.speed nc)
                  then [ticker (S (nextTimer (host w))) c
                          (now (host w) + Z.max 0 (Options.ms (Options.speed c)))]
                  else []))
  /\ (V2.text (this w'') = t' /\ V2.currentIndex (this w'') = 0%nat
      /\ V2.typingInterval (this w'') = Some (nextTimer (host w'))
      /\ ticker (nextTimer (host w')) c
           (due tm + Z.max 0 (Options.ms (Options.speed c)))
         ∈ timers (host w'')).
Proof.
  intros c w' tm w'' Hini Hel Hti Hlt Ht Hne Hch Hanim Hcur.
  subst w'' w'. unfold exec.
  rewrite updateConfig_blocks by done. fold c.
  set (w0 := mkWorld _ _).
  destruct (update_text_resets nc w0 t' e Ht Hne)
    as (w1 & Hrun & Hc1 & Hi1 & Hti1 & Ht1 & Hci1 & Hsh1 & Htm1 & Hnt1 & Hnow1);
    try (by destruct w as [[]]).
  erewrite bind_val by exact Hrun.
  assert (V2.typingInterval (this w1) = Some tk) as Hti1'
    by (rewrite Hti1; by destruct w as [[] []]).
  assert (V2.config (this w1) = c) as Hc1'
    by (rewrite Hc1; by destruct w as [[] []]).
  assert (timers (host w1)
          = filter (fun t => tid t ≠ tk) (timers (host w)) ++ [tm]) as Htm1'.
  { rewrite Htm1. subst w0. destruct w as [[] []]. cbn in Hti. subst.
    reflexivity. }
  assert (now (host w1) = now (host w)) as Hnow1'
    by (rewrite Hnow1; by destruct w as [[] []]).
  assert (nextTimer (host w1) = S (nextTimer (host w))) as Hnt1'
    by (rewrite Hnt1; by destruct w as [[] []]).
  assert (exists ws,
    (V2.update_speed nc ;; update_rest nc) w1 = update_rest nc ws
    /\ V2.text (this ws) = t' /\ V2.currentIndex (this ws) = 0%nat
    /\ V2.config (this ws) = c
    /\ shown (children (elem (host ws) e)) = []
    /\ now (host ws) = now (host w)
    /\ timers (host ws)
       = filter (fun t => tid t ≠ tk) (timers (host w))
         ++ tm :: (if Options.truthy_num (Options.speed nc)
                   then [ticker (S (nextTimer (host w))) c
                           (now (host w)
                            + Z.max 0 (Options.ms (Options.speed c)))]
                   else []))
    as (ws & -> & Hts & Hcs & Hcfs & Hshs & Hnows & Htms).
  { destruct (Options.truthy_num (Options.speed nc)) eqn:Hsp.
    - eexists. split.
      { erewrite bind_val;
          [reflexivity
          |rewrite (update_speed_restarts _ _ Hsp), startTyping_arms;
           reflexivity]. }
      rewrite Hti1'.
      destruct w1 as [[cfg1 ini1 ti1 ci1 tx1 el1 cu1 cls1] h1].
      destruct h1 as [s1 d1 sp1 nn1 tms1 nt1 nw1 co1 bad1].
      cbn [this host V2.text V2.currentIndex V2.config V2.typingInterval
           timers now nextTimer] in *.
      cbn [on_host Dom.clearInterval modify snd this host
           V2.set_typingInterval V2.text V2.currentIndex V2.config
           set_timers set_nextTimer timers now nextTimer dom elem].
      repeat split; try assumption.
      rewrite Htm1', Hnt1', Hnow1', Hc1'.
      rewrite filter_app, filter_idem, <- app_assoc. f_equal.
      rewrite filter_cons, decide_True by (subst tm; cbn [tid]; lia).
      reflexivity.
    - exists w1. split.
      { erewrite bind_val; [reflexivity|by apply update_speed_skip]. }
      repeat split; assumption. }
  destruct (update_rest_same_reveal nc ws)
    as (Hc2&_&Hti2&Hci2&Ht2&_&Htm2&Hnt2&Hnow2&Hsh2).
  unfold exec in *.
  destruct (update_rest nc ws) as [r w2]. cbn [snd] in *.
  split.
  { repeat split; try congruence; by rewrite Hsh2. }
  rewrite fire_timeout by done. unfold exec. rewrite startTyping_arms.
  cbn [snd on_host this host V2.set_typingInterval V2.text V2.currentIndex
       V2.typingInterval V2.config nextTimer timers now set_timers
       set_nextTimer drop_timer set_now tid due].
  rewrite Hc2, Hcfs.
  repeat split; try congruence.
  apply elem_of_app. right. apply list_elem_of_singleton.
  unfold ticker. f_equal. rewrite Hnow2, Hnows. subst tm. cbn [due]. lia.
Qed.

#[local] Instance same_cursor_state_trans : Transitive same_cursor_state.
Proof. intros a b c (?&?&?) (?&?&?). repeat split; congruence. Qed.

Ltac cursor_leaf := repeat split; reflexivity.

Lemma startTyping_same_cursor : frame same_cursor_state V2.startTyping.
Proof. intros [[cfg ini ti ci tx el cu cls] h]. crush; cursor_leaf. Qed.

Lemma tick_same_cursor : frame same_cursor_state V2.tick.
Proof. intros [[cfg ini ti ci tx el cu cls] h]. crush; cursor_leaf. Qed.

Lemma update_text_same_cursor nc : frame same_cursor_state (V2.update_text nc).
Proof. intros [[cfg ini ti ci tx el cu cls] h]. crush; cursor_leaf. Qed.

Lemma update_speed_same_cursor nc : frame same_cursor_state (V2.update_speed nc).
Proof. intros [[cfg ini ti ci tx el cu cls] h]. crush; cursor_leaf. Qed.

Lemma update_cursorStyle_same_cursor nc :
  frame same_cursor_state (V2.update_cursorStyle nc).
Proof. intros [[cfg ini ti ci tx el cu cls] h]. crush; cursor_leaf. Qed.

Lemma update_animation_same_cursor nc :
  frame same_cursor_state (V2.update_animation nc).
Proof. intros [[cfg ini ti ci tx el cu cls] h]. crush; cursor_leaf. Qed.

Lemma update_color_same_cursor nc : frame same_cursor_state (V2.update_color nc).
Proof. intros [[cfg ini ti ci tx el cu cls] h]. crush; cursor_leaf. Qed.

Lemma update_animationDuration_same_cursor nc :
  frame same_cursor_state (V2.update_animationDuration nc).
Proof. intros [[cfg ini ti ci tx el cu cls] h]. crush; cursor_leaf. Qed.

Lemma same_cursor_consistent w w' :
  same_cursor_state w w' -> cursor_consistent w -> cursor_consistent w'.
Proof. intros (Hc&Hi&Hu). unfold cursor_consistent. by rewrite Hc, Hi, Hu. Qed.

Lemma returns_bind {S B} (m : M S unit) (k : unit -> M S B) s :
  returns (bind m k) s = true ->
  returns m s = true /\ returns (k tt) (exec m s) = true
  /\ exec (bind m k) s = exec (k tt) (exec m s).
Proof.
  unfold returns, exec, bind. destruct (m s) as [[[]|x] s1]; [|done].
  intros H. by repeat split.
Qed.

Lemma update_cursor_consistent nc (w : World V2.Typify) :
  returns (V2.update_cursor nc) w = true ->
  match Options.cursor nc with
  | Some b => V2.cursorElement (this (exec (V2.update_cursor nc) w)) <> None
              <-> b = true
  | None => V2.cursorElement (this (exec (V2.update_cursor nc) w))
            = V2.cursorElement (this w)
  end.
Proof.
  destruct w as [[cfg ini ti ci tx el cu cls] h].
  unfold V2.update_cursor.
  destruct (Options.cursor nc) as [[|]|]; crush; try discriminate;
    intros _; cbv [this V2.cursorElement]; try done.
Qed.

Lemma update_cursor_keeps nc (w : World V2.Typify) :
  V2.config (this (exec (V2.update_cursor nc) w)) = V2.config (this w)
  /\ V2.isInitialized (this (exec (V2.update_cursor nc) w))
     = V2.isInitialized (this w).
Proof. destruct w as [[cfg ini ti ci tx el cu cls] h]. crush; by split. Qed.

Lemma init_cursor_consistent cfg (w : World V2.Typify) :
  V2.isInitialized (this w) = false -> V2.cursorElement (this w) = None ->
  cursor_consistent (exec (V2.init cfg) w).
Proof.
  destruct w as [[cfg0 ini ti ci tx el cu cls] h]. cbn. intros -> ->.
  unfold cursor_consistent.
  crush; cbv [V2.cursorElement V2.config V2.isInitialized this];
    rewrite ?animation_class_token in *; try discriminate.
  all: intuition congruence.
Qed.

Lemma on_host_same_cursor f w : same_cursor_state w (on_host f w).
Proof. by repeat split. Qed.

Lemma fire_same_cursor tm w :
  same_cursor_state w (fire V2.startTyping V2.tick tm w).
Proof.
  unfold fire. destruct (kind tm).
  - etransitivity; [|apply startTyping_same_cursor].
    by repeat split.
  - etransitivity; [|apply on_host_same_cursor].
    etransitivity; [|apply tick_same_cursor].
    by repeat split.
Qed.

Lemma updateConfig_cursor_consistent nc w :
  returns (V2.updateConfig nc) w = true -> cursor_consistent w ->
  cursor_consistent (exec (V2.updateConfig nc) w).
Proof.
  intros Hret Hinv.
  destruct (V2.isInitialized (this w)) eqn:Hini.
  2:{ assert (exec (V2.updateConfig nc) w = w) as ->; [|done].
      destruct w as [[]]. cbn in Hini. subst. reflexivity. }
  unfold exec, returns in *. rewrite updateConfig_blocks in * by done.
  set (w0 := mkWorld _ _) in *.
  fold (returns (V2.update_text nc;; V2.update_speed nc;; update_rest nc) w0) in Hret.
  fold (exec (V2.update_text nc;; V2.update_speed nc;; update_rest nc) w0).
  apply returns_bind in Hret as (_ & Hret & ->).
  apply returns_bind in Hret as (_ & Hret & ->).
  unfold update_rest in *.
  apply returns_bind in Hret as (Hcur & Hret & ->).
  set (w1 := exec (V2.update_text nc) w0) in *.
  set (w2 := exec (V2.update_speed nc) w1) in *.
  set (w3 := exec (V2.update_cursor nc) w2) in *.
  assert (same_cursor_state w0 w2) as (Hc2 & Hi2 & Hu2).
  { etransitivity; [apply update_text_same_cursor|apply update_speed_same_cursor]. }
  assert (cursor_consistent w3) as H3.
  { pose proof (update_cursor_consistent nc w2 Hcur) as Hcc.
    destruct (update_cursor_keeps nc w2) as [Hc3 Hi3].
    fold w3 in Hcc, Hc3, Hi3.
    unfold cursor_consistent. rewrite Hc3, Hi3, Hc2, Hi2.
    subst w0. cbn [this V2.config V2.set_config V2.isInitialized].
    rewrite Hini.
    destruct (Options.cursor nc) as [b|] eqn:Hnc.
    - unfold Options.spread, Options.over. cbn [Options.cursor]. rewrite Hnc.
      cbn. rewrite Hcc. intuition.
    - rewrite Hcc, Hu2.
      unfold Options.spread, Options.over. cbn [Options.cursor]. rewrite Hnc.
      cbn [this V2.cursorElement V2.set_config].
      unfold cursor_consistent in Hinv. rewrite Hini in Hinv. exact Hinv. }
  eapply same_cursor_consistent; [|exact H3].
  repeat (apply frame_bind; [apply _| |intros _]).
  - apply update_cursorStyle_same_cursor.
  - apply update_animation_same_cursor.
  - apply update_color_same_cursor.
  - apply update_animationDuration_same_cursor.
Qed.

Lemma session_cursor_consistent w : session w -> cursor_consistent w.
Proof.
  induction 1 as [h|w cfg _ IH Hini|w nc _ IH Hret|w w' _ IH Hfire].
  - unfold cursor_consistent. cbn. intuition congruence.
  - apply init_cursor_consistent; [done|].
    unfold cursor_consistent in IH. rewrite Hini in IH.
    destruct (V2.cursorElement (this w)); [|done].
    exfalso. assert (Some n <> None) as Hn by done.
    apply IH in Hn. by destruct Hn.
  - by apply updateConfig_cursor_consistent.
  - unfold fire_next in Hfire.
    destruct (next_timer _) as [tm|]; [|done]. injection Hfire as <-.
    eapply same_cursor_consistent; [apply fire_same_cursor|done].
Qed.

Lemma destroy_returns (w : World V2.Typify) :
  V2.isInitialized (this w) = true -> returns V2.destroy w = true ->
  exists e, V2.element (this w) = Some e
    /\ exec V2.destroy w
       = mkWorld (V2.set_isInitialized false
                    (V2.set_animationClass [] (this w)))
           (update_elem e
              (set_classList (Dom.remove_token (V2.animationClass (this w))))
              (update_elem e (set_children (fun _ => []))
                 (set_timers (cleared (V2.typingInterval (this w)))
                    (host w)))).
Proof.
  destruct w as [[cfg ini ti ci tx el cu cls] h]. cbn [this V2.isInitialized].
  intros ->. destruct el as [e|]; [|by destruct ti].
  intros Hret. exists e. split; [done|]. revert Hret.
  destruct ti; js; destruct (Dom.token_error cls); js; try discriminate;
    intros _; destruct h; reflexivity.
Qed.

Lemma pending_start_effect (w : World V2.Typify) (tm : Timer) :
  let w' := exec V2.destroy w in
  let w'' := fire V2.startTyping V2.tick tm w' in
  V2.isInitialized (this w) = true ->
  tm ∈ timers (host w) -> kind tm = Timeout ->
  V2.typingInterval (this w) <> Some (tid tm) ->
  returns V2.destroy w = true ->
  tm ∈ timers (host w')
  /\ V2.isInitialized (this w') = false
  /\ V2.isInitialized (this w'') = false
  /\ V2.typingInterval (this w'') = Some (nextTimer (host w'))
  /\ exists tk, tk ∈ tickers (host w'') /\ tid tk = nextTimer (host w').
Proof.
  intros w' w'' Hini Hin Hk Hti Hret. subst w'' w'.
  destruct (destroy_returns w Hini Hret) as (e & He & ->).
  rewrite fire_timeout by done.
  unfold exec. rewrite startTyping_arms.
  destruct w as [[cfg ini ti ci tx el cu cls] [sel dm sp nn tms nt nw co bad]].
  cbn [this host V2.isInitialized V2.typingInterval timers] in Hini, Hin, Hti.
  cbn [snd on_host this host V2.set_isInitialized V2.set_animationClass
       V2.isInitialized V2.set_typingInterval V2.typingInterval
       V2.config V2.currentIndex V2.text V2.element V2.cursorElement
       V2.animationClass update_elem set_dom set_timers set_nextTimer set_now
       drop_timer timers nextTimer now dom selectors spans nextNode console].
  split; [|repeat split].
  - destruct ti as [i|]; cbn [cleared]; [|exact Hin].
    apply list_elem_of_filter. split; [congruence|done].
  - eexists. split.
    + unfold tickers. cbn [timers]. apply list_elem_of_filter.
      split; [|apply elem_of_app; right; by apply list_elem_of_singleton].
      reflexivity.
    + reflexivity.
Qed.

(** ** Timer handles stay in order *)

#[local] Instance keeps_handles_trans : Transitive keeps_handles.
Proof. intros a b c H1 H2 H. apply H2, H1, H. Qed.

Lemma timers_ok_filter handle next l (P : Timer -> Prop) `{!forall t, Decision (P t)} :
  timers_ok handle next l -> timers_ok handle next (filter P l).
Proof.
  intros [H1 H2]. split.
  - intros t [_ Ht]%list_elem_of_filter. by apply H1.
  - intros i Hi. destruct (H2 i Hi) as [Hlt Hk]. split; [done|].
    intros t [_ Ht]%list_elem_of_filter. by apply Hk.
Qed.

Lemma elem_of_snoc {A} (l : list A) (x y : A) : y ∈ l ++ [x] <-> y ∈ l \/ y = x.
Proof. by rewrite elem_of_app, list_elem_of_singleton. Qed.

Lemma timers_ok_arm handle next l k p d :
  timers_ok handle next l ->
  timers_ok handle (S next) (l ++ [mkTimer next k p d]).
Proof.
  intros [H1 H2]. split.
  - intros t [Ht| ->]%elem_of_snoc; [|cbn; lia].
    specialize (H1 _ Ht). lia.
  - intros i Hi. destruct (H2 i Hi) as [Hlt Hk]. split; [lia|].
    intros t [Ht| ->]%elem_of_snoc; [by apply Hk|].
    cbn. lia.
Qed.

Lemma timers_ok_start handle next l p d :
  timers_ok handle next l ->
  timers_ok (Some next) (S next) (l ++ [mkTimer next Interval p d]).
Proof.
  intros [H1 H2]. split.
  - intros t [Ht| ->]%elem_of_snoc; [|cbn; lia].
    specialize (H1 _ Ht). lia.
  - intros i [= <-]. split; [lia|].
    intros t [Ht| ->]%elem_of_snoc; [|done].
    specialize (H1 _ Ht). lia.
Qed.

Lemma timers_ok_rearm handle next l i k p d d' :
  mkTimer i k p d ∈ l ->
  timers_ok handle next l ->
  timers_ok handle next (filter (fun t => tid t ≠ i) l ++ [mkTimer i k p d']).
Proof.
  intros Hin [H1 H2]. split.
  - intros t [[_ Ht]%list_elem_of_filter| ->]%elem_of_snoc; [by apply H1|].
    apply (H1 _ Hin).
  - intros j Hj. destruct (H2 j Hj) as [Hlt Hk]. split; [done|].
    intros t [[_ Ht]%list_elem_of_filter| ->]%elem_of_snoc; [by apply Hk|].
    apply (Hk _ Hin).
Qed.

(** *** Frames of the primitives *)

Lemma frame_ret {A} R (a : A) : Reflexive R -> frame R (ret a).
Proof. intros HR w. apply HR. Qed.

Lemma frame_throw {A} R x : Reflexive R -> frame (A:=A) R (throw x).
Proof. intros HR w. apply HR. Qed.

Lemma frame_read {A} R (f : V2.Typify -> A) : Reflexive R -> frame R (read f).
Proof. intros HR w. apply HR. Qed.

Lemma frame_deref {A} R (o : option A) : Reflexive R -> frame R (deref o).
Proof. intros HR w. destruct o; apply HR. Qed.

Lemma frame_when R b m : Reflexive R -> frame R m -> frame R (when_ b m).
Proof. intros HR Hm. destruct b; [done|]. intros w. apply HR. Qed.

#[local] Instance keeps_handles_refl : Reflexive keeps_handles.
Proof. by intros w H. Qed.

Lemma call_untimed {A} (m : M Host A) :
  untimed m -> frame keeps_handles (call m).
Proof.
  intros Hm [o h]. unfold keeps_handles, handles_ok, exec, call. cbn.
  destruct (Hm h) as [H1 H2]. destruct (m h) as [r h']. cbn in *.
  by rewrite H1, H2.
Qed.

Lemma self_keeps_handles f :
  (forall o, V2.typingInterval (f o) = V2.typingInterval o) ->
  frame keeps_handles (self f).
Proof.
  intros Hf [o h]. unfold keeps_handles, handles_ok, exec, self, modify. cbn.
  by rewrite Hf.
Qed.

Lemma arm_keeps_handles k d :
  frame keeps_handles (call (Dom.arm k d)).
Proof.
  intros [o [s dm sp nn tms nt nw co bad]]. unfold keeps_handles, handles_ok. cbn.
  apply timers_ok_arm.
Qed.

Lemma clearInterval_keeps_handles ti :
  frame keeps_handles (call (Dom.clearInterval ti)).
Proof.
  intros [o [s dm sp nn tms nt nw co bad]]. unfold keeps_handles, handles_ok.
  destruct ti; cbn; [|done]. apply timers_ok_filter.
Qed.

Lemma startTyping_keeps_handles : frame keeps_handles V2.startTyping.
Proof.
  intros w. unfold keeps_handles, handles_ok, exec. rewrite startTyping_arms.
  destruct w as [o [s dm sp nn tms nt nw co bad]]. cbn.
  apply timers_ok_start.
Qed.

Ltac untimed_tac :=
  intros h; destruct h; js;
  repeat (split_match; js); split; reflexivity.

Lemma untimed_querySelector sel : untimed (Dom.querySelector sel).
Proof. untimed_tac. Qed.
Lemma untimed_clear_innerHTML e : untimed (Dom.clear_innerHTML e).
Proof. untimed_tac. Qed.
Lemma untimed_set_color e c : untimed (Dom.set_color e c).
Proof. untimed_tac. Qed.
Lemma untimed_set_animationDuration e d : untimed (Dom.set_animationDuration e d).
Proof. untimed_tac. Qed.
Lemma untimed_classList_add e tok : untimed (Dom.classList_add e tok).
Proof. untimed_tac. Qed.
Lemma untimed_classList_remove e tok : untimed (Dom.classList_remove e tok).
Proof. untimed_tac. Qed.
Lemma untimed_createCursorSpan g : untimed (Dom.createCursorSpan g).
Proof. untimed_tac. Qed.
Lemma untimed_set_textContent i g : untimed (Dom.set_textContent i g).
Proof. untimed_tac. Qed.
Lemma untimed_appendText e s : untimed (Dom.appendText e s).
Proof. untimed_tac. Qed.
Lemma untimed_appendSpan e i : untimed (Dom.appendSpan e i).
Proof. untimed_tac. Qed.
Lemma untimed_insertTextBefore e s i : untimed (Dom.insertTextBefore e s i).
Proof. untimed_tac. Qed.
Lemma untimed_removeSpan e i : untimed (Dom.removeSpan e i).
Proof. untimed_tac. Qed.
Lemma untimed_console_error msg : untimed (Dom.console_error msg).
Proof. untimed_tac. Qed.

Create HintDb untimed.
#[local] Hint Resolve untimed_querySelector untimed_clear_innerHTML
  untimed_set_color untimed_set_animationDuration untimed_classList_add
  untimed_classList_remove untimed_createCursorSpan untimed_set_textContent
  untimed_appendText untimed_appendSpan untimed_insertTextBefore
  untimed_removeSpan untimed_console_error : untimed.

Create HintDb handles.

Ltac frame_step :=
  first
    [ solve [auto with handles]
    | apply frame_bind; [apply _ | | intros ?]
    | apply frame_ret; apply _
    | apply frame_throw; apply _
    | apply frame_read; apply _
    | apply frame_deref; apply _
    | apply frame_when; [apply _|]
    | apply arm_keeps_handles
    | apply clearInterval_keeps_handles
    | apply self_keeps_handles; intros []; reflexivity
    | apply call_untimed; solve [auto with untimed]
    | match goal with
      | |- frame _ (match ?x with _ => _ end) => destruct x
      end ].

#[local] Hint Resolve startTyping_keeps_handles : handles.

Lemma apply_duration_keeps_handles e d :
  frame keeps_handles (V2.apply_duration e d).
Proof. unfold V2.apply_duration. repeat frame_step. Qed.
#[local] Hint Resolve apply_duration_keeps_handles : handles.

Lemma create_cursor_keeps_handles : frame keeps_handles V2.create_cursor.
Proof. unfold V2.create_cursor. repeat frame_step. Qed.
#[local] Hint Resolve create_cursor_keeps_handles : handles.

Lemma resetTyping_keeps_handles : frame keeps_handles V2.resetTyping.
Proof. unfold V2.resetTyping. repeat frame_step. Qed.
#[local] Hint Resolve resetTyping_keeps_handles : handles.

Lemma tick_keeps_handles : frame keeps_handles V2.tick.
Proof. unfold V2.tick. repeat frame_step. Qed.

Lemma init_keeps_handles cfg : frame keeps_handles (V2.init cfg).
Proof. unfold V2.init. repeat frame_step. Qed.

Lemma updateConfig_keeps_handles nc : frame keeps_handles (V2.updateConfig nc).
Proof.
  unfold V2.updateConfig, V2.update_text, V2.update_speed, V2.update_cursor,
    V2.update_cursorStyle, V2.update_animation, V2.update_color,
    V2.update_animationDuration.
  repeat frame_step.
Qed.

Lemma destroy_keeps_handles : frame keeps_handles V2.destroy.
Proof. unfold V2.destroy. repeat frame_step. Qed.

Lemma find_tid_elem (l : list Timer) i t :
  find (fun t => bool_decide (tid t = i)) l = Some t -> t ∈ l /\ tid t = i.
Proof.
  induction l as [|x l IH]; [done|]. cbn.
  case_bool_decide as Hx.
  - intros [= <-]. split; [left|done].
  - intros H. destruct (IH H). split; [by right|done].
Qed.

Lemma fire_keeps_handles tm w :
  handles_ok w -> handles_ok (fire V2.startTyping V2.tick tm w).
Proof.
  intros Hw. unfold fire.
  assert (handles_ok (on_host (fun h => set_now (Z.max (now h) (due tm)) h) w))
    as H1 by (by destruct w as [o []]).
  destruct (kind tm).
  - apply startTyping_keeps_handles.
    destruct w as [o [s dm sp nn tms nt nw co bad]]. unfold handles_ok in *. cbn in *.
    by apply timers_ok_filter.
  - apply tick_keeps_handles in H1.
    destruct (exec V2.tick _) as [o [s dm sp nn tms nt nw co bad]].
    unfold handles_ok, on_host, rearm in *. cbn [this host timers nextTimer] in *.
    destruct (find _ tms) as [[i k p d]|] eqn:Hf; [|exact H1].
    apply find_tid_elem in Hf as [Hin Hi]. cbn in Hi. subst i.
    cbn. by eapply timers_ok_rearm.
Qed.

(** Every state a page can drive the animator into keeps its handles in
    order. *)
Theorem run_keeps_handles (l : list action) (w : World V2.Typify) :
  handles_ok w -> handles_ok (V2.run l w).
Proof.
  revert w. induction l as [|a l IH]; intros w Hw; [done|].
  unfold V2.run in *. cbn [foldl]. apply IH.
  destruct a; cbn [V2.step].
  - by apply init_keeps_handles.
  - by apply updateConfig_keeps_handles.
  - by apply destroy_keeps_handles.
  - unfold fire_next. destruct (next_timer _); [|done].
    cbn. by apply fire_keeps_handles.
Qed.

Lemma fresh_handles_ok h : timers h = [] -> handles_ok (mkWorld V2.initial h).
Proof.
  intros H. unfold handles_ok, timers_ok. cbn. rewrite H.
  split; [intros t Ht; by apply elem_of_nil in Ht|done].
Qed.

(* ================================================================= *)
(** * Main results *)

(** ** C1: [init] after an earlier session *)

(** C1 fails on the code.  [init] sets [cursorElement] when the cursor is
    enabled and never clears it.  Take the scenario of the specification,
    first with the cursor and an enter animation: the session reveals "Hi",
    ends, and is destroyed, and the handle of its cursor span survives.  A
    second [init], now with the cursor disabled, returns; but every tick
    calls [insertBefore] with the span of the first session, which is no
    child of the target, and raises [NotFoundError].  When
    [delay + length(text) * speed] has elapsed, and 400 ms later still,
    the target is empty, [currentIndex] is 0 and the ticker is armed. *)
Theorem reinit_without_cursor_reveals_nothing :
  timers (host finished_session) = []
  /\ V2.isInitialized (this finished_session) = false
  /\ V2.cursorElement (this finished_session) = Some 0%nat
  /\ returns (V2.init hi_cfg) finished_session = true
  /\ (let w := at_time 5 (reveal_time finished_session hi_cfg)
                  (exec (V2.init hi_cfg) finished_session) in
      content w 0 = []
      /\ V2.currentIndex (this w) = 0%nat
      /\ fst (V2.tick w) = Throw NotFoundError
      /\ length (tickers (host w)) = 1%nat)
  /\ (let w := at_time 50 (reveal_time finished_session hi_cfg + 400)
                  (exec (V2.init hi_cfg) finished_session) in
      content w 0 = []
      /\ V2.currentIndex (this w) = 0%nat
      /\ length (tickers (host w)) = 1%nat).
Proof. vm_compute. repeat split; reflexivity. Qed.

(** ** C2: two tickers at once *)

(** C2 fails on the code.  A speed update made during the start delay arms
    a ticker at once; the start-delay callback then arms a second one
    without cancelling the first, which [typingInterval] no longer names.
    Both run: four code units are on show 110 ms after [init], where one
    ticker of period 50 armed at 10 ms would have shown two. *)
Theorem two_tickers_after_speed_update :
  tickers (host (V2.run early_speed_trace fresh2))
  = [mkTimer 1 Interval 50 50; mkTimer 2 Interval 50 60]
  /\ V2.typingInterval (this (V2.run early_speed_trace fresh2)) = Some 2%nat
  /\ shown (content (V2.run (early_speed_trace ++ [Fire; Fire; Fire; Fire])
                       fresh2) 0) = lit "Hell"
  /\ now (host (V2.run (early_speed_trace ++ [Fire; Fire; Fire; Fire]) fresh2))
     = 110.
Proof. vm_compute. repeat split; reflexivity. Qed.

(** ** C3: [init] without a target *)

(** C3 fails on the code.  [init] returns early when the selector matches
    nothing, but by then it has stored [null] in [element], and it never
    clears [isInitialized].  On the default session an [init] with the
    selector [#missing] writes the error to the console and returns: the
    animator is still initialized, its target is lost, and the start timeout
    of the first [init] is still pending.  The calls that follow are no
    no-ops: [updateConfig] with a new text stores the text and raises
    [TypeError], and [destroy] raises [TypeError] and leaves
    [isInitialized] true. *)
Theorem failed_reinit_stays_initialized :
  returns (V2.init missing_cfg) default_session2 = true
  /\ console (host lost_target_session)
     = [V2.not_found_message (lit "#missing")]
  /\ V2.isInitialized (this lost_target_session) = true
  /\ V2.element (this lost_target_session) = None
  /\ timers (host lost_target_session) = [start_timeout]
  /\ fst (V2.updateConfig (opt_text (lit "X")) lost_target_session)
     = Throw TypeError
  /\ V2.text (this (exec (V2.updateConfig (opt_text (lit "X")))
                       lost_target_session)) = lit "X"
  /\ fst (V2.destroy lost_target_session) = Throw TypeError
  /\ V2.isInitialized (this (exec V2.destroy lost_target_session)) = true.
Proof. vm_compute. repeat split; reflexivity. Qed.
(** ** C4: changing the enter animation *)

(** The guard of the animation block compares the new value with
    [this.config.animation] after the merge has stored the new value
    there, so the block never runs. *)
Lemma update_animation_never_runs nc (w : World V2.Typify) old :
  V2.config (this w) = Options.spread old nc ->
  V2.update_animation nc w = (Val tt, w).
Proof.
  destruct w as [[cfg ini ti ci tx el cu cls] h]. cbn [this V2.config].
  intros ->. js. unfold Options.spread, Options.over. cbn [Options.animation].
  destruct (Options.animation nc) as [a|]; [|reflexivity].
  cbn [Options.truthy_anim].
  rewrite bool_decide_false by (intros H; by apply H). reflexivity.
Qed.

(** C4 fails on the code.  After [init] with the animation [fade], an
    [updateConfig] that carries [slide] stores it in the configuration but
    leaves the tag of [fade] on the target and in [animationClass]; one that
    carries [none] leaves the tag and the duration in place as well. *)
Theorem animation_update_ignored :
  Options.animation
    (V2.config (this (V2.run [Init (opt_animation anim_fade);
                              UpdateConfig (opt_animation anim_slide)] fresh2)))
  = Some anim_slide
  /\ V2.animationClass
       (this (V2.run [Init (opt_animation anim_fade);
                      UpdateConfig (opt_animation anim_slide)] fresh2))
     = lit "typify-animation-fade"
  /\ classList (elem (host (V2.run [Init (opt_animation anim_fade);
                       UpdateConfig (opt_animation anim_slide)] fresh2)) 0)
     = [lit "typify-animation-fade"]
  /\ classList (elem (host (V2.run [Init (opt_animation anim_fade);
                       UpdateConfig (opt_animation anim_none)] fresh2)) 0)
     = [lit "typify-animation-fade"]
  /\ style_animationDuration
       (elem (host (V2.run [Init (opt_animation anim_fade);
                            UpdateConfig (opt_animation anim_none)] fresh2)) 0)
     = Some 1000.
Proof. vm_compute. repeat split; reflexivity. Qed.

(** ** C5: changing the text *)

(** C5 (amended).  In an initialized state with a target [e] and a ticker
    handle [tk], timer handles being in order as they are in every state a
    page can reach, an [updateConfig] that carries a non-empty text
    different from the current one resets the reveal, provided the reset
    raises nothing (the tag in [animationClass] is a valid token when an
    animation is configured, and a cursor handle exists when the cursor is
    enabled): the text is the new one, [currentIndex] is 0, the target
    shows no text, the timer [tk] is cancelled and a fresh start-delay
    timeout is armed (followed by a ticker armed at once if the same call
    carries a non-zero speed).  When that timeout fires, [startTyping] arms
    a ticker at the configured speed for the new text. *)
Theorem text_change_resets_reveal (w : World V2.Typify) (nc : Options.t)
    (t' : jsstring) (e tk : nat) :
  handles_ok w ->
  V2.isInitialized (this w) = true ->
  V2.element (this w) = Some e ->
  V2.typingInterval (this w) = Some tk ->
  Options.text nc = Some t' -> t' <> [] -> t' <> V2.text (this w) ->
  (Options.animation (Options.spread (V2.config (this w)) nc) = Some anim_none
   \/ Dom.token_error (V2.animationClass (this w)) = None) ->
  (Options.truthy_bool
     (Options.cursor (Options.spread (V2.config (this w)) nc)) = true ->
   V2.cursorElement (this w) <> None) ->
  let c := Options.spread (V2.config (this w)) nc in
  let w' := exec (V2.updateConfig nc) w in
  let tm := mkTimer (nextTimer (host w)) Timeout (Options.ms (Options.delay c))
                    (now (host w) + Z.max 0 (Options.ms (Options.delay c))) in
  let w'' := fire V2.startTyping V2.tick tm w' in
  (V2.text (this w') = t' /\ V2.currentIndex (this w') = 0%nat
   /\ shown (content w' e) = []
   /\ timers (host w')
      = filter (fun t => tid t ≠ tk) (timers (host w))
        ++ tm :: (if Options.truthy_num (Options.speed nc)
                  then [ticker (S (nextTimer (host w))) c
                          (now (host w) + Z.max 0 (Options.ms (Options.speed c)))]
                  else []))
  /\ (V2.text (this w'') = t' /\ V2.currentIndex (this w'') = 0%nat
      /\ V2.typingInterval (this w'') = Some (nextTimer (host w'))
      /\ ticker (nextTimer (host w')) c
           (due tm + Z.max 0 (Options.ms (Options.speed c)))
         ∈ timers (host w'')).
Proof.
  intros Hok Hini Hel Hti Ht Hne Hch Hanim Hcur.
  assert (tk < nextTimer (host w))%nat as Hlt
    by (destruct Hok as [_ Hh]; by destruct (Hh tk Hti)).
  exact (text_change_effect w nc t' e tk Hini Hel Hti Hlt Ht Hne Hch Hanim Hcur).
Qed.

Lemma text_change_resets_reveal_witness :
  V2.text (this (exec (V2.updateConfig (opt_text (lit "X"))) mid_reveal))
  = lit "X"
  /\ V2.currentIndex
       (this (exec (V2.updateConfig (opt_text (lit "X"))) mid_reveal)) = 0%nat
  /\ shown (content (exec (V2.updateConfig (opt_text (lit "X"))) mid_reveal) 0)
     = [].
Proof.
  destruct (text_change_resets_reveal mid_reveal (opt_text (lit "X"))
              (lit "X") 0 1) as ((H1 & H2 & H3 & _) & _);
    [apply run_keeps_handles, fresh_handles_ok; reflexivity
    |reflexivity|reflexivity|reflexivity|reflexivity
    |discriminate|vm_compute; discriminate|left; reflexivity
    |intros _; vm_compute; discriminate|].
  split; [exact H1|]. split; [exact H2|exact H3].
Defined.

(** C5, as stated, fails for the empty text: it differs from the current
    text, yet the guard [newConfig.text && ...] is false, and the reveal
    goes on where it was. *)
Lemma empty_text_does_not_reset :
  V2.isInitialized (this mid_reveal) = true
  /\ Options.text (opt_text []) <> Some (V2.text (this mid_reveal))
  /\ V2.currentIndex (this (exec (V2.updateConfig (opt_text [])) mid_reveal))
     = 2%nat
  /\ shown (content (exec (V2.updateConfig (opt_text [])) mid_reveal) 0)
     = lit "He"
  /\ timers (host (exec (V2.updateConfig (opt_text [])) mid_reveal))
     = timers (host mid_reveal).
Proof. vm_compute. repeat split; try reflexivity. discriminate. Qed.

(** The proviso on the reset matters: when the same call enables a cursor
    that does not exist yet, [resetTyping] reaches
    [appendChild(this.cursorElement)] with a null handle and raises, so the
    ticker is not cancelled and no start delay is armed. *)
Remark text_with_new_cursor_raises :
  fst (V2.updateConfig opt_text_cursor mid_reveal_no_cursor) = Throw TypeError
  /\ timers (host (exec (V2.updateConfig opt_text_cursor) mid_reveal_no_cursor))
     = timers (host mid_reveal_no_cursor)
  /\ timers (host mid_reveal_no_cursor) = [mkTimer 1 Interval 100 800].
Proof. vm_compute. repeat split; reflexivity. Qed.

(** ** C6: changing the speed *)

(** C6 (amended).  In an initialized state whose ticker handle is [tk], an
    [updateConfig] that carries a non-zero speed [v], and no text that would
    trigger a reset, leaves [currentIndex], the text and what every element
    shows as they are; it cancels the timer [tk] and arms, at the time of
    the call, a new ticker of period [v] that [typingInterval] then
    names. *)
Theorem speed_change_restarts_ticker (w : World V2.Typify) (nc : Options.t)
    (v : Z) (tk : nat) :
  V2.isInitialized (this w) = true ->
  V2.typingInterval (this w) = Some tk ->
  Options.speed nc = Some v -> v <> 0 ->
  Options.truthy_str (Options.text nc)
    && bool_decide (Options.text nc ≠ Some (V2.text (this w))) = false ->
  let w' := exec (V2.updateConfig nc) w in
  V2.currentIndex (this w') = V2.currentIndex (this w)
  /\ V2.text (this w') = V2.text (this w)
  /\ (forall e, shown (content w' e) = shown (content w e))
  /\ V2.typingInterval (this w') = Some (nextTimer (host w))
  /\ timers (host w')
     = filter (fun t => tid t ≠ tk) (timers (host w))
       ++ [mkTimer (nextTimer (host w)) Interval v (now (host w) + Z.max 0 v)]
  /\ now (host w') = now (host w).
Proof.
  intros Hini Hti Hsp Hv Htext.
  exact (speed_change_effect w nc v tk Hini Hti Hsp Hv Htext).
Qed.

Lemma speed_change_restarts_ticker_witness :
  V2.currentIndex (this (exec (V2.updateConfig (opt_speed 50)) mid_reveal))
  = 2%nat
  /\ timers (host (exec (V2.updateConfig (opt_speed 50)) mid_reveal))
     = [mkTimer 2 Interval 50 750].
Proof.
  destruct (speed_change_restarts_ticker mid_reveal (opt_speed 50) 50 1)
    as (H1 & _ & _ & _ & H2 & _);
    [reflexivity|reflexivity|reflexivity|discriminate|reflexivity|].
  split; [exact H1|exact H2].
Defined.

(** C6, as stated, fails for the speed 0: it differs from the current
    speed and is stored in the configuration, yet the guard
    [if (newConfig.speed)] is false and the old ticker, of period 100,
    stays as it is. *)
Lemma zero_speed_does_not_restart :
  V2.isInitialized (this mid_reveal) = true
  /\ Options.speed (opt_speed 0)
     <> Options.speed (V2.config (this mid_reveal))
  /\ Options.speed
       (V2.config (this (exec (V2.updateConfig (opt_speed 0)) mid_reveal)))
     = Some 0
  /\ timers (host (exec (V2.updateConfig (opt_speed 0)) mid_reveal))
     = timers (host mid_reveal)
  /\ timers (host mid_reveal) = [mkTimer 1 Interval 100 800].
Proof. vm_compute. repeat split; try reflexivity. discriminate. Qed.

(** The proviso on the text matters: a call that carries a new text as well
    resets [currentIndex], and leaves the start-delay timeout and a ticker
    armed side by side. *)
Remark speed_with_text_resets :
  V2.currentIndex (this mid_reveal) = 2%nat
  /\ V2.currentIndex (this (exec (V2.updateConfig opt_text_speed) mid_reveal))
     = 0%nat
  /\ timers (host (exec (V2.updateConfig opt_text_speed) mid_reveal))
     = [mkTimer 2 Timeout 500 1200; mkTimer 3 Interval 50 750].
Proof. vm_compute. repeat split; reflexivity. Qed.

(** ** C7: the cursor handle *)

(** C7 (amended).  In every state reached from the animator as the page
    loads it by [init] calls made while it is not initialized, by timer
    callbacks, and by [updateConfig] calls that return without raising,
    the cursor handle is non-null if and only if [config.cursor] is true
    and the animator is initialized. *)
Theorem cursor_handle_in_session (w : World V2.Typify) :
  session w ->
  V2.cursorElement (this w) <> None
  <-> Options.truthy_bool (Options.cursor (V2.config (this w))) = true
      /\ V2.isInitialized (this w) = true.
Proof. exact (session_cursor_consistent w). Qed.

Lemma cursor_handle_in_session_witness :
  V2.cursorElement
    (this (exec (V2.updateConfig (opt_cursor false))
             (exec (V2.init Options.empty) fresh2))) <> None
  <-> Options.truthy_bool
        (Options.cursor
           (V2.config
              (this (exec (V2.updateConfig (opt_cursor false))
                       (exec (V2.init Options.empty) fresh2))))) = true
      /\ V2.isInitialized
           (this (exec (V2.updateConfig (opt_cursor false))
                    (exec (V2.init Options.empty) fresh2))) = true.
Proof.
  apply cursor_handle_in_session.
  apply session_update; [|reflexivity].
  apply session_init; [|reflexivity].
  apply session_start.
Defined.

(** C7, as stated, fails after [destroy]: it clears the flag and leaves the
    handle. *)
Lemma cursor_handle_survives_destroy :
  V2.cursorElement (this (V2.run [Init (opt_animation anim_fade); Destroy]
                            fresh2)) = Some 0%nat
  /\ V2.isInitialized (this (V2.run [Init (opt_animation anim_fade); Destroy]
                               fresh2)) = false.
Proof. vm_compute. split; reflexivity. Qed.

(** ** C9: [destroy] during the start delay *)

(** C9 fails on the code.  On the default session [animationClass] is
    empty, so a [destroy] made during the start delay raises [SyntaxError]
    at [classList.remove], after it has emptied the target and before it
    clears [isInitialized].  The start timeout is not cancelled; when it
    fires, [startTyping] arms a ticker, but [isInitialized] is true, not
    false.  The ticks of that ticker raise [NotFoundError], the cursor span
    being no child of the emptied target. *)
Theorem start_fires_after_failed_destroy :
  timers (host default_session2) = [start_timeout]
  /\ fst (V2.destroy default_session2) = Throw SyntaxError
  /\ (let w := exec V2.destroy default_session2 in
      timers (host w) = [start_timeout]
      /\ content w 0 = []
      /\ V2.isInitialized (this w) = true)
  /\ (let w := fire V2.startTyping V2.tick start_timeout
                  (exec V2.destroy default_session2) in
      tickers (host w) = [mkTimer 1 Interval 100 600]
      /\ V2.typingInterval (this w) = Some 1%nat
      /\ V2.isInitialized (this w) = true
      /\ fst (V2.tick w) = Throw NotFoundError).
Proof. vm_compute. repeat split; reflexivity. Qed.

(** ** C10: the two versions *)

(** C10 fails on the code.  With only options both versions know, [destroy]
    of version 1.0.0 returns and clears [isInitialized]; [destroy] of
    version 2.0.0 calls [classList.remove] with the empty [animationClass],
    which raises before the flag is cleared.  An [updateConfig] with a new
    text is then a no-op in version 1.0.0 and a reset in version 2.0.0:
    after three callbacks version 1.0.0 shows nothing and has one timer,
    version 2.0.0 shows "X" before the cursor and has two. *)
Theorem versions_diverge_after_destroy :
  fst (V1.destroy (exec (V1.init Options.empty) fresh1)) = Val tt
  /\ fst (V2.destroy (exec (V2.init Options.empty) fresh2)) = Throw SyntaxError
  /\ V1.isInitialized (this (V1.run compat_trace fresh1)) = false
  /\ V2.isInitialized (this (V2.run compat_trace fresh2)) = true
  /\ children (elem (host (V1.run compat_trace fresh1)) 0) = []
  /\ children (elem (host (V2.run compat_trace fresh2)) 0)
     = [Text (lit "X"); Span 0]
  /\ length (timers (host (V1.run compat_trace fresh1))) = 1%nat
  /\ length (timers (host (V2.run compat_trace fresh2))) = 2%nat.
Proof. vm_compute. repeat split; reflexivity. Qed.

(* ================================================================= *)
(** * Further properties *)

Lemma bind_read {T A B} (f : T -> A) (k : A -> M (World T) B) w :
  bind (read f) k w = k (f (this w)) w.
Proof. reflexivity. Qed.

Lemma not_none_none : bool_decide (Some anim_none ≠ Some anim_none) = false.
Proof. reflexivity. Qed.

(** ** [initializeTypify] and the defaults *)

(** X1.  [initializeTypify()] without an argument, on a freshly loaded
    animator and a page where [#typing-demo] exists and no timer is
    pending, runs the defaults: the target is emptied and gets the colour
    [#e0e0e0] and a cursor span of class [typify-cursor] showing [|], its
    class list is left alone, one timeout of 500 ms is armed, and 2200 ms
    later (500 + 17 * 100) the target shows "Hello, TurboChat!", one text
    node per code unit, before the cursor. *)
Theorem initializeTypify_defaults (h : Host) (e fuel : nat) :
  selectors h !! lit "#typing-demo" = Some e ->
  timers h = [] ->
  (20 <= fuel)%nat ->
  let w := exec (V2.initializeTypify None) (mkWorld V2.initial h) in
  V2.isInitialized (this w) = true
  /\ content w e = [Span (nextNode h)]
  /\ spans (host w) !! nextNode h
     = Some (mkSpan [lit "typify-cursor"] (lit "|"))
  /\ style_color (elem (host w) e) = lit "#e0e0e0"
  /\ classList (elem (host w) e) = classList (elem h e)
  /\ timers (host w) = [mkTimer (nextTimer h) Timeout 500 (now h + 500)]
  /\ content (at_time fuel (now h + 2200) w) e
     = glyphs (lit "Hello, TurboChat!") ++ [Span (nextNode h)]
  /\ shown (content (at_time fuel (now h + 2200) w) e)
     = lit "Hello, TurboChat!".
Proof.
  intros Hsel Htm Hfuel w.
  assert (selectors (host (mkWorld V2.initial h))
            !! Options.str (Options.selector
                 (Options.spread V2.defaultOptions Options.empty)) = Some e)
    as Hsel' by exact Hsel.
  destruct (reveal_after_init (mkWorld V2.initial h) Options.empty e fuel Hsel')
    as (_ & _ & (Hch & Hsh & _) & _);
    [reflexivity|cbn; lia|cbn; lia|exact Htm|discriminate|cbn; lia|].
  assert (w = exec (V2.init Options.empty) (mkWorld V2.initial h)) as Hw
    by reflexivity.
  rewrite <- Hw in Hch, Hsh.
  unfold at_time, content.
  replace (now h + 2200) with
    (now (host (mkWorld V2.initial h))
     + Options.ms (Options.delay (Options.spread V2.defaultOptions Options.empty))
     + Z.of_nat (length (default [] (Options.text
                   (Options.spread V2.defaultOptions Options.empty))))
       * Options.ms (Options.speed (Options.spread V2.defaultOptions Options.empty)))
    by (cbn; lia).
  split; [|split; [|split; [|split; [|split; [|split; [|split; [exact Hch|exact Hsh]]]]]]].
  all: subst w; unfold V2.initializeTypify; cbn [default from_option];
    destruct h as [sel dm sp nn tm nt nw co bad]; cbn [selectors timers] in *;
    subst tm; js; fields;
    change (Options.spread V2.defaultOptions Options.empty)
      with V2.defaultOptions;
    cbn [V2.defaultOptions Options.selector Options.text Options.speed
         Options.loop Options.cursor Options.cursorStyle Options.delay
         Options.animation Options.color Options.animationDuration
         Options.str Options.ms Options.truthy_bool default from_option id];
    rewrite Hsel, not_none_none; js; fields;
    rewrite ?detach_all_lookup, ?lookup_total_insert_eq, ?lookup_insert_eq;
    reflexivity.
Qed.

Lemma initializeTypify_defaults_witness :
  shown (content (at_time 20 2200
                    (exec (V2.initializeTypify None) fresh2)) 0)
  = lit "Hello, TurboChat!".
Proof.
  destruct (initializeTypify_defaults page 0 20)
    as (_ & _ & _ & _ & _ & _ & _ & H); [reflexivity|reflexivity|lia|].
  exact H.
Defined.

(** ** What a first [init] reveals *)

(** X23.  Take a configuration with speed and delay not negative and
    [loop] false, and call [init] on an animator that has no timer
    active and, if the cursor is disabled, no cursor handle left over (the
    animator as the page loads it, in particular).  If the selector finds
    the target [e], then [init] returns normally; after the start-delay
    callback and [k] ticks the children of [e] are the first [k] code
    units of the text, one text node each and in order, followed by the
    cursor span if the cursor is enabled; when the clock reaches
    [delay + length(text) * speed] after the call, the target shows exactly
    the text with the cursor span last, nothing more is due, and the
    animator is still initialized; one tick period later the ticker has
    cancelled itself, the timer table is empty and no callback can change
    anything any more.  [fuel] bounds the number of callbacks the clock may
    run; any bound of at least [length(text) + 3] gives this result. *)
Theorem init_reveals_text (w : World V2.Typify) (cfg : Options.t) (e fuel : nat) :
  selectors (host w) !! Options.str (Options.selector (init_config cfg)) = Some e ->
  Options.truthy_bool (Options.loop (init_config cfg)) = false ->
  0 <= init_speed cfg -> 0 <= init_delay cfg ->
  timers (host w) = [] ->
  (Options.truthy_bool (Options.cursor (init_config cfg)) = false ->
   V2.cursorElement (this w) = None) ->
  (length (init_text cfg) + 3 <= fuel)%nat ->
  let cur := init_cursor (init_config cfg) (host w) in
  let w1 := exec (V2.init cfg) w in
  returns (V2.init cfg) w = true
  /\ (forall k, (k <= length (init_text cfg))%nat ->
      content (fire_n V2.startTyping V2.tick (1 + k) w1) e
      = glyphs (take k (init_text cfg)) ++ cursor_part cur)
  /\ (let w2 := at_time fuel (reveal_time w cfg) w1 in
      content w2 e = glyphs (init_text cfg) ++ cursor_part cur
      /\ shown (content w2 e) = init_text cfg
      /\ V2.cursorElement (this w2) = cur
      /\ settled (reveal_time w cfg) w2
      /\ now (host w2) = reveal_time w cfg
      /\ V2.isInitialized (this w2) = true)
  /\ (let w3 := at_time fuel (reveal_time w cfg + init_speed cfg) w1 in
      content w3 e = glyphs (init_text cfg) ++ cursor_part cur
      /\ timers (host w3) = []
      /\ fire_next V2.startTyping V2.tick w3 = None
      /\ V2.isInitialized (this w3) = true).
Proof.
  intros Hsel Hloop Hsp Hdl Htm Hcur Hfuel.
  exact (reveal_after_init w cfg e fuel Hsel Hloop Hsp Hdl Htm Hcur Hfuel).
Qed.

Lemma init_reveals_text_witness :
  shown (content (at_time 5 20 (exec (V2.init hi_cfg) fresh2)) 0) = lit "Hi"
  /\ timers (host (at_time 5 30 (exec (V2.init hi_cfg) fresh2))) = [].
Proof.
  destruct (init_reveals_text fresh2 hi_cfg 0 5)
    as (_ & _ & (_ & H & _) & (_ & H' & _));
    [reflexivity|reflexivity|vm_compute; discriminate|vm_compute; discriminate
    |reflexivity|intros _; reflexivity|vm_compute; lia|].
  split; [exact H|exact H'].
Defined.

(** ** What [init] does on a target that exists *)

(** X2.  In every state, [init] with a selector that finds the element
    [e] returns; it stores the merged configuration, sets [element], [text],
    [currentIndex] = 0 and [isInitialized]; the target holds the new cursor
    span alone if the cursor is enabled and nothing otherwise; exactly one
    timeout, of the configured delay, is added after the timers that were
    active, none of which is cancelled; [typingInterval] keeps its value,
    and so does [cursorElement] when the cursor is disabled. *)
Theorem init_effect (w : World V2.Typify) (cfg : Options.t) (e : nat) :
  selectors (host w) !! Options.str (Options.selector (init_config cfg)) = Some e ->
  returns (V2.init cfg) w = true
  /\ V2.config (this (exec (V2.init cfg) w)) = init_config cfg
  /\ V2.isInitialized (this (exec (V2.init cfg) w)) = true
  /\ V2.element (this (exec (V2.init cfg) w)) = Some e
  /\ V2.text (this (exec (V2.init cfg) w)) = init_text cfg
  /\ V2.currentIndex (this (exec (V2.init cfg) w)) = 0%nat
  /\ V2.typingInterval (this (exec (V2.init cfg) w)) = V2.typingInterval (this w)
  /\ V2.cursorElement (this (exec (V2.init cfg) w))
     = (if Options.truthy_bool (Options.cursor (init_config cfg))
        then Some (nextNode (host w)) else V2.cursorElement (this w))
  /\ content (exec (V2.init cfg) w) e
     = (if Options.truthy_bool (Options.cursor (init_config cfg))
        then [Span (nextNode (host w))] else [])
  /\ timers (host (exec (V2.init cfg) w))
     = timers (host w)
       ++ [mkTimer (nextTimer (host w)) Timeout (init_delay cfg)
                   (now (host w) + Z.max 0 (init_delay cfg))]
  /\ now (host (exec (V2.init cfg) w)) = now (host w).
Proof.
  intros Hsel.
  destruct w as [[cfg0 ini ti ci tx el cu cls] [sel dm sp nn tm nt nw co bad]].
  unfold content, init_text, init_delay, init_config in *.
  set (c := Options.spread V2.defaultOptions cfg) in *.
  fields. js. fields. fold c. rewrite Hsel.
  destruct (bool_decide (Options.animation c ≠ Some anim_none)); js;
    rewrite ?animation_class_token; js;
    destruct (Options.animationDuration c) as [n|]; js;
    try destruct (0 <=? n); js.
  all: destruct (Options.truthy_bool (Options.cursor c)); js.
  all: fields.
  all: rewrite ?detach_all_lookup, ?lookup_total_insert_eq.
  all: cbn [children set_children set_classList set_style_color set_style_animationDuration classList style_color style_animationDuration].
  all: repeat split; try done.
Qed.

Lemma init_effect_witness :
  timers (host (exec (V2.init Options.empty) fresh2))
  = [mkTimer 0 Timeout 500 500]
  /\ content (exec (V2.init Options.empty) fresh2) 0 = [Span 0].
Proof.
  destruct (init_effect fresh2 Options.empty 0)
    as (_ & _ & _ & _ & _ & _ & _ & _ & H1 & H2 & _); [reflexivity|].
  split; [exact H2|exact H1].
Defined.

(** X3.  [init] with a selector that finds [e] sets the colour of [e] to
    the configured one and, if the cursor is enabled, makes a span of class
    [typify-cursor] showing [cursorStyle].  With an animation other than
    ['none'] it stores the class [typify-animation-<name>], adds it to the
    class list and applies a non-negative [animationDuration]; with
    ['none'] it leaves [animationClass], the class list and the duration as
    they were. *)
Theorem init_applies_style (w : World V2.Typify) (cfg : Options.t) (e : nat) :
  selectors (host w) !! Options.str (Options.selector (init_config cfg)) = Some e ->
  style_color (elem (host (exec (V2.init cfg) w)) e)
  = Options.str (Options.color (init_config cfg))
  /\ (Options.truthy_bool (Options.cursor (init_config cfg)) = true ->
      spans (host (exec (V2.init cfg) w)) !! nextNode (host w)
      = Some (mkSpan [lit "typify-cursor"]
                (Options.str (Options.cursorStyle (init_config cfg)))))
  /\ (Options.animation (init_config cfg) <> Some anim_none ->
      V2.animationClass (this (exec (V2.init cfg) w))
      = V2.animation_class (Options.animation (init_config cfg))
      /\ classList (elem (host (exec (V2.init cfg) w)) e)
         = Dom.add_token (V2.animation_class (Options.animation (init_config cfg)))
             (classList (elem (host w) e))
      /\ forall n, Options.animationDuration (init_config cfg) = Some n ->
           0 <= n ->
           style_animationDuration (elem (host (exec (V2.init cfg) w)) e)
           = Some n)
  /\ (Options.animation (init_config cfg) = Some anim_none ->
      V2.animationClass (this (exec (V2.init cfg) w))
      = V2.animationClass (this w)
      /\ classList (elem (host (exec (V2.init cfg) w)) e)
         = classList (elem (host w) e)
      /\ style_animationDuration (elem (host (exec (V2.init cfg) w)) e)
         = style_animationDuration (elem (host w) e)).
Proof.
  intros Hsel.
  destruct w as [[cfg0 ini ti ci tx el cu cls] [sel dm sp nn tm nt nw co bad]].
  unfold init_config in *.
  set (c := Options.spread V2.defaultOptions cfg) in *.
  fields. js. fields. fold c. rewrite Hsel.
  destruct (bool_decide (Options.animation c ≠ Some anim_none)) eqn:Ha; js;
    rewrite ?animation_class_token; js;
    destruct (Options.animationDuration c) as [n|]; js;
    try destruct (Z.leb_spec 0 n); js.
  all: destruct (Options.truthy_bool (Options.cursor c)); js.
  all: fields.
  all: rewrite ?detach_all_lookup, ?lookup_total_insert_eq.
  all: cbn [children set_children set_classList set_style_color set_style_animationDuration classList style_color style_animationDuration].
  all: rewrite ?lookup_insert_eq.
  all: try (apply bool_decide_eq_true in Ha).
  all: try (apply bool_decide_eq_false in Ha).
  all: repeat split; try done; try congruence; try (intros; congruence); try lia.
  all: try (intros ? [= <-] ?; lia).
  all: try (intros; exfalso; apply Ha; congruence).
Qed.

Lemma init_applies_style_witness :
  style_color (elem (host (exec (V2.init (opt_animation anim_fade)) fresh2)) 0)
  = lit "#e0e0e0"
  /\ V2.animationClass (this (exec (V2.init (opt_animation anim_fade)) fresh2))
     = lit "typify-animation-fade".
Proof.
  destruct (init_applies_style fresh2 (opt_animation anim_fade) 0)
    as (H1 & _ & H2 & _); [reflexivity|].
  split; [exact H1|]. apply H2. discriminate.
Defined.

(** X4.  [init] does not clear the cursor handle.  On an animator whose
    [cursorElement] is still set (after a [destroy], say), an [init] with
    the cursor disabled and a non-empty text returns and empties the
    target, but keeps the handle of a span that is no longer a child: the
    reveal tick then raises [NotFoundError] at [insertBefore] and changes
    nothing, so no character is ever revealed. *)
Theorem stale_cursor_blocks_reveal (w : World V2.Typify) (cfg : Options.t)
    (e i : nat) :
  selectors (host w) !! Options.str (Options.selector (init_config cfg)) = Some e ->
  V2.cursorElement (this w) = Some i ->
  Options.truthy_bool (Options.cursor (init_config cfg)) = false ->
  init_text cfg <> [] ->
  returns (V2.init cfg) w = true
  /\ V2.isInitialized (this (exec (V2.init cfg) w)) = true
  /\ V2.cursorElement (this (exec (V2.init cfg) w)) = Some i
  /\ content (exec (V2.init cfg) w) e = []
  /\ fst (V2.tick (exec (V2.init cfg) w)) = Throw NotFoundError
  /\ exec V2.tick (exec (V2.init cfg) w) = exec (V2.init cfg) w.
Proof.
  intros Hsel Hcu Hcur Htx.
  destruct w as [[cfg0 ini ti ci tx el cu cls] [sel dm sp nn tm nt nw co bad]].
  unfold content, init_text, init_config in *.
  set (c := Options.spread V2.defaultOptions cfg) in *.
  fields. subst cu. js. fields. fold c. rewrite Hsel.
  destruct (default [] (Options.text c)) as [|u t] eqn:Ht; [done|].
  destruct (bool_decide (Options.animation c ≠ Some anim_none)); js;
    rewrite ?animation_class_token; js;
    destruct (Options.animationDuration c) as [n|]; js;
    try destruct (0 <=? n); js.
  all: rewrite Hcur; js; rewrite ?Ht; cbn [length];
    rewrite ?bool_decide_true by lia; js; fields;
    rewrite ?lookup_total_insert_eq;
    cbn [children set_children set_classList set_style_color
         set_style_animationDuration];
    rewrite ?decide_False by apply not_elem_of_nil;
    repeat split.
Qed.

Lemma stale_cursor_blocks_reveal_witness :
  fst (V2.tick (exec (V2.init (opt_cursor false)) destroyed_session))
  = Throw NotFoundError
  /\ content (exec (V2.init (opt_cursor false)) destroyed_session) 0 = [].
Proof.
  destruct (stale_cursor_blocks_reveal destroyed_session (opt_cursor false) 0 0)
    as (_ & _ & _ & H1 & H2 & _);
    [reflexivity|reflexivity|reflexivity|discriminate|].
  split; [exact H2|exact H1].
Defined.

(** ** [init] without a target *)

(** X24.  When the selector of the merged configuration is a valid
    selector that matches no element and the animator is not initialized,
    [init] returns without raising, writes the error to the console, and
    skips every other step: the animator is left not initialized, no timer
    is armed, and elements and spans are untouched; any sequence of
    [updateConfig] and [destroy] calls that follows changes nothing. *)
Theorem init_target_not_found (w : World V2.Typify) (cfg : Options.t) :
  selectors (host w) !! Options.str (Options.selector (init_config cfg)) = None ->
  invalid_selector (host w) (Options.str (Options.selector (init_config cfg)))
  = false ->
  V2.isInitialized (this w) = false ->
  let w' := exec (V2.init cfg) w in
  returns (V2.init cfg) w = true
  /\ console (host w')
     = console (host w)
       ++ [V2.not_found_message (Options.str (Options.selector (init_config cfg)))]
  /\ V2.isInitialized (this w') = false
  /\ timers (host w') = timers (host w)
  /\ dom (host w') = dom (host w)
  /\ spans (host w') = spans (host w)
  /\ forall l, forallb is_update_or_destroy l = true -> V2.run l w' = w'.
Proof.
  intros Hsel Hok Hini w'.
  destruct (init_not_found_effect w cfg Hsel Hok)
    as (H1 & H2 & H3 & H4 & H5 & H6 & H7).
  repeat split; try assumption.
  - unfold w'. rewrite H3. exact Hini.
  - intros l Hl. exact (H7 Hini l Hl).
Qed.

Lemma init_target_not_found_witness :
  V2.isInitialized (this (exec (V2.init missing_cfg) fresh2)) = false
  /\ timers (host (exec (V2.init missing_cfg) fresh2)) = []
  /\ V2.run [UpdateConfig (opt_text (lit "x")); Destroy]
            (exec (V2.init missing_cfg) fresh2)
     = exec (V2.init missing_cfg) fresh2.
Proof.
  destruct (init_target_not_found fresh2 missing_cfg)
    as (_ & _ & Hi & Ht & _ & _ & Hn); [reflexivity|reflexivity|reflexivity|].
  split; [exact Hi|]. split; [exact Ht|].
  apply Hn. reflexivity.
Defined.

(** X26.  When the selector of the merged configuration is no selector
    at all, [querySelector] raises and [init] with it: the call raises
    [SyntaxError] after it has stored the merged configuration, and changes
    nothing else.  [element] keeps the value it had, nothing is written to
    the console, no timer is armed, and [isInitialized] is what it was. *)
Theorem init_invalid_selector_raises (w : World V2.Typify) (cfg : Options.t) :
  selectors (host w) !! Options.str (Options.selector (init_config cfg)) = None ->
  invalid_selector (host w) (Options.str (Options.selector (init_config cfg)))
  = true ->
  let w' := exec (V2.init cfg) w in
  fst (V2.init cfg w) = Throw SyntaxError
  /\ V2.config (this w') = init_config cfg
  /\ V2.element (this w') = V2.element (this w)
  /\ V2.isInitialized (this w') = V2.isInitialized (this w)
  /\ V2.typingInterval (this w') = V2.typingInterval (this w)
  /\ V2.currentIndex (this w') = V2.currentIndex (this w)
  /\ V2.text (this w') = V2.text (this w)
  /\ V2.cursorElement (this w') = V2.cursorElement (this w)
  /\ V2.animationClass (this w') = V2.animationClass (this w)
  /\ host w' = host w.
Proof.
  intros Hsel Hbad w'. subst w'.
  destruct w as [[cfg0 ini ti ci tx el cu cls] h]. unfold init_config in *.
  cbn [host] in Hsel, Hbad.
  js. rewrite Hsel, Hbad. by repeat split.
Qed.

Lemma init_invalid_selector_raises_witness :
  fst (V2.init invalid_cfg mid_reveal) = Throw SyntaxError
  /\ V2.element (this (exec (V2.init invalid_cfg) mid_reveal)) = Some 0%nat
  /\ host (exec (V2.init invalid_cfg) mid_reveal) = host mid_reveal.
Proof.
  destruct (init_invalid_selector_raises mid_reveal invalid_cfg)
    as (H1 & _ & H2 & _ & _ & _ & _ & _ & _ & H3); [reflexivity|reflexivity|].
  split; [exact H1|]. split; [exact H2|exact H3].
Defined.

(** ** [init] on an animator that is initialized *)

(** X5.  An [init] whose selector is a valid selector that matches no
    element, made on an animator that is initialized, leaves it initialized
    with [element] = null and the timers as they were.  From then on
    [destroy] raises [TypeError] without clearing [isInitialized], a reveal
    tick raises [TypeError] and changes nothing if [currentIndex] was below
    the length of the text before the [init], and an [updateConfig] with a
    non-empty text other than the text before the [init] raises
    [TypeError]. *)
Theorem failed_init_leaves_no_target (w : World V2.Typify) (cfg : Options.t) :
  V2.isInitialized (this w) = true ->
  selectors (host w) !! Options.str (Options.selector (init_config cfg)) = None ->
  invalid_selector (host w) (Options.str (Options.selector (init_config cfg)))
  = false ->
  let w' := exec (V2.init cfg) w in
  V2.isInitialized (this w') = true
  /\ V2.element (this w') = None
  /\ timers (host w') = timers (host w)
  /\ fst (V2.destroy w') = Throw TypeError
  /\ V2.isInitialized (this (exec V2.destroy w')) = true
  /\ ((V2.currentIndex (this w) < length (V2.text (this w)))%nat ->
      fst (V2.tick w') = Throw TypeError /\ exec V2.tick w' = w')
  /\ (forall nc t', Options.text nc = Some t' -> t' <> [] ->
        t' <> V2.text (this w) ->
        fst (V2.updateConfig nc w') = Throw TypeError).
Proof.
  intros Hini Hsel Hok w'.
  assert (w' = mkWorld (V2.set_element None
                          (V2.set_config (init_config cfg) (this w)))
                 (set_console (fun l => l ++ [V2.not_found_message
                    (Options.str (Options.selector (init_config cfg)))])
                    (host w))) as ->.
  { subst w'. destruct w as [o h]. unfold init_config in *.
    change (selectors h !! Options.str (Options.selector
              (Options.spread V2.defaultOptions cfg)) = None) in Hsel.
    change (invalid_selector h (Options.str (Options.selector
              (Options.spread V2.defaultOptions cfg))) = false) in Hok.
    js. rewrite Hsel, Hok. reflexivity. }
  clear Hok.
  destruct w as [[cfg0 ini ti ci tx el cu cls] h].
  cbn [this V2.isInitialized V2.currentIndex V2.text host] in *. subst ini.
  repeat split.
  - by destruct ti.
  - by destruct ti.
  - js. rewrite bool_decide_true by done. reflexivity.
  - js. rewrite bool_decide_true by done. reflexivity.
  - intros nc t' Ht Hne Hch. js. rewrite Ht.
    destruct t' as [|u t']; [done|]. cbn [Options.truthy_str]. js.
    rewrite bool_decide_true by congruence. reflexivity.
Qed.

Lemma failed_init_leaves_no_target_witness :
  V2.isInitialized (this (exec (V2.init missing_cfg) default_session2)) = true
  /\ fst (V2.destroy (exec (V2.init missing_cfg) default_session2))
     = Throw TypeError.
Proof.
  destruct (failed_init_leaves_no_target default_session2 missing_cfg)
    as (H1 & _ & _ & H2 & _); [reflexivity|reflexivity|reflexivity|].
  split; [exact H1|exact H2].
Defined.

(** ** The looping session *)

#[local] Instance steady_trans : Transitive steady.
Proof. intros a b c (?&?&?) (?&?&?). repeat split; try congruence. lia. Qed.

#[local] Instance steady_refl : Reflexive steady.
Proof. intros a. by repeat split. Qed.

Ltac steady_leaf :=
  unfold steady; fields; repeat split; try reflexivity; try lia.

Lemma startTyping_steady : frame steady V2.startTyping.
Proof. intros [[cfg ini ti ci tx el cu cls] h]. destruct h. crush; steady_leaf. Qed.

Lemma tick_steady : frame steady V2.tick.
Proof. intros [[cfg ini ti ci tx el cu cls] h]. destruct h. crush; steady_leaf. Qed.

Lemma nextTimer_rearm i h : nextTimer (rearm i h) = nextTimer h.
Proof. unfold rearm. destruct (find _ _); by destruct h. Qed.

Lemma fire_steady tm w : steady w (fire V2.startTyping V2.tick tm w).
Proof.
  unfold fire. destruct (kind tm).
  - etransitivity; [|apply startTyping_steady].
    destruct w as [? []]. steady_leaf.
  - set (w1 := on_host _ w).
    assert (steady w w1) as H1 by (subst w1; destruct w as [? []]; steady_leaf).
    pose proof (tick_steady w1) as H2.
    etransitivity; [exact H1|]. etransitivity; [exact H2|].
    destruct (exec V2.tick _) as [o h]. unfold steady, on_host. cbn [this host].
    rewrite nextTimer_rearm. by repeat split.
Qed.

Lemma fire_n_steady n w : steady w (fire_n V2.startTyping V2.tick n w).
Proof.
  revert w. induction n as [|n IH]; intros w; [reflexivity|].
  cbn [fire_n]. unfold fire_next.
  destruct (next_timer _) as [tm|]; [|reflexivity].
  etransitivity; [apply fire_steady|apply IH].
Qed.

Lemma fire_n_add {T} (oT oI : M (World T) unit) a b (w : World T) :
  fire_n oT oI (a + b) w = fire_n oT oI b (fire_n oT oI a w).
Proof.
  revert w. induction a as [|a IH]; intros w; [reflexivity|].
  cbn [Nat.add fire_n]. destruct (fire_next oT oI w) as [w'|] eqn:Hf; [apply IH|].
  destruct b; [reflexivity|]. cbn [fire_n]. by rewrite Hf.
Qed.

(** The last tick of a pass when [loop] is on: the ticker is cancelled, the
    target is reset to the cursor alone, and a start delay is armed. *)
Lemma tick_loops e cur c t id w :
  typing e cur c t (length t) w ->
  Options.truthy_bool (Options.loop c) = true ->
  V2.typingInterval (this w) = Some id ->
  (Options.animation c = Some anim_none
   \/ Dom.token_error (V2.animationClass (this w)) = None) ->
  (Options.truthy_bool (Options.cursor c) = true -> cur <> None) ->
  (Options.truthy_bool (Options.cursor c) = false -> cur = None) ->
  exists w', V2.tick w = (Val tt, w')
    /\ typing e cur c t 0 w'
    /\ V2.typingInterval (this w') = Some id
    /\ timers (host w')
       = filter (fun t => tid t ≠ id) (timers (host w))
         ++ [mkTimer (nextTimer (host w)) Timeout (Options.ms (Options.delay c))
               (now (host w) + Z.max 0 (Options.ms (Options.delay c)))]
    /\ now (host w') = now (host w).
Proof.
  destruct w as [[cfg ini ti ci tx el cu cls] [sel dm sp nn tm nt nw co bad]].
  intros (Hc & Ht & Hk & He & Hcu & Hch) Hloop Hti Hanim Hon Hoff.
  cbv [this host V2.config V2.text V2.currentIndex V2.element
       V2.cursorElement V2.typingInterval V2.animationClass] in *.
  subst cfg tx ci el cu ti. unfold typing.
  js. rewrite bool_decide_false by lia. js. rewrite Hloop. js.
  destruct (bool_decide (Options.animation c ≠ Some anim_none)) eqn:Ha; js.
  - destruct Hanim as [Hanim|Hanim];
      [by rewrite Hanim, bool_decide_false in Ha by (intros ?; done)|].
    rewrite Hanim. js.
    destruct (Options.truthy_bool (Options.cursor c)) eqn:Hcur; js.
    + destruct cur as [i|]; [|by destruct Hon]. js.
      eexists. split; [reflexivity|]. fields.
      rewrite ?lookup_total_insert_eq, ?detach_all_lookup, ?lookup_total_insert_eq.
      repeat split.
    + rewrite Hoff by done.
      eexists. split; [reflexivity|]. fields.
      rewrite ?lookup_total_insert_eq. repeat split.
  - destruct (Options.truthy_bool (Options.cursor c)) eqn:Hcur; js.
    + destruct cur as [i|]; [|by destruct Hon]. js.
      eexists. split; [reflexivity|]. fields.
      rewrite ?lookup_total_insert_eq, ?detach_all_lookup, ?lookup_total_insert_eq.
      repeat split.
    + rewrite Hoff by done.
      eexists. split; [reflexivity|]. fields.
      rewrite ?lookup_total_insert_eq. repeat split.
Qed.

Lemma rearm_other i (h : Host) :
  (forall t, t ∈ timers h -> tid t <> i) -> rearm i h = h.
Proof.
  intros H. unfold rearm.
  destruct (find _ _) as [t|] eqn:Hf; [|done].
  apply find_tid_elem in Hf as [Hin Hi]. by destruct (H t Hin).
Qed.

(** The start of a pass, with the handle the ticker gets. *)
Lemma reveal_start_fresh e cur c t d w :
  0 <= Options.ms (Options.speed c) ->
  armed e cur c t d w ->
  exists w' id, fire_next V2.startTyping V2.tick w = Some w'
                /\ revealing e cur c t id d 0 w'
                /\ (id < nextTimer (host w'))%nat.
Proof.
  intros Hsp (Hty & (i & p & Htm) & Hnow).
  rewrite (fire_next_single _ _ _ _ Htm), fire_timeout by done.
  unfold exec. rewrite startTyping_arms. cbn [snd].
  eexists. exists (nextTimer (host w)). split; [reflexivity|].
  destruct Hty as (Hc & Ht & Hk & He & Hcu & Hch).
  destruct w as [[cfg ini ti ci tx el cu cls] [sel dm sp nn tm nt nw co bad]].
  unfold revealing, typing, ticker in *. fields. subst.
  rewrite filter_drop_single.
  repeat split; try done; try lia.
  cbn. do 2 f_equal. lia.
Qed.

(** The end of a pass when [loop] is on: back to the start delay. *)
Lemma loop_restart e cur c t id t0 w :
  0 <= Options.ms (Options.speed c) -> 0 <= Options.ms (Options.delay c) ->
  Options.truthy_bool (Options.loop c) = true ->
  (Options.animation c = Some anim_none
   \/ Dom.token_error (V2.animationClass (this w)) = None) ->
  (Options.truthy_bool (Options.cursor c) = true -> cur <> None) ->
  (Options.truthy_bool (Options.cursor c) = false -> cur = None) ->
  revealing e cur c t id t0 (length t) w ->
  (id < nextTimer (host w))%nat ->
  exists w', fire_next V2.startTyping V2.tick w = Some w'
    /\ armed e cur c t
         (t0 + (Z.of_nat (length t) + 1) * Options.ms (Options.speed c)
          + Options.ms (Options.delay c)) w'
    /\ now (host w')
       = t0 + (Z.of_nat (length t) + 1) * Options.ms (Options.speed c).
Proof.
  intros Hsp Hdl Hloop Hanim Hon Hoff (Hty & Hti & Htm & Hnow) Hlt.
  rewrite (fire_next_single _ _ _ _ Htm), fire_interval by done.
  set (w1 := on_host _ w).
  assert (typing e cur c t (length t) w1) as Hty1
    by (apply typing_on_host; [intros; apply dom_set_now|done]).
  destruct (tick_loops e cur c t id w1 Hty1 Hloop) as (w2 & Hrun & Hty2 & Hti2 & Htm2 & Hnow2);
    try done; try (by destruct w as [[] []]).
  unfold exec. rewrite Hrun. cbn [snd].
  eexists. split; [reflexivity|].
  assert (timers (host w1) = timers (host w)) as Htm1 by (by destruct w as [? []]).
  assert (nextTimer (host w1) = nextTimer (host w)) as Hnt1 by (by destruct w as [? []]).
  assert (now (host w1)
          = t0 + (Z.of_nat (length t) + 1) * Options.ms (Options.speed c))
    as Hnow1.
  { subst w1. destruct w as [? []]. cbn in *. subst. cbn. nia. }
  rewrite Htm1, Htm, Hnt1 in Htm2. unfold ticker in Htm2.
  rewrite filter_drop_single in Htm2. cbn [app] in Htm2.
  rewrite Hnow1 in Hnow2. rewrite Hnow1 in Htm2.
  cbn [ticker tid].
  assert (on_host (rearm id) w2 = w2) as ->.
  { unfold on_host. rewrite rearm_other; [by destruct w2|].
    intros tm. rewrite Htm2. intros ->%list_elem_of_singleton. cbn. lia. }
  split; [|exact Hnow2].
  split; [exact Hty2|]. split.
  - do 2 eexists. rewrite Htm2. do 2 f_equal. lia.
  - rewrite Hnow2. lia.
Qed.

Section Loop.
Variables (e : nat) (cur : option nat) (c : Options.t) (t : jsstring).
Hypothesis Hsp : 0 <= Options.ms (Options.speed c).
Hypothesis Hdl : 0 <= Options.ms (Options.delay c).
Hypothesis Hloop : Options.truthy_bool (Options.loop c) = true.
Hypothesis Hon : Options.truthy_bool (Options.cursor c) = true -> cur <> None.
Hypothesis Hoff : Options.truthy_bool (Options.cursor c) = false -> cur = None.

Lemma class_ok_steady w w' : steady w w' -> class_ok c w -> class_ok c w'.
Proof. intros (_ & Hcls & _) [H|H]; [by left|right]. by rewrite Hcls. Qed.

Lemma loop_pass d w k :
  armed e cur c t d w -> (k <= length t)%nat ->
  exists id, revealing e cur c t id d k (fire_n V2.startTyping V2.tick (1 + k) w)
    /\ (id < nextTimer (host (fire_n V2.startTyping V2.tick (1 + k) w)))%nat.
Proof.
  intros Harm Hk.
  destruct (reveal_start_fresh _ _ _ _ _ _ Hsp Harm) as (w1 & id & Hf & Hrev & Hlt).
  exists id. cbn [Nat.add fire_n]. rewrite Hf.
  destruct (reveal_ticks _ _ _ _ _ _ 0 k w1 Hsp Hrev) as [Hrev' _]; [lia|].
  split; [exact Hrev'|].
  destruct (fire_n_steady k w1) as (_ & _ & Hnt). lia.
Qed.

Lemma loop_round d w :
  armed e cur c t d w -> class_ok c w ->
  armed e cur c t (d + round_time c t)
    (fire_n V2.startTyping V2.tick (length t + 2) w).
Proof.
  intros Harm Hcls.
  destruct (loop_pass d w (length t) Harm) as (id & Hrev & Hlt); [lia|].
  replace (length t + 2)%nat with ((1 + length t) + 1)%nat by lia.
  rewrite fire_n_add.
  set (w2 := fire_n _ _ (1 + length t) w) in *.
  assert (class_ok c w2) as Hcls2
    by (eapply class_ok_steady; [apply fire_n_steady|exact Hcls]).
  destruct (loop_restart _ _ _ _ _ _ _ Hsp Hdl Hloop Hcls2 Hon Hoff Hrev Hlt)
    as (w3 & Hf & Harm3 & _).
  cbn [fire_n]. rewrite Hf.
  unfold round_time.
  replace (d + (Options.ms (Options.delay c)
                + (Z.of_nat (length t) + 1) * Options.ms (Options.speed c)))
    with (d + (Z.of_nat (length t) + 1) * Options.ms (Options.speed c)
          + Options.ms (Options.delay c)) by lia.
  exact Harm3.
Qed.

Lemma loop_rounds n d w :
  armed e cur c t d w -> class_ok c w ->
  armed e cur c t (d + Z.of_nat n * round_time c t)
    (fire_n V2.startTyping V2.tick (n * (length t + 2)) w).
Proof.
  revert d w. induction n as [|n IH]; intros d w Harm Hcls.
  - cbn [Nat.mul fire_n]. by replace (d + Z.of_nat 0 * round_time c t) with d by lia.
  - cbn [Nat.mul]. rewrite fire_n_add.
    replace (d + Z.of_nat (S n) * round_time c t)
      with (d + round_time c t + Z.of_nat n * round_time c t) by lia.
    apply IH; [by apply loop_round|].
    eapply class_ok_steady; [apply fire_n_steady|exact Hcls].
Qed.

End Loop.

Lemma init_class_ok (w : World V2.Typify) (cfg : Options.t) (e : nat) :
  selectors (host w) !! Options.str (Options.selector (init_config cfg)) = Some e ->
  class_ok (init_config cfg) (exec (V2.init cfg) w).
Proof.
  intros Hsel. unfold class_ok.
  destruct (decide (Options.animation (init_config cfg) = Some anim_none))
    as [Ha|Ha]; [by left|right].
  destruct w as [[cfg0 ini ti ci tx el cu cls] [sel dm sp nn tm nt nw co bad]].
  unfold init_config in *.
  set (c := Options.spread V2.defaultOptions cfg) in *.
  fields. js. fields. fold c. rewrite Hsel.
  rewrite bool_decide_true by done. js.
  rewrite animation_class_token. js.
  repeat (split_match; js); apply animation_class_token.
Qed.

(** X6.  With [loop] on, speed and delay non-negative, on an animator
    with no timer pending (and no stale cursor handle when the cursor is
    off), the reveal repeats for ever.  One round is [length + 2] callbacks
    and takes [delay + (length + 1) * speed]: the start timeout, one tick per
    code unit, and the tick that resets the target and arms the next start
    timeout.  After [n] rounds, the start timeout and [k <= length] ticks,
    the target holds the first [k] units before the cursor, the clock is at
    [delay + n * round + k * speed] after the call, and the ticker is the
    only timer. *)
Theorem loop_repeats_reveal (w : World V2.Typify) (cfg : Options.t)
    (e n k : nat) :
  selectors (host w) !! Options.str (Options.selector (init_config cfg)) = Some e ->
  Options.truthy_bool (Options.loop (init_config cfg)) = true ->
  0 <= init_speed cfg -> 0 <= init_delay cfg ->
  timers (host w) = [] ->
  (Options.truthy_bool (Options.cursor (init_config cfg)) = false ->
   V2.cursorElement (this w) = None) ->
  (k <= length (init_text cfg))%nat ->
  let round := init_delay cfg
               + (Z.of_nat (length (init_text cfg)) + 1) * init_speed cfg in
  let w' := fire_n V2.startTyping V2.tick
              (n * (length (init_text cfg) + 2) + (1 + k))
              (exec (V2.init cfg) w) in
  content w' e
  = glyphs (take k (init_text cfg))
    ++ cursor_part (init_cursor (init_config cfg) (host w))
  /\ now (host w')
     = now (host w) + init_delay cfg + Z.of_nat n * round
       + Z.of_nat k * init_speed cfg
  /\ (exists id, timers (host w')
        = [ticker id (init_config cfg)
             (now (host w') + init_speed cfg)])
  /\ V2.isInitialized (this w') = true.
Proof.
  intros Hsel Hloop Hsp Hdl Htm Hcur Hk round w'.
  destruct (init_arms w cfg e Hsel Htm Hcur Hdl) as (w1 & Hrun & Harm & Hini).
  pose proof (init_class_ok w cfg e Hsel) as Hcls.
  assert (exec (V2.init cfg) w = w1) as Hw1 by (unfold exec; by rewrite Hrun).
  subst w'. rewrite Hw1 in *.
  assert (Options.truthy_bool (Options.cursor (init_config cfg)) = true ->
          init_cursor (init_config cfg) (host w) <> None) as Hon.
  { unfold init_cursor. by intros ->. }
  assert (Options.truthy_bool (Options.cursor (init_config cfg)) = false ->
          init_cursor (init_config cfg) (host w) = None) as Hoff.
  { unfold init_cursor. by intros ->. }
  pose proof (loop_rounds e _ (init_config cfg) (init_text cfg)
                Hsp Hdl Hloop Hon Hoff n _ w1 Harm Hcls) as Harm'.
  rewrite fire_n_add.
  set (w2 := fire_n _ _ (n * _) w1) in *.
  destruct (loop_pass e _ (init_config cfg) (init_text cfg) Hsp _ w2 k Harm' Hk)
    as (id & ((Hc & Ht & Hi & He & Hcu & Hch) & Hti & Htms & Hnow) & _).
  destruct (fire_n_steady (n * (length (init_text cfg) + 2) + (1 + k)) w1)
    as (Hini' & _).
  rewrite fire_n_add in Hini'. fold w2 in Hini'.
  unfold content. split; [exact Hch|].
  split; [rewrite Hnow; unfold round_time, round, init_delay, init_speed,
             init_text, init_config; lia|].
  split; [|congruence].
  exists id. rewrite Htms, Hnow. unfold ticker, init_speed. do 2 f_equal.
  unfold init_config. lia.
Qed.

Lemma loop_repeats_reveal_witness :
  content (fire_n V2.startTyping V2.tick 6 (exec (V2.init hi_loop_cfg) fresh2)) 0
  = [Text (lit "H")]
  /\ now (host (fire_n V2.startTyping V2.tick 6
                  (exec (V2.init hi_loop_cfg) fresh2))) = 50.
Proof.
  destruct (loop_repeats_reveal fresh2 hi_loop_cfg 0 1 1)
    as (H1 & H2 & _);
    [reflexivity|reflexivity|vm_compute; discriminate|vm_compute; discriminate
    |reflexivity|intros _; reflexivity|vm_compute; lia|].
  split; [exact H1|exact H2].
Defined.

(** ** [resetTyping] and the animation class *)

(** X7.  [resetTyping] on a resolved target, with an animation other
    than ['none'], a valid class in [animationClass] and a cursor handle
    when the cursor is enabled: it returns, takes the class off the class
    list and puts it back (so it ends up last), sets [currentIndex] to 0,
    leaves the cursor span, if enabled, as the only child, and touches no
    timer. *)
Theorem resetTyping_readds_class (w : World V2.Typify) (e : nat) :
  V2.element (this w) = Some e ->
  Options.animation (V2.config (this w)) <> Some anim_none ->
  Dom.token_error (V2.animationClass (this w)) = None ->
  (Options.truthy_bool (Options.cursor (V2.config (this w))) = true ->
   V2.cursorElement (this w) <> None) ->
  returns V2.resetTyping w = true
  /\ classList (elem (host (exec V2.resetTyping w)) e)
     = Dom.remove_token (V2.animationClass (this w))
         (classList (elem (host w) e)) ++ [V2.animationClass (this w)]
  /\ V2.currentIndex (this (exec V2.resetTyping w)) = 0%nat
  /\ content (exec V2.resetTyping w) e
     = (if Options.truthy_bool (Options.cursor (V2.config (this w)))
        then cursor_part (V2.cursorElement (this w)) else [])
  /\ timers (host (exec V2.resetTyping w)) = timers (host w).
Proof.
  destruct w as [[cfg ini ti ci tx el cu cls] [sel dm sp nn tm nt nw co bad]].
  unfold content. fields. intros -> Ha Htok Hcur.
  js. rewrite bool_decide_true by done. js. rewrite Htok. js.
  assert (Dom.add_token cls (Dom.remove_token cls (classList (dm !!! e)))
          = Dom.remove_token cls (classList (dm !!! e)) ++ [cls]) as Hadd.
  { unfold Dom.add_token, Dom.remove_token. rewrite decide_False; [done|].
    intros [Hne _]%list_elem_of_filter. by apply Hne. }
  destruct (Options.truthy_bool (Options.cursor cfg)); js.
  - destruct cu as [i|]; [|by destruct Hcur]. js. fields.
    rewrite ?lookup_total_insert_eq, ?detach_all_lookup, ?lookup_total_insert_eq.
    cbn [children classList set_children set_classList Dom.detach].
    rewrite Hadd. repeat split.
  - fields. rewrite ?lookup_total_insert_eq.
    cbn [children classList set_children set_classList].
    rewrite Hadd. repeat split.
Qed.

Lemma resetTyping_readds_class_witness :
  classList (elem (host (exec V2.resetTyping fade_session)) 0)
  = [lit "typify-animation-fade"]
  /\ content (exec V2.resetTyping fade_session) 0 = [Span 0].
Proof.
  destruct (resetTyping_readds_class fade_session 0)
    as (_ & H1 & _ & H2 & _);
    [reflexivity|discriminate|reflexivity|intros _; discriminate|].
  split; [exact H1|exact H2].
Defined.

(** ** What the target shows, between [init] and [destroy] *)

#[local] Instance keeps_reveal_trans : Transitive keeps_reveal.
Proof. intros a b c H1 H2 H. apply H2, H1, H. Qed.

#[local] Instance keeps_reveal_refl : Reflexive keeps_reveal.
Proof. by intros w H. Qed.

Ltac rc_leaf :=
  unfold reveal_consistent, content, cursor_tail;
  cbn [this host V2.element V2.cursorElement V2.currentIndex V2.text];
  let e' := fresh "e" in let He' := fresh "He" in
  intros e' He'; try discriminate; try (injection He' as <-);
  fields;
  rewrite ?lookup_total_insert_eq, ?detach_all_lookup, ?lookup_total_insert_eq;
  cbn [children set_children set_classList set_style_color
       set_style_animationDuration take glyphs fmap list_fmap app];
  eauto 6.

Lemma resetTyping_consistent (w : World V2.Typify) :
  reveal_consistent (exec V2.resetTyping w).
Proof.
  destruct w as [[cfg ini ti ci tx el cu cls] [sel dm sp nn tm nt nw co bad]].
  crush; rc_leaf.
Qed.

Lemma resetTyping_keeps_reveal : frame keeps_reveal V2.resetTyping.
Proof. intros w _. apply resetTyping_consistent. Qed.

(** [init] raises only where [querySelector] does, with the merged
    configuration stored and nothing else changed. *)
Lemma init_raises cfg (w : World V2.Typify) :
  returns (V2.init cfg) w = false ->
  fst (V2.init cfg w) = Throw SyntaxError
  /\ exec (V2.init cfg) w
     = mkWorld (V2.set_config (init_config cfg) (this w)) (host w).
Proof.
  destruct w as [[cfg0 ini ti ci tx el cu cls] [sel dm sp nn tm nt nw co bad]].
  unfold init_config.
  crush; intros Hr; try discriminate Hr.
  all: try (split; reflexivity).
  all: match goal with
       | H : Dom.token_error (V2.animation_class _) = Some _ |- _ =>
           by rewrite animation_class_token in H
       end.
Qed.

Lemma init_consistent cfg (w : World V2.Typify) :
  returns (V2.init cfg) w = true -> reveal_consistent (exec (V2.init cfg) w).
Proof.
  destruct w as [[cfg0 ini ti ci tx el cu cls] [sel dm sp nn tm nt nw co bad]].
  crush; intros Hr; try discriminate Hr; rc_leaf.
Qed.

Lemma init_keeps_reveal cfg : frame keeps_reveal (V2.init cfg).
Proof.
  intros w Hw. destruct (returns (V2.init cfg) w) eqn:Hr;
    [by apply init_consistent|].
  destruct (init_raises cfg w Hr) as [_ ->]. exact Hw.
Qed.

(** *** Frames of the primitives *)

Lemma call_childless {A} (m : M Host A) :
  childless m -> frame keeps_reveal (call m).
Proof.
  intros Hm [o h] Hw e He. unfold exec, call in *. cbn [this host] in *.
  specialize (Hm h). destruct (m h) as [r h']. cbn [snd this host] in *.
  destruct (Hw e He) as (tail & Hch & Htail). exists tail.
  unfold content in *. cbn [this host] in *. by rewrite Hm.
Qed.

Lemma self_keeps_reveal f :
  (forall o, V2.element (f o) = V2.element o
             /\ V2.cursorElement (f o) = V2.cursorElement o
             /\ V2.currentIndex (f o) = V2.currentIndex o
             /\ V2.text (f o) = V2.text o) ->
  frame keeps_reveal (self f).
Proof.
  intros Hf [o h] Hw e He. unfold exec, self, modify in *.
  cbn [snd this host] in *. destruct (Hf o) as (H1 & H2 & H3 & H4).
  rewrite H1 in He. destruct (Hw e He) as (tail & Hch & Htail).
  exists tail. unfold content, cursor_tail in *. cbn [this host] in *.
  by rewrite H2, H3, H4.
Qed.

Ltac childless_tac :=
  intros h e'; destruct h; js; repeat (split_match; js); fields;
  repeat match goal with
  | |- context [<[?a := _]> _ !!! ?b] =>
      destruct (decide (a = b)) as [->|?];
      [rewrite lookup_total_insert_eq|rewrite lookup_total_insert_ne by done]
  end; reflexivity.

Lemma childless_querySelector sel : childless (Dom.querySelector sel).
Proof. childless_tac. Qed.
Lemma childless_set_color e c : childless (Dom.set_color e c).
Proof. childless_tac. Qed.
Lemma childless_set_animationDuration e d : childless (Dom.set_animationDuration e d).
Proof. childless_tac. Qed.
Lemma childless_classList_add e tok : childless (Dom.classList_add e tok).
Proof. childless_tac. Qed.
Lemma childless_classList_remove e tok : childless (Dom.classList_remove e tok).
Proof. childless_tac. Qed.
Lemma childless_createCursorSpan g : childless (Dom.createCursorSpan g).
Proof. childless_tac. Qed.
Lemma childless_set_textContent i g : childless (Dom.set_textContent i g).
Proof. childless_tac. Qed.
Lemma childless_console_error msg : childless (Dom.console_error msg).
Proof. childless_tac. Qed.
Lemma childless_arm k d : childless (Dom.arm k d).
Proof. childless_tac. Qed.
Lemma childless_clearInterval ti : childless (Dom.clearInterval ti).
Proof. childless_tac. Qed.

Create HintDb childless.
#[local] Hint Resolve childless_querySelector childless_set_color
  childless_set_animationDuration childless_classList_add
  childless_classList_remove childless_createCursorSpan
  childless_set_textContent childless_console_error childless_arm
  childless_clearInterval : childless.

Create HintDb reveal.

Ltac reveal_step :=
  first
    [ solve [auto with reveal]
    | apply frame_bind; [apply _ | | intros ?]
    | apply frame_ret; apply _
    | apply frame_throw; apply _
    | apply frame_read; apply _
    | apply frame_deref; apply _
    | apply frame_when; [apply _|]
    | apply self_keeps_reveal; intros []; repeat split; reflexivity
    | apply call_childless; solve [auto with childless]
    | apply call_childless; apply childless_arm
    | match goal with
      | |- frame _ (match ?x with _ => _ end) => destruct x
      end ].

#[local] Hint Resolve resetTyping_keeps_reveal : reveal.

Lemma startTyping_keeps_reveal : frame keeps_reveal V2.startTyping.
Proof. unfold V2.startTyping. repeat reveal_step. Qed.
#[local] Hint Resolve startTyping_keeps_reveal : reveal.

Lemma apply_duration_keeps_reveal e d :
  frame keeps_reveal (V2.apply_duration e d).
Proof. unfold V2.apply_duration. repeat reveal_step. Qed.
#[local] Hint Resolve apply_duration_keeps_reveal : reveal.

Lemma finish_keeps_reveal ti :
  frame keeps_reveal
    (call (Dom.clearInterval ti) ;;
     c <- read V2.config ;;
     when_ (Options.truthy_bool (Options.loop c))
       (V2.resetTyping ;;
        c' <- read V2.config ;;
        call (Dom.setTimeout (Options.ms (Options.delay c'))) ;;
        ret tt)).
Proof. unfold Dom.setTimeout. repeat reveal_step. Qed.

Lemma tick_keeps_reveal : frame keeps_reveal V2.tick.
Proof.
  intros w Hw. unfold V2.tick, exec.
  rewrite bind_read. cbv beta. rewrite bind_read. cbv beta.
  case_bool_decide as Hlt.
  - destruct w as [[cfg ini ti ci tx el cu cls] [sel dm sp nn tm nt nw co bad]].
    cbn [this V2.currentIndex V2.text] in *.
    destruct el as [e|]; [|crush; rc_leaf].
    destruct (lookup_lt_is_Some_2 tx ci Hlt) as [u Hu].
    destruct (Hw e eq_refl) as (tail & Hch & Htail).
    unfold content in Hch. cbn [this host V2.currentIndex V2.text] in Hch.
    unfold charAt. rewrite Hu.
    destruct cu as [i|].
    + js. destruct (decide _) as [Hin|Hnin]; js; [|exact Hw].
      destruct Htail as [->|(i' & [= <-] & ->)].
      * rewrite app_nil_r in Hch. fields. rewrite Hch in Hin.
        by apply span_not_in_glyphs in Hin.
      * intros e' [= <-]. unfold content, cursor_tail. fields.
        rewrite lookup_total_insert_eq. cbn [children set_children].
        rewrite Hch, insert_before_cursor, (glyphs_take_S _ _ _ Hu).
        exists [Span i]. split; [by rewrite <- app_assoc|eauto].
    + js. destruct Htail as [->|(i' & [=] & _)].
      intros e' [= <-]. unfold content, cursor_tail. fields.
      rewrite lookup_total_insert_eq. cbn [children set_children].
      rewrite Hch, (glyphs_take_S _ _ _ Hu), app_nil_r.
      exists []. split; [by rewrite app_nil_r|eauto].
  - rewrite bind_read. cbv beta.
    by apply (finish_keeps_reveal (V2.typingInterval (this w)) w).
Qed.

Lemma detach_glyphs i s : Dom.detach i (glyphs s) = glyphs s.
Proof.
  unfold Dom.detach, glyphs. induction s as [|u s IH]; [done|].
  rewrite fmap_cons, filter_cons, decide_True by done. by rewrite IH.
Qed.

Lemma detach_snoc i l : Dom.detach i (l ++ [Span i]) = Dom.detach i l.
Proof.
  unfold Dom.detach. rewrite filter_app, filter_cons.
  rewrite decide_False by (intros H; by apply H). apply app_nil_r.
Qed.

Lemma update_cursor_keeps_reveal nc : frame keeps_reveal (V2.update_cursor nc).
Proof.
  intros w Hw.
  destruct w as [[cfg ini ti ci tx el cu cls] [sel dm sp nn tm nt nw co bad]].
  unfold V2.update_cursor.
  destruct (Options.cursor nc) as [[|]|]; [| |exact Hw].
  - destruct cu as [i|]; [exact Hw|].
    destruct el as [e|]; [|crush; rc_leaf].
    destruct (Hw e eq_refl) as (tail & Hch & [->|(i' & [=] & _)]).
    unfold content in Hch. cbn [this host V2.currentIndex V2.text] in Hch.
    rewrite app_nil_r in Hch.
    js. intros e' [= <-]. unfold content, cursor_tail. fields.
    rewrite lookup_total_insert_eq, detach_all_lookup.
    cbn [children set_children]. rewrite Hch, detach_glyphs.
    exists [Span nn]. split; [done|right; by exists nn].
  - destruct cu as [i|]; [|exact Hw].
    destruct el as [e|]; [|crush; rc_leaf].
    destruct (Hw e eq_refl) as (tail & Hch & Htail).
    unfold content in Hch. cbn [this host V2.currentIndex V2.text] in Hch.
    js. destruct (decide _) as [Hin|Hnin]; js; [|exact Hw].
    intros e' [= <-]. unfold content, cursor_tail. fields.
    rewrite lookup_total_insert_eq. cbn [children set_children].
    exists []. split; [|by left]. rewrite Hch, app_nil_r.
    destruct Htail as [->|(i' & [= <-] & ->)].
    + by rewrite app_nil_r, detach_glyphs.
    + by rewrite detach_snoc, detach_glyphs.
Qed.
#[local] Hint Resolve update_cursor_keeps_reveal : reveal.

Lemma update_text_keeps_reveal nc : frame keeps_reveal (V2.update_text nc).
Proof.
  intros w Hw. unfold V2.update_text, exec. rewrite bind_read. cbv beta.
  destruct (_ && _); [|exact Hw].
  unfold when_.
  set (w1 := mkWorld (V2.set_text (default [] (Options.text nc)) (this w)) (host w)).
  change (reveal_consistent
            (exec (V2.resetTyping ;;
                   ti <- read V2.typingInterval ;;
                   call (Dom.clearInterval ti) ;;
                   c <- read V2.config ;;
                   call (Dom.setTimeout (Options.ms (Options.delay c))) ;;
                   ret tt) w1)).
  assert (frame keeps_reveal
            (ti <- read V2.typingInterval ;;
             call (Dom.clearInterval ti) ;;
             c <- read V2.config ;;
             call (Dom.setTimeout (Options.ms (Options.delay c))) ;;
             ret tt)) as Hrest
    by (unfold Dom.setTimeout; repeat reveal_step).
  pose proof (resetTyping_consistent w1) as H1.
  unfold exec, bind in *.
  destruct (V2.resetTyping w1) as [[[]|x] w2]; cbn [snd] in *; [|exact H1].
  by apply Hrest.
Qed.
#[local] Hint Resolve update_text_keeps_reveal : reveal.

Lemma updateConfig_keeps_reveal nc : frame keeps_reveal (V2.updateConfig nc).
Proof.
  unfold V2.updateConfig, V2.update_speed, V2.update_cursorStyle,
    V2.update_animation, V2.update_color, V2.update_animationDuration.
  repeat reveal_step.
Qed.

Lemma reveal_consistent_on_host f (w : World V2.Typify) :
  (forall h, dom (f h) = dom h) ->
  reveal_consistent w -> reveal_consistent (on_host f w).
Proof.
  intros Hf Hw e He. destruct (Hw e He) as (tail & Hch & Htail).
  exists tail. unfold content, on_host, elem in *. cbn [this host] in *.
  by rewrite Hf.
Qed.

Lemma fire_keeps_reveal tm w :
  reveal_consistent w -> reveal_consistent (fire V2.startTyping V2.tick tm w).
Proof.
  intros Hw. unfold fire. destruct (kind tm).
  - apply startTyping_keeps_reveal.
    do 2 (apply reveal_consistent_on_host; [intros []; reflexivity|]). exact Hw.
  - apply reveal_consistent_on_host; [apply dom_rearm|].
    apply tick_keeps_reveal.
    apply reveal_consistent_on_host; [intros []; reflexivity|]. exact Hw.
Qed.

Lemma run_keeps_reveal (l : list action) (w : World V2.Typify) :
  forallb no_destroy l = true ->
  reveal_consistent w -> reveal_consistent (V2.run l w).
Proof.
  revert w. induction l as [|a l IH]; intros w Hl Hw; [done|].
  cbn [forallb] in Hl. apply andb_prop in Hl as [Ha Hl].
  unfold V2.run in *. cbn [foldl]. apply IH; [done|].
  destruct a; cbn [V2.step]; try discriminate.
  - by apply init_keeps_reveal.
  - by apply updateConfig_keeps_reveal.
  - unfold fire_next. destruct (next_timer _); [|done].
    cbn. by apply fire_keeps_reveal.
Qed.

(** X8.  From any state, after an [init] that returns (its selector is a
    valid one, whether it matches an element or not) and any sequence of
    further [init] and [updateConfig] calls and timer callbacks without
    [destroy], calls that raise included: if a target is set, its children
    are one text node for each of the first [currentIndex] code units of
    [text], in order, followed by nothing or by the span [cursorElement]
    names; the text on show is that prefix.  In particular two tickers
    running at once never duplicate or skip a character. *)
Theorem reveal_is_a_prefix (w : World V2.Typify) (cfg : Options.t)
    (l : list action) (e : nat) :
  returns (V2.init cfg) w = true ->
  forallb no_destroy l = true ->
  V2.element (this (V2.run (Init cfg :: l) w)) = Some e ->
  (exists tail,
     content (V2.run (Init cfg :: l) w) e
     = glyphs (take (V2.currentIndex (this (V2.run (Init cfg :: l) w)))
                    (V2.text (this (V2.run (Init cfg :: l) w)))) ++ tail
     /\ cursor_tail (V2.run (Init cfg :: l) w) tail)
  /\ shown (content (V2.run (Init cfg :: l) w) e)
     = take (V2.currentIndex (this (V2.run (Init cfg :: l) w)))
            (V2.text (this (V2.run (Init cfg :: l) w))).
Proof.
  intros Hret Hl He.
  assert (reveal_consistent (V2.run (Init cfg :: l) w)) as Hw.
  { change (V2.run (Init cfg :: l) w) with (V2.run l (exec (V2.init cfg) w)).
    apply run_keeps_reveal; [done|by apply init_consistent]. }
  destruct (Hw e He) as (tail & Hch & Htail).
  split; [by exists tail|].
  rewrite Hch.
  destruct Htail as [->|(i & _ & ->)].
  - apply (shown_glyphs _ None).
  - apply (shown_glyphs _ (Some i)).
Qed.

Lemma reveal_is_a_prefix_witness :
  shown (content (V2.run [Init Options.empty; Fire; Fire; Fire] fresh2) 0)
  = lit "He".
Proof.
  destruct (reveal_is_a_prefix fresh2 Options.empty [Fire; Fire; Fire] 0)
    as (_ & H); [reflexivity|reflexivity|reflexivity|].
  exact H.
Defined.

(** ** [currentIndex] stays in range *)

#[local] Instance keeps_range_trans : Transitive keeps_range.
Proof. intros a b c H1 H2 H. apply H2, H1, H. Qed.

#[local] Instance keeps_range_refl : Reflexive keeps_range.
Proof. by intros w H. Qed.

Lemma call_keeps_range {A} (m : M Host A) : frame keeps_range (call m).
Proof.
  intros [o h] Hw. unfold exec, call, index_in_range in *. cbn [this host] in *.
  by destruct (m h).
Qed.

Lemma self_keeps_range f :
  (forall o, V2.currentIndex (f o) = V2.currentIndex o
             /\ V2.text (f o) = V2.text o) ->
  frame keeps_range (self f).
Proof.
  intros Hf [o h] Hw. unfold exec, self, modify, index_in_range in *.
  cbn [snd this] in *. destruct (Hf o) as [-> ->]. exact Hw.
Qed.

Lemma reset_in_range {A} (k : M (World V2.Typify) A) :
  frame keeps_range k ->
  frame keeps_range (self (V2.set_currentIndex 0) ;; k).
Proof.
  intros Hk [o h] _. unfold exec, bind, self, modify. cbn [snd].
  apply Hk. unfold index_in_range. cbn. lia.
Qed.

Lemma text_in_range {A} s (k : M (World V2.Typify) A) :
  (forall w, index_in_range (exec k w)) ->
  frame keeps_range (self (V2.set_text s) ;; k).
Proof. intros Hk [o h] _. unfold exec, bind, self, modify. cbn [snd]. apply Hk. Qed.

Create HintDb range.

Ltac range_step :=
  first
    [ solve [auto with range]
    | apply reset_in_range
    | apply frame_bind; [apply _ | | intros ?]
    | apply frame_ret; apply _
    | apply frame_throw; apply _
    | apply frame_read; apply _
    | apply frame_deref; apply _
    | apply frame_when; [apply _|]
    | apply self_keeps_range; intros []; split; reflexivity
    | apply call_keeps_range
    | match goal with
      | |- frame _ (match ?x with _ => _ end) => destruct x
      end ].

Lemma resetTyping_in_range (w : World V2.Typify) :
  index_in_range (exec V2.resetTyping w).
Proof.
  unfold V2.resetTyping.
  destruct w as [o h]. unfold exec, bind at 1, self, modify. cbn [snd].
  match goal with |- index_in_range (snd (?m ?w0)) =>
    assert (frame keeps_range m) as Hm by repeat range_step;
    apply (Hm w0)
  end.
  unfold index_in_range. cbn. lia.
Qed.

Lemma resetTyping_keeps_range : frame keeps_range V2.resetTyping.
Proof. intros w _. apply resetTyping_in_range. Qed.
#[local] Hint Resolve resetTyping_keeps_range : range.

Lemma startTyping_keeps_range : frame keeps_range V2.startTyping.
Proof. unfold V2.startTyping. repeat range_step. Qed.
#[local] Hint Resolve startTyping_keeps_range : range.

Lemma apply_duration_keeps_range e d : frame keeps_range (V2.apply_duration e d).
Proof. unfold V2.apply_duration. repeat range_step. Qed.
#[local] Hint Resolve apply_duration_keeps_range : range.

Lemma create_cursor_keeps_range : frame keeps_range V2.create_cursor.
Proof. unfold V2.create_cursor. repeat range_step. Qed.
#[local] Hint Resolve create_cursor_keeps_range : range.

Ltac range_leaf :=
  unfold index_in_range in *;
  cbv [this V2.currentIndex V2.text] in *;
  repeat match goal with
  | H : bool_decide _ = true |- _ => apply bool_decide_eq_true in H
  end;
  cbn [length]; lia.

Lemma tick_keeps_range : frame keeps_range V2.tick.
Proof.
  intros [[cfg ini ti ci tx el cu cls] h] Hw. crush; range_leaf.
Qed.

Lemma init_keeps_range cfg : frame keeps_range (V2.init cfg).
Proof.
  intros [[cfg0 ini ti ci tx el cu cls] h] Hw. crush; range_leaf.
Qed.

Lemma update_text_keeps_range nc : frame keeps_range (V2.update_text nc).
Proof.
  unfold V2.update_text.
  apply frame_bind; [apply _|apply frame_read; apply _|intros t].
  apply frame_when; [apply _|].
  apply text_in_range. intros w.
  pose proof (resetTyping_in_range w) as H1.
  unfold exec, bind in *.
  destruct (V2.resetTyping w) as [[[]|x] w2]; cbn [snd] in *; [|exact H1].
  assert (frame keeps_range
            (ti <- read V2.typingInterval ;;
             call (Dom.clearInterval ti) ;;
             c <- read V2.config ;;
             call (Dom.setTimeout (Options.ms (Options.delay c))) ;;
             ret tt)) as Hrest by repeat range_step.
  by apply Hrest.
Qed.
#[local] Hint Resolve update_text_keeps_range : range.

Lemma updateConfig_keeps_range nc : frame keeps_range (V2.updateConfig nc).
Proof.
  unfold V2.updateConfig, V2.update_speed, V2.update_cursor,
    V2.update_cursorStyle, V2.update_animation, V2.update_color,
    V2.update_animationDuration.
  repeat range_step.
Qed.

Lemma destroy_keeps_range : frame keeps_range V2.destroy.
Proof. unfold V2.destroy. repeat range_step. Qed.

Lemma fire_keeps_range tm w :
  index_in_range w -> index_in_range (fire V2.startTyping V2.tick tm w).
Proof.
  intros Hw. unfold fire. destruct (kind tm).
  - by apply startTyping_keeps_range.
  - unfold on_host at 1, index_in_range. cbn [this].
    by apply tick_keeps_range.
Qed.

(** X9.  [currentIndex] never exceeds the length of [text]: every
    operation and every timer callback, whether it returns or raises, keeps
    [currentIndex <= text.length]. *)
Theorem index_stays_in_range (l : list action) (w : World V2.Typify) :
  (V2.currentIndex (this w) <= length (V2.text (this w)))%nat ->
  (V2.currentIndex (this (V2.run l w))
   <= length (V2.text (this (V2.run l w))))%nat.
Proof.
  revert w. induction l as [|a l IH]; intros w Hw; [done|].
  unfold V2.run in *. cbn [foldl]. apply IH.
  destruct a; cbn [V2.step].
  - by apply init_keeps_range.
  - by apply updateConfig_keeps_range.
  - by apply destroy_keeps_range.
  - unfold fire_next. destruct (next_timer _); [|done].
    cbn. by apply fire_keeps_range.
Qed.

Lemma index_stays_in_range_witness :
  (V2.currentIndex (this (V2.run compat_trace fresh2))
   <= length (V2.text (this (V2.run compat_trace fresh2))))%nat.
Proof.
  apply (index_stays_in_range compat_trace fresh2). cbn. lia.
Defined.

(** ** [updateConfig]: cursor, glyph, colour and duration *)

(** The speed block touches the ticker and nothing else. *)
Lemma update_speed_effect nc (w : World V2.Typify) :
  exists ti tms nt,
    V2.update_speed nc w
    = (Val tt, mkWorld (V2.set_typingInterval ti (this w))
                 (set_nextTimer nt (set_timers (fun _ => tms) (host w)))).
Proof.
  destruct w as [[cfg ini ti ci tx el cu cls] [sel dm sp nn tm nt nw co bad]].
  unfold V2.update_speed.
  destruct (Options.truthy_num (Options.speed nc)).
  - destruct ti; js; do 3 eexists; reflexivity.
  - exists ti, tm, nt. reflexivity.
Qed.

Lemma update_tail_effect nc (w : World V2.Typify) old e :
  V2.config (this w) = Options.spread old nc ->
  V2.element (this w) = Some e ->
  (V2.update_cursorStyle nc ;; V2.update_animation nc ;; V2.update_color nc ;;
   V2.update_animationDuration nc) w
  = (Val tt, mkWorld (this w) (tail_host nc (this w) e (host w))).
Proof.
  intros Hc He.
  assert (forall w', V2.config (this w') = V2.config (this w) ->
            V2.update_animation nc w' = (Val tt, w')) as Hanim.
  { intros w' Hw'. apply (update_animation_never_runs nc w' old). congruence. }
  unfold tail_host.
  destruct w as [[cfg ini ti ci tx el cu cls] h].
  cbn [this host V2.config V2.element V2.cursorElement] in *. subst el.
  unfold V2.update_cursorStyle.
  destruct cu as [id|].
  - destruct (Options.truthy_str (Options.cursorStyle nc)).
    + erewrite bind_val by (js; reflexivity).
      erewrite bind_val by (apply Hanim; reflexivity).
      destruct (Options.truthy_str (Options.color nc)) eqn:Hcol;
        destruct (Options.truthy_num (Options.animationDuration nc)) eqn:Hd;
        js; rewrite ?Hcol, ?Hd; js; try reflexivity.
      all: destruct (Options.animationDuration cfg) as [n|]; js; try reflexivity.
      all: destruct (0 <=? n); reflexivity.
    + erewrite bind_val by (js; reflexivity).
      erewrite bind_val by (apply Hanim; reflexivity).
      destruct (Options.truthy_str (Options.color nc)) eqn:Hcol;
        destruct (Options.truthy_num (Options.animationDuration nc)) eqn:Hd;
        js; rewrite ?Hcol, ?Hd; js; try reflexivity.
      all: destruct (Options.animationDuration cfg) as [n|]; js; try reflexivity.
      all: destruct (0 <=? n); reflexivity.
  - erewrite bind_val by (js; reflexivity).
    erewrite bind_val by (apply Hanim; reflexivity).
    destruct (Options.truthy_str (Options.color nc)) eqn:Hcol;
      destruct (Options.truthy_num (Options.animationDuration nc)) eqn:Hd;
      js; rewrite ?Hcol, ?Hd; js; try reflexivity.
    all: destruct (Options.animationDuration cfg) as [n|]; js; try reflexivity.
    all: destruct (0 <=? n); reflexivity.
Qed.

Lemma tail_host_children nc o e h e' :
  children (elem (tail_host nc o e h) e') = children (elem h e').
Proof.
  unfold tail_host.
  repeat match goal with
  | |- context [match ?x with _ => _ end] => destruct x
  end.
  all: destruct h; js; fields.
  all: repeat (destruct (decide (e = e')) as [->|Hne];
    [rewrite ?lookup_total_insert_eq|rewrite ?lookup_total_insert_ne by done]).
  all: try reflexivity.
Qed.

Lemma tail_host_timers nc o e h :
  timers (tail_host nc o e h) = timers h
  /\ nextTimer (tail_host nc o e h) = nextTimer h
  /\ now (tail_host nc o e h) = now h
  /\ nextNode (tail_host nc o e h) = nextNode h.
Proof.
  unfold tail_host.
  repeat match goal with
  | |- context [match ?x with _ => _ end] => destruct x
  end.
  all: destruct h; js; fields; repeat split.
Qed.

Lemma update_cursor_off nc (w : World V2.Typify) e id :
  Options.cursor nc = Some false ->
  V2.element (this w) = Some e -> V2.cursorElement (this w) = Some id ->
  Span id ∈ children (elem (host w) e) ->
  V2.update_cursor nc w
  = (Val tt, mkWorld (V2.set_cursorElement None (this w))
               (update_elem e (set_children (Dom.detach id)) (host w))).
Proof.
  destruct w as [[cfg ini ti ci tx el cu cls] h].
  cbn [this host V2.element V2.cursorElement].
  intros Hnc -> -> Hin. unfold V2.update_cursor. rewrite Hnc. js.
  rewrite decide_True by exact Hin. reflexivity.
Qed.

Lemma update_cursor_on nc (w : World V2.Typify) e :
  Options.cursor nc = Some true ->
  V2.element (this w) = Some e -> V2.cursorElement (this w) = None ->
  V2.update_cursor nc w
  = (Val tt, mkWorld (V2.set_cursorElement (Some (nextNode (host w))) (this w))
               (snd (Dom.appendSpan e (nextNode (host w))
                  (snd (Dom.createCursorSpan
                          (Options.str (Options.cursorStyle (V2.config (this w))))
                          (host w)))))).
Proof.
  destruct w as [[cfg ini ti ci tx el cu cls] h].
  cbn [this host V2.element V2.cursorElement].
  intros Hnc -> ->. unfold V2.update_cursor. rewrite Hnc. reflexivity.
Qed.

(** X10.  [updateConfig] with [cursor: false] and no change of text, on
    an initialized animator whose cursor span is a child of the target:
    it returns, removes that span and nothing else from the target, clears
    [cursorElement], and leaves the revealed text, [currentIndex] and
    [text] as they were. *)
Theorem cursor_off_removes_span (w : World V2.Typify) (nc : Options.t)
    (e id : nat) :
  V2.isInitialized (this w) = true ->
  V2.element (this w) = Some e ->
  V2.cursorElement (this w) = Some id ->
  Span id ∈ content w e ->
  Options.cursor nc = Some false ->
  Options.truthy_str (Options.text nc)
    && bool_decide (Options.text nc ≠ Some (V2.text (this w))) = false ->
  returns (V2.updateConfig nc) w = true
  /\ V2.cursorElement (this (exec (V2.updateConfig nc) w)) = None
  /\ content (exec (V2.updateConfig nc) w) e = Dom.detach id (content w e)
  /\ (Span id ∉ content (exec (V2.updateConfig nc) w) e)
  /\ shown (content (exec (V2.updateConfig nc) w) e) = shown (content w e)
  /\ V2.currentIndex (this (exec (V2.updateConfig nc) w))
     = V2.currentIndex (this w)
  /\ V2.text (this (exec (V2.updateConfig nc) w)) = V2.text (this w).
Proof.
  intros Hini Hel Hcu Hin Hnc Htext.
  unfold exec, returns, content in *.
  rewrite updateConfig_blocks by done.
  erewrite bind_val; [|apply update_text_skip; exact Htext].
  destruct (update_speed_effect nc
              (mkWorld (V2.set_config (Options.spread (V2.config (this w)) nc)
                          (this w)) (host w))) as (ti' & tms & nt & Hsp).
  erewrite bind_val by exact Hsp.
  unfold update_rest.
  erewrite bind_val;
    [|apply (update_cursor_off nc _ e id Hnc);
      destruct w as [[] []]; cbn in *; done].
  erewrite update_tail_effect;
    [|destruct w as [[] []]; reflexivity|destruct w as [[] []]; cbn in *; done].
  cbn [fst snd this host].
  rewrite tail_host_children.
  destruct w as [[cfg ini ti ci tx el cu cls] [sel dm sp nn tm nt0 nw co bad]].
  fields. rewrite lookup_total_insert_eq. cbn [children set_children].
  repeat split.
  - unfold Dom.detach. intros [Hne _]%list_elem_of_filter. by apply Hne.
  - apply shown_detach.
Qed.

Lemma cursor_off_removes_span_witness :
  content (exec (V2.updateConfig (opt_cursor false)) mid_reveal) 0
  = [Text (lit "H"); Text (lit "e")]
  /\ V2.cursorElement (this (exec (V2.updateConfig (opt_cursor false)) mid_reveal))
     = None.
Proof.
  destruct (cursor_off_removes_span mid_reveal (opt_cursor false) 0 0)
    as (_ & H1 & H2 & _);
    [reflexivity|reflexivity|reflexivity
    |apply (list_elem_of_lookup_2 _ 2%nat); reflexivity
    |reflexivity|reflexivity|].
  split; [exact H2|exact H1].
Defined.

(** X11.  [updateConfig] with [cursor: true] and no change of text, on
    an initialized animator without cursor handle: it returns, creates a
    span of class [typify-cursor] showing the merged [cursorStyle], appends
    it as last child of the target, stores it in [cursorElement], and
    leaves the revealed text, [currentIndex] and [text] as they were. *)
Theorem cursor_on_appends_span (w : World V2.Typify) (nc : Options.t) (e : nat) :
  V2.isInitialized (this w) = true ->
  V2.element (this w) = Some e ->
  V2.cursorElement (this w) = None ->
  Options.cursor nc = Some true ->
  Options.truthy_str (Options.text nc)
    && bool_decide (Options.text nc ≠ Some (V2.text (this w))) = false ->
  returns (V2.updateConfig nc) w = true
  /\ V2.cursorElement (this (exec (V2.updateConfig nc) w))
     = Some (nextNode (host w))
  /\ content (exec (V2.updateConfig nc) w) e
     = Dom.detach (nextNode (host w)) (content w e) ++ [Span (nextNode (host w))]
  /\ spans (host (exec (V2.updateConfig nc) w)) !! nextNode (host w)
     = Some (mkSpan [lit "typify-cursor"]
               (Options.str (Options.cursorStyle
                  (Options.spread (V2.config (this w)) nc))))
  /\ shown (content (exec (V2.updateConfig nc) w) e) = shown (content w e)
  /\ V2.currentIndex (this (exec (V2.updateConfig nc) w))
     = V2.currentIndex (this w)
  /\ V2.text (this (exec (V2.updateConfig nc) w)) = V2.text (this w).
Proof.
  intros Hini Hel Hcu Hnc Htext.
  unfold exec, returns, content in *.
  rewrite updateConfig_blocks by done.
  erewrite bind_val; [|apply update_text_skip; exact Htext].
  destruct (update_speed_effect nc
              (mkWorld (V2.set_config (Options.spread (V2.config (this w)) nc)
                          (this w)) (host w))) as (ti' & tms & nt & Hsp).
  erewrite bind_val by exact Hsp.
  unfold update_rest.
  erewrite bind_val;
    [|apply (update_cursor_on nc _ e Hnc);
      destruct w as [[] []]; cbn in *; done].
  erewrite update_tail_effect;
    [|destruct w as [[] []]; reflexivity|destruct w as [[] []]; cbn in *; done].
  cbn [fst snd this host].
  rewrite tail_host_children.
  destruct w as [[cfg ini ti ci tx el cu cls] [sel dm sp nn tm nt0 nw co bad]].
  unfold tail_host. js. fields.
  rewrite lookup_total_insert_eq, detach_all_lookup.
  cbn [children set_children].
  split; [done|]. split; [done|]. split; [done|].
  split.
  { repeat (first [rewrite lookup_insert_eq|split_match]; fields);
      reflexivity. }
  split; [|done].
  rewrite shown_snoc_span. apply shown_detach.
Qed.

Lemma cursor_on_appends_span_witness :
  content (exec (V2.updateConfig (opt_cursor true)) mid_reveal_no_cursor) 0
  = [Text (lit "H"); Text (lit "e"); Span 0]
  /\ V2.cursorElement
       (this (exec (V2.updateConfig (opt_cursor true)) mid_reveal_no_cursor))
     = Some 0%nat.
Proof.
  destruct (cursor_on_appends_span mid_reveal_no_cursor (opt_cursor true) 0)
    as (_ & H1 & H2 & _);
    [reflexivity|reflexivity|reflexivity|reflexivity|reflexivity|].
  split; [exact H2|exact H1].
Defined.

Lemma update_cursor_idle nc (w : World V2.Typify) id :
  Options.cursor nc <> Some false -> V2.cursorElement (this w) = Some id ->
  V2.update_cursor nc w = (Val tt, w).
Proof.
  destruct w as [[cfg ini ti ci tx el cu cls] h].
  cbn [this V2.cursorElement]. intros Hnc ->. unfold V2.update_cursor.
  destruct (Options.cursor nc) as [[|]|]; try reflexivity. by destruct Hnc.
Qed.

(** X12.  [updateConfig] with a [cursorStyle] [g], no [cursor: false]
    and no change of text, on an initialized animator with a cursor: it
    returns and stores [g] in the configuration; a non-empty [g] becomes
    the text of the cursor span, the empty string leaves every span as it
    was; the children of the target and the handle stay. *)
Theorem cursor_style_update (w : World V2.Typify) (nc : Options.t)
    (e i : nat) (g : jsstring) :
  V2.isInitialized (this w) = true ->
  V2.element (this w) = Some e ->
  V2.cursorElement (this w) = Some i ->
  Options.cursorStyle nc = Some g ->
  Options.cursor nc <> Some false ->
  Options.truthy_str (Options.text nc)
    && bool_decide (Options.text nc ≠ Some (V2.text (this w))) = false ->
  returns (V2.updateConfig nc) w = true
  /\ Options.cursorStyle (V2.config (this (exec (V2.updateConfig nc) w)))
     = Some g
  /\ (g <> [] ->
      textContent <$> spans (host (exec (V2.updateConfig nc) w)) !! i = Some g)
  /\ (g = [] -> spans (host (exec (V2.updateConfig nc) w)) = spans (host w))
  /\ content (exec (V2.updateConfig nc) w) e = content w e
  /\ V2.cursorElement (this (exec (V2.updateConfig nc) w)) = Some i.
Proof.
  intros Hini Hel Hcu Hg Hnc Htext.
  unfold exec, returns, content in *.
  rewrite updateConfig_blocks by done.
  erewrite bind_val; [|apply update_text_skip; exact Htext].
  destruct (update_speed_effect nc
              (mkWorld (V2.set_config (Options.spread (V2.config (this w)) nc)
                          (this w)) (host w))) as (ti' & tms & nt & Hsp).
  erewrite bind_val by exact Hsp.
  unfold update_rest.
  erewrite bind_val;
    [|apply (update_cursor_idle nc _ i Hnc);
      destruct w as [[] []]; cbn in *; done].
  erewrite update_tail_effect;
    [|destruct w as [[] []]; reflexivity|destruct w as [[] []]; cbn in *; done].
  cbn [fst snd this host].
  rewrite tail_host_children.
  destruct w as [[cfg ini ti ci tx el cu cls] [sel dm sp nn tm nt0 nw co bad]].
  unfold tail_host. js. fields. subst cu.
  assert (Options.cursorStyle (Options.spread cfg nc) = Some g) as Hg'
    by (unfold Options.spread; cbn; by rewrite Hg).
  rewrite Hg, Hg'. cbn [Options.str default from_option id].
  split; [done|]. split; [done|].
  split; [|split; [|done]].
  - intros Hne. destruct g as [|u g]; [done|]. cbn [Options.truthy_str].
    repeat (split_match; fields); rewrite lookup_insert_eq; reflexivity.
  - intros ->. cbn [Options.truthy_str].
    repeat (split_match; fields); reflexivity.
Qed.

Lemma cursor_style_update_witness :
  textContent
    <$> spans (host (exec (V2.updateConfig (opt_cursorStyle (lit "_")))
                       mid_reveal)) !! 0%nat
  = Some (lit "_").
Proof.
  destruct (cursor_style_update mid_reveal (opt_cursorStyle (lit "_")) 0 0
              (lit "_")) as (_ & _ & H & _);
    [reflexivity|reflexivity|reflexivity|reflexivity|discriminate
    |reflexivity|].
  apply H. discriminate.
Defined.

#[local] Instance same_target_trans : Transitive same_target.
Proof. intros a b c (?&?) (?&?). split; congruence. Qed.

Ltac target_leaf := split; reflexivity.

Lemma update_text_same_target nc : frame same_target (V2.update_text nc).
Proof. intros [[cfg ini ti ci tx el cu cls] h]. crush; target_leaf. Qed.

Lemma update_speed_same_target nc : frame same_target (V2.update_speed nc).
Proof. intros [[cfg ini ti ci tx el cu cls] h]. crush; target_leaf. Qed.

Lemma update_cursor_same_target nc : frame same_target (V2.update_cursor nc).
Proof. intros [[cfg ini ti ci tx el cu cls] h]. crush; target_leaf. Qed.

Lemma tail_host_color nc o e h c :
  Options.color nc = Some c -> c <> [] ->
  Options.color (V2.config o) = Some c ->
  style_color (elem (tail_host nc o e h) e) = c.
Proof.
  intros Hc Hne Hc'. unfold tail_host. rewrite Hc, Hc'.
  destruct c as [|u c]; [done|]. cbn [Options.truthy_str Options.str default].
  repeat (split_match; fields); rewrite ?lookup_total_insert_eq; reflexivity.
Qed.

Lemma tail_host_duration nc o e h n :
  Options.animationDuration nc = Some n -> 0 < n ->
  Options.animationDuration (V2.config o) = Some n ->
  style_animationDuration (elem (tail_host nc o e h) e) = Some n.
Proof.
  intros Hn Hpos Hn'. unfold tail_host. rewrite Hn, Hn'.
  cbn [Options.truthy_num].
  destruct (Z.eqb_spec n 0); [lia|]. destruct (Z.leb_spec 0 n); [|lia].
  cbn [negb]. fields. rewrite lookup_total_insert_eq. reflexivity.
Qed.

(** X13.  When [updateConfig] returns on an initialized animator with a
    target, a non-empty [color] it carries is the colour of the target
    afterwards, and a positive [animationDuration] it carries is the
    animation duration of the target afterwards, whatever the animation
    is, ['none'] included. *)
Theorem style_update (w : World V2.Typify) (nc : Options.t) (e : nat) :
  V2.isInitialized (this w) = true ->
  V2.element (this w) = Some e ->
  returns (V2.updateConfig nc) w = true ->
  (forall c, Options.color nc = Some c -> c <> [] ->
     style_color (elem (host (exec (V2.updateConfig nc) w)) e) = c)
  /\ (forall n, Options.animationDuration nc = Some n -> 0 < n ->
        style_animationDuration (elem (host (exec (V2.updateConfig nc) w)) e)
        = Some n).
Proof.
  intros Hini Hel Hret.
  unfold exec, returns in *. rewrite updateConfig_blocks in * by done.
  set (w0 := mkWorld _ _) in *.
  fold (returns (V2.update_text nc;; V2.update_speed nc;; update_rest nc) w0) in Hret.
  fold (exec (V2.update_text nc;; V2.update_speed nc;; update_rest nc) w0).
  apply returns_bind in Hret as (_ & Hret & ->).
  apply returns_bind in Hret as (_ & Hret & ->).
  unfold update_rest in *.
  apply returns_bind in Hret as (_ & _ & ->).
  set (w3 := exec (V2.update_cursor nc) _).
  assert (same_target w0 w3) as [Hc3 He3].
  { etransitivity; [apply update_text_same_target|].
    etransitivity; [apply update_speed_same_target|].
    apply update_cursor_same_target. }
  assert (V2.config (this w3) = Options.spread (V2.config (this w)) nc) as Hc3'
    by (rewrite Hc3; by destruct w as [[] []]).
  assert (V2.element (this w3) = Some e) as He3'
    by (rewrite He3; by destruct w as [[] []]).
  unfold exec. rewrite (update_tail_effect nc w3 _ e Hc3' He3').
  cbn [snd host]. split.
  - intros c Hc Hne. apply tail_host_color; [done|done|].
    rewrite Hc3'. unfold Options.spread. cbn. by rewrite Hc.
  - intros n Hn Hpos. apply tail_host_duration; [done|done|].
    rewrite Hc3'. unfold Options.spread. cbn. by rewrite Hn.
Qed.

Lemma style_update_witness :
  style_color (elem (host (exec (V2.updateConfig opt_style) mid_reveal)) 0)
  = lit "#ffffff"
  /\ style_animationDuration
       (elem (host (exec (V2.updateConfig opt_style) mid_reveal)) 0)
     = Some 250.
Proof.
  destruct (style_update mid_reveal opt_style 0) as (H1 & H2);
    [reflexivity|reflexivity|reflexivity|].
  split; [apply H1; [reflexivity|discriminate]|apply H2; [reflexivity|lia]].
Defined.

(** X14.  An [updateConfig] that carries no new non-empty text and no
    non-zero speed leaves the reveal alone, whether it returns or raises:
    [isInitialized], [typingInterval], [currentIndex], [text] and
    [element], the timers and the clock, and the text every element
    shows. *)
Theorem update_without_text_or_speed (w : World V2.Typify) (nc : Options.t) :
  Options.truthy_str (Options.text nc)
    && bool_decide (Options.text nc ≠ Some (V2.text (this w))) = false ->
  Options.truthy_num (Options.speed nc) = false ->
  V2.isInitialized (this (exec (V2.updateConfig nc) w)) = V2.isInitialized (this w)
  /\ V2.typingInterval (this (exec (V2.updateConfig nc) w))
     = V2.typingInterval (this w)
  /\ V2.currentIndex (this (exec (V2.updateConfig nc) w))
     = V2.currentIndex (this w)
  /\ V2.text (this (exec (V2.updateConfig nc) w)) = V2.text (this w)
  /\ V2.element (this (exec (V2.updateConfig nc) w)) = V2.element (this w)
  /\ timers (host (exec (V2.updateConfig nc) w)) = timers (host w)
  /\ now (host (exec (V2.updateConfig nc) w)) = now (host w)
  /\ (forall e, shown (content (exec (V2.updateConfig nc) w) e)
               = shown (content w e)).
Proof.
  intros Htext Hsp.
  destruct (V2.isInitialized (this w)) eqn:Hini.
  2:{ assert (exec (V2.updateConfig nc) w = w) as ->.
      { destruct w as [[]]. cbn in Hini. subst. reflexivity. }
      by rewrite Hini. }
  unfold exec, content. rewrite updateConfig_blocks by done.
  erewrite bind_val; [|apply update_text_skip; exact Htext].
  erewrite bind_val; [|apply update_speed_skip; exact Hsp].
  match goal with |- context [update_rest nc ?w1] =>
    destruct (update_rest_same_reveal nc w1)
      as (_&Hi&Hti&Hci&Htx&Hel&Htm&_&Hnow&Hsh)
  end.
  unfold exec in *.
  destruct (update_rest nc _) as [r [o h']].
  destruct w as [[cfg ini ti ci tx el cu cls] h].
  cbn [snd this host V2.isInitialized V2.typingInterval V2.currentIndex
       V2.text V2.element V2.set_config] in *.
  repeat split; try done. congruence.
Qed.

Lemma update_without_text_or_speed_witness :
  V2.currentIndex (this (exec (V2.updateConfig opt_style) mid_reveal)) = 2%nat
  /\ timers (host (exec (V2.updateConfig opt_style) mid_reveal))
     = [mkTimer 1 Interval 100 800].
Proof.
  destruct (update_without_text_or_speed mid_reveal opt_style)
    as (_ & _ & H1 & _ & _ & H2 & _); [reflexivity|reflexivity|].
  split; [exact H1|exact H2].
Defined.

Lemma cursor_spread cfg nc b :
  Options.cursor nc = Some b -> Options.cursor (Options.spread cfg nc) = Some b.
Proof. intros H. unfold Options.spread. cbn. by rewrite H. Qed.

(** X15.  [updateConfig] with a new non-empty text and [cursor: false] in
    one call, on an initialized animator with a target and a cursor handle,
    where [resetTyping] can take the animation class off and put it back
    (the merged animation is ['none'], or [animationClass] is a valid class
    token): the text block empties the target without putting the cursor
    back, then the cursor block calls [removeChild] on a span that is not a
    child and raises [NotFoundError].  The new text is stored,
    [currentIndex] is 0 and the handle stays set, so a reveal tick then
    raises [NotFoundError] at [insertBefore] and changes nothing. *)
Theorem text_with_cursor_off_raises (w : World V2.Typify) (nc : Options.t)
    (e i : nat) (t' : jsstring) :
  V2.isInitialized (this w) = true ->
  V2.element (this w) = Some e ->
  V2.cursorElement (this w) = Some i ->
  Options.text nc = Some t' -> t' <> [] -> t' <> V2.text (this w) ->
  Options.cursor nc = Some false ->
  (Options.animation (Options.spread (V2.config (this w)) nc) = Some anim_none
   \/ Dom.token_error (V2.animationClass (this w)) = None) ->
  let w' := exec (V2.updateConfig nc) w in
  fst (V2.updateConfig nc w) = Throw NotFoundError
  /\ V2.cursorElement (this w') = Some i
  /\ content w' e = []
  /\ V2.text (this w') = t' /\ V2.currentIndex (this w') = 0%nat
  /\ fst (V2.tick w') = Throw NotFoundError
  /\ exec V2.tick w' = w'.
Proof.
  intros Hini Hel Hcu Ht Hne Hch Hnc Hanim w'. subst w'.
  destruct w as [[cfg ini ti ci tx el cu cls] [sel dm sp nn tm nt nw co bad]].
  cbn [this host V2.isInitialized V2.element V2.cursorElement V2.text
       V2.config V2.animationClass] in *.
  subst ini el cu.
  pose proof (cursor_spread cfg nc false Hnc) as Hcur.
  unfold content.
  js. rewrite Ht. destruct t' as [|u t']; [done|]. cbn [Options.truthy_str].
  js. rewrite bool_decide_true by congruence. js.
  rewrite Hcur. cbn [Options.truthy_bool]. rewrite Hnc.
  destruct (bool_decide (Options.animation (Options.spread cfg nc)
                         ≠ Some anim_none)) eqn:Ha; js.
  - destruct Hanim as [Hanim|Hanim];
      [by rewrite Hanim, bool_decide_false in Ha by (intros ?; done)|].
    rewrite Hanim. js.
    destruct ti as [k|]; js;
      destruct (Options.truthy_num (Options.speed nc)); js;
      fields; rewrite ?lookup_total_insert_eq;
      cbn [children set_children set_classList];
      rewrite ?decide_False by apply not_elem_of_nil;
      rewrite ?lookup_total_insert_eq;
      cbn [children set_children set_classList].
    all: rewrite ?decide_False by apply not_elem_of_nil.
    all: repeat split.
    all: cbn [default from_option length];
      rewrite ?bool_decide_true by (cbn; lia); js; fields;
      rewrite ?lookup_total_insert_eq;
      cbn [children set_children set_classList];
      rewrite ?decide_False by apply not_elem_of_nil; reflexivity.
  - destruct ti as [k|]; js;
      destruct (Options.truthy_num (Options.speed nc)); js;
      fields; rewrite ?lookup_total_insert_eq;
      cbn [children set_children set_classList];
      rewrite ?decide_False by apply not_elem_of_nil;
      rewrite ?lookup_total_insert_eq;
      cbn [children set_children set_classList].
    all: rewrite ?decide_False by apply not_elem_of_nil.
    all: repeat split.
    all: cbn [default from_option length];
      rewrite ?bool_decide_true by (cbn; lia); js; fields;
      rewrite ?lookup_total_insert_eq;
      cbn [children set_children set_classList];
      rewrite ?decide_False by apply not_elem_of_nil; reflexivity.
Qed.

Lemma text_with_cursor_off_raises_witness :
  fst (V2.updateConfig opt_text_no_cursor mid_reveal) = Throw NotFoundError
  /\ fst (V2.tick (exec (V2.updateConfig opt_text_no_cursor) mid_reveal))
     = Throw NotFoundError.
Proof.
  destruct (text_with_cursor_off_raises mid_reveal opt_text_no_cursor 0 0
              (lit "X")) as (H1 & _ & _ & _ & _ & H2 & _);
    [reflexivity|reflexivity|reflexivity|reflexivity|discriminate
    |vm_compute; discriminate|reflexivity|left; reflexivity|].
  split; [exact H1|exact H2].
Defined.

(** ** An update, and the reveal that follows *)

(** From the start delay to the end of a pass that does not loop. *)
Lemma armed_reveals e cur c t d w fuel :
  0 <= Options.ms (Options.speed c) ->
  Options.truthy_bool (Options.loop c) = false ->
  armed e cur c t d w ->
  (length t + 3 <= fuel)%nat ->
  (children (elem (host (elapse V2.startTyping V2.tick fuel
               (d + Z.of_nat (length t) * Options.ms (Options.speed c)) w)) e)
   = glyphs t ++ cursor_part cur
   /\ settled (d + Z.of_nat (length t) * Options.ms (Options.speed c))
        (elapse V2.startTyping V2.tick fuel
           (d + Z.of_nat (length t) * Options.ms (Options.speed c)) w))
  /\ (children (elem (host (elapse V2.startTyping V2.tick fuel
               (d + (Z.of_nat (length t) + 1) * Options.ms (Options.speed c)) w)) e)
      = glyphs t ++ cursor_part cur
      /\ timers (host (elapse V2.startTyping V2.tick fuel
               (d + (Z.of_nat (length t) + 1) * Options.ms (Options.speed c)) w))
         = []).
Proof.
  intros Hsp Hloop Harm Hfuel.
  destruct (reveal_start _ _ _ _ _ _ Hsp Harm) as (w2 & id & Hf & Hrev & _).
  destruct Harm as (Hty & (i & p & Htm1) & Hnow).
  rewrite (fire_next_single _ _ _ _ Htm1) in Hf. injection Hf as Hf.
  destruct fuel as [|fuel]; [lia|].
  assert (0 <= Z.of_nat (length t) * Options.ms (Options.speed c)) as Hpos
    by (apply Z.mul_nonneg_nonneg; lia).
  split.
  - rewrite (elapse_fire _ _ _ _ _ _ Htm1) by (cbn [due]; lia).
    rewrite Hf.
    destruct (elapse_reveals _ _ _ _ _ _ 0 w2 fuel Hsp Hloop Hrev)
      as (H1 & H2 & _); [lia|lia|].
    destruct H1 as (_ & _ & _ & _ & _ & Hch).
    rewrite firstn_all in Hch. by split.
  - rewrite (elapse_fire _ _ _ _ _ _ Htm1) by (cbn [due]; nia).
    rewrite Hf.
    destruct (elapse_quiesces _ _ _ _ _ _ 0 w2 fuel Hsp Hloop Hrev)
      as ([H1 H2] & _); [lia|lia|].
    destruct H1 as (_ & _ & _ & _ & _ & Hch).
    rewrite firstn_all in Hch. by split.
Qed.

Lemma update_cursor_none nc (w : World V2.Typify) :
  Options.cursor nc = None -> V2.update_cursor nc w = (Val tt, w).
Proof. intros H. unfold V2.update_cursor. by rewrite H. Qed.

(** The text block on a session whose only timer, if any, is the ticker:
    the start delay runs again, over the new text. *)
Lemma update_text_arms nc (w : World V2.Typify) t' e :
  Options.text nc = Some t' -> t' <> [] -> t' <> V2.text (this w) ->
  V2.element (this w) = Some e ->
  class_ok (V2.config (this w)) w ->
  (Options.truthy_bool (Options.cursor (V2.config (this w))) = true ->
   V2.cursorElement (this w) <> None) ->
  (Options.truthy_bool (Options.cursor (V2.config (this w))) = false ->
   V2.cursorElement (this w) = None) ->
  cleared (V2.typingInterval (this w)) (timers (host w)) = [] ->
  0 <= Options.ms (Options.delay (V2.config (this w))) ->
  exists w1, V2.update_text nc w = (Val tt, w1)
    /\ armed e (V2.cursorElement (this w)) (V2.config (this w)) t'
         (now (host w) + Options.ms (Options.delay (V2.config (this w)))) w1
    /\ V2.isInitialized (this w1) = V2.isInitialized (this w).
Proof.
  destruct w as [[cfg ini ti ci tx el cu cls] [sel dm sp nn tm nt nw co bad]].
  cbv [this host V2.config V2.text V2.element V2.cursorElement
       V2.typingInterval V2.animationClass V2.isInitialized V2.currentIndex
       class_ok timers now].
  intros Ht Hne Hch -> Hanim Hon Hoff Hcl Hdl.
  unfold armed, typing.
  js. rewrite Ht. cbn [Options.truthy_str].
  destruct t' as [|u t']; [done|]. js.
  rewrite bool_decide_true by congruence. js.
  assert (forall tmr, match ti with
                      | Some i => filter (fun t => tid t ≠ i) tm
                      | None => tm
                      end ++ [tmr] = [tmr]) as Hcl'
    by (intros; unfold cleared in Hcl; by rewrite Hcl).
  destruct (bool_decide (Options.animation cfg ≠ Some anim_none)) eqn:Ha; js.
  - destruct Hanim as [Hanim|Hanim];
      [by rewrite Hanim, bool_decide_false in Ha by (intros ?; done)|].
    rewrite Hanim. js.
    destruct (Options.truthy_bool (Options.cursor cfg)) eqn:Hc; js.
    + destruct cu as [i|]; [|by destruct Hon]. js.
      destruct ti; js; eexists; (split; [reflexivity|]); fields;
        rewrite ?lookup_total_insert_eq, ?detach_all_lookup, ?lookup_total_insert_eq;
        rewrite Hcl', Z.max_r by lia;
        repeat split; try lia; by do 2 eexists.
    + rewrite Hoff by done.
      destruct ti; js; eexists; (split; [reflexivity|]); fields;
        rewrite ?lookup_total_insert_eq;
        rewrite Hcl', Z.max_r by lia;
        repeat split; try lia; by do 2 eexists.
  - destruct (Options.truthy_bool (Options.cursor cfg)) eqn:Hc; js.
    + destruct cu as [i|]; [|by destruct Hon]. js.
      destruct ti; js; eexists; (split; [reflexivity|]); fields;
        rewrite ?lookup_total_insert_eq, ?detach_all_lookup, ?lookup_total_insert_eq;
        rewrite Hcl', Z.max_r by lia;
        repeat split; try lia; by do 2 eexists.
    + rewrite Hoff by done.
      destruct ti; js; eexists; (split; [reflexivity|]); fields;
        rewrite ?lookup_total_insert_eq;
        rewrite Hcl', Z.max_r by lia;
        repeat split; try lia; by do 2 eexists.
Qed.

Lemma typing_tail nc e cur c t k (w : World V2.Typify) e' :
  typing e cur c t k w ->
  typing e cur c t k (mkWorld (this w) (tail_host nc (this w) e' (host w))).
Proof.
  intros (?&?&?&?&?&Hch). repeat split; try done.
  cbn [host]. by rewrite tail_host_children.
Qed.

(** X16.  [updateConfig] with a new non-empty text, no cursor key and no
    speed key (or the speed 0), on an initialized animator with a target,
    where: the merged configuration has [loop] false and speed and delay
    not negative; the only active timer, if any, is the one
    [typingInterval] names; the cursor handle is set exactly when
    [config.cursor] is true; and [resetTyping] can take the animation class
    off and put it back (the merged animation is ['none'], or
    [animationClass] is a valid class token).  Then the call returns and
    leaves the cursor alone in the target; [delay + length * speed] after
    the call the new text is on show in full, one text node per code unit
    before the cursor, and nothing else is due by then; one period later
    the ticker has cancelled itself and no timer is left.  [fuel], at least
    [length + 3], bounds the number of callbacks the clock may run. *)
Theorem new_text_is_revealed (w : World V2.Typify) (nc : Options.t)
    (t' : jsstring) (e fuel : nat) :
  V2.isInitialized (this w) = true ->
  V2.element (this w) = Some e ->
  cleared (V2.typingInterval (this w)) (timers (host w)) = [] ->
  Options.text nc = Some t' -> t' <> [] -> t' <> V2.text (this w) ->
  Options.truthy_num (Options.speed nc) = false ->
  Options.cursor nc = None ->
  Options.truthy_bool (Options.loop (Options.spread (V2.config (this w)) nc))
  = false ->
  0 <= Options.ms (Options.speed (Options.spread (V2.config (this w)) nc)) ->
  0 <= Options.ms (Options.delay (Options.spread (V2.config (this w)) nc)) ->
  (Options.animation (Options.spread (V2.config (this w)) nc) = Some anim_none
   \/ Dom.token_error (V2.animationClass (this w)) = None) ->
  (Options.truthy_bool (Options.cursor (V2.config (this w))) = true ->
   V2.cursorElement (this w) <> None) ->
  (Options.truthy_bool (Options.cursor (V2.config (this w))) = false ->
   V2.cursorElement (this w) = None) ->
  (length t' + 3 <= fuel)%nat ->
  let c := Options.spread (V2.config (this w)) nc in
  let z := now (host w) + Options.ms (Options.delay c)
           + Z.of_nat (length t') * Options.ms (Options.speed c) in
  let w' := exec (V2.updateConfig nc) w in
  returns (V2.updateConfig nc) w = true
  /\ content w' e = cursor_part (V2.cursorElement (this w))
  /\ content (at_time fuel z w') e
     = glyphs t' ++ cursor_part (V2.cursorElement (this w))
  /\ shown (content (at_time fuel z w') e) = t'
  /\ settled z (at_time fuel z w')
  /\ timers (host (at_time fuel (z + Options.ms (Options.speed c)) w')) = [].
Proof.
  intros Hini Hel Hcl Ht Hne Hch Hsp Hcur Hloop Hspeed Hdelay Hcls Hon Hoff
    Hfuel c z w'.
  assert (Options.cursor c = Options.cursor (V2.config (this w))) as Hcc
    by (unfold c, Options.spread; cbn; by rewrite Hcur).
  set (w0 := mkWorld (V2.set_config c (this w)) (host w)).
  destruct (update_text_arms nc w0 t' e Ht Hne)
    as (w1 & Hrun & Harm & Hini1);
    try (by destruct w as [[] []]).
  { destruct w as [[] []]. cbn [w0 this V2.config V2.set_config
      V2.cursorElement] in *. rewrite Hcc. exact Hon. }
  { destruct w as [[] []]. cbn [w0 this V2.config V2.set_config
      V2.cursorElement] in *. rewrite Hcc. exact Hoff. }
  assert (V2.updateConfig nc w
          = (Val tt, mkWorld (this w1) (tail_host nc (this w1) e (host w1))))
    as Hupd.
  { rewrite updateConfig_blocks by done. fold c. fold w0.
    erewrite bind_val by exact Hrun.
    erewrite bind_val by (by apply update_speed_skip).
    unfold update_rest.
    erewrite bind_val by (by apply update_cursor_none).
    destruct Harm as ((Hc1 & _ & _ & He1 & _) & _).
    apply (update_tail_effect nc w1 (V2.config (this w)) e); [|exact He1].
    rewrite Hc1. by destruct w as [[] []]. }
  assert (armed e (V2.cursorElement (this w)) c t'
            (now (host w) + Options.ms (Options.delay c)) w') as Harm'.
  { subst w'. unfold exec. rewrite Hupd. cbn [snd].
    destruct Harm as (Hty & (i & p & Htm) & Hnow).
    assert (V2.cursorElement (this w0) = V2.cursorElement (this w)) as Ecu
      by (by destruct w as [[] []]).
    assert (V2.config (this w0) = c) as Ecf by (by destruct w as [[] []]).
    assert (now (host w0) = now (host w)) as Enw by (by destruct w as [[] []]).
    rewrite Ecu, Ecf, Enw in *.
    split; [by apply typing_tail|].
    cbn [host]. destruct (tail_host_timers nc (this w1) e (host w1))
      as (-> & _ & -> & _).
    split; [by exists i, p|exact Hnow]. }
  destruct (armed_reveals _ _ _ _ _ _ fuel Hspeed Hloop Harm' Hfuel)
    as ((H1 & H2) & (_ & H3)).
  split; [unfold returns; by rewrite Hupd|].
  split.
  { destruct Harm' as ((_ & _ & _ & _ & _ & Hch0) & _). exact Hch0. }
  unfold at_time, content.
  replace (z + Options.ms (Options.speed c))
    with (now (host w) + Options.ms (Options.delay c)
          + (Z.of_nat (length t') + 1) * Options.ms (Options.speed c))
    by (unfold z; lia).
  repeat split; try done.
  etransitivity; [exact (f_equal shown H1)|apply shown_glyphs].
Qed.

Lemma new_text_is_revealed_witness :
  shown (content (at_time 4 1300
                    (exec (V2.updateConfig (opt_text (lit "X"))) mid_reveal)) 0)
  = lit "X"
  /\ timers (host (at_time 4 1400
                     (exec (V2.updateConfig (opt_text (lit "X"))) mid_reveal)))
     = [].
Proof.
  destruct (new_text_is_revealed mid_reveal (opt_text (lit "X")) (lit "X") 0 4)
    as (_ & _ & _ & H1 & _ & H2);
    [reflexivity|reflexivity|reflexivity|reflexivity|discriminate
    |vm_compute; discriminate|reflexivity|reflexivity|reflexivity
    |vm_compute; discriminate|vm_compute; discriminate|left; reflexivity
    |intros _; vm_compute; discriminate
    |intros H; vm_compute in H; discriminate|vm_compute; lia|].
  split; [exact H1|exact H2].
Defined.

Lemma clearInterval_cleared ti h :
  snd (Dom.clearInterval ti h) = set_timers (fun _ => cleared ti (timers h)) h.
Proof. destruct ti, h; reflexivity. Qed.

(** X17.  [updateConfig] with a positive speed [v], no cursor key, and no
    text that triggers a reset (no text key, the empty text, or the current
    text), on an initialized animator whose merged configuration has [loop]
    false, whose target holds one text node for each of the first
    [currentIndex] code units of the text ([currentIndex] at most its
    length) followed by the cursor span if a cursor handle is set, and
    whose only active timer, if any, is the one [typingInterval] names: it
    returns and leaves the target as it is; the rest of the text is
    revealed at the new pace, so that [(length - currentIndex) * v] after
    the call the whole text is on show before the cursor, and nothing else
    is due by then; one period later no timer is left.  [fuel], at least
    [length - currentIndex + 2], bounds the number of callbacks the clock
    may run. *)
Theorem new_speed_completes_reveal (w : World V2.Typify) (nc : Options.t)
    (v : Z) (e fuel : nat) :
  V2.isInitialized (this w) = true ->
  V2.element (this w) = Some e ->
  (V2.currentIndex (this w) <= length (V2.text (this w)))%nat ->
  content w e
  = glyphs (take (V2.currentIndex (this w)) (V2.text (this w)))
    ++ cursor_part (V2.cursorElement (this w)) ->
  cleared (V2.typingInterval (this w)) (timers (host w)) = [] ->
  Options.speed nc = Some v -> 0 < v ->
  Options.truthy_str (Options.text nc)
    && bool_decide (Options.text nc ≠ Some (V2.text (this w))) = false ->
  Options.cursor nc = None ->
  Options.truthy_bool (Options.loop (Options.spread (V2.config (this w)) nc))
  = false ->
  (length (V2.text (this w)) - V2.currentIndex (this w) + 2 <= fuel)%nat ->
  let z := now (host w)
           + (Z.of_nat (length (V2.text (this w)))
              - Z.of_nat (V2.currentIndex (this w))) * v in
  let w' := exec (V2.updateConfig nc) w in
  returns (V2.updateConfig nc) w = true
  /\ content w' e = content w e
  /\ content (at_time fuel z w') e
     = glyphs (V2.text (this w)) ++ cursor_part (V2.cursorElement (this w))
  /\ shown (content (at_time fuel z w') e) = V2.text (this w)
  /\ settled z (at_time fuel z w')
  /\ timers (host (at_time fuel (z + v) w')) = [].
Proof.
  intros Hini Hel Hk Hch Hcl Hsp Hv Htext Hcur Hloop Hfuel z w'.
  set (c := Options.spread (V2.config (this w)) nc).
  assert (Options.ms (Options.speed c) = v) as Hvc
    by (unfold c; by rewrite (speed_spread _ _ _ Hsp)).
  assert (Options.truthy_num (Options.speed nc) = true) as Htr.
  { unfold Options.truthy_num. rewrite Hsp. destruct (Z.eqb_spec v 0); [lia|done]. }
  set (w0 := mkWorld (V2.set_config c (this w)) (host w)).
  set (w2 := mkWorld (V2.set_typingInterval (Some (nextTimer (host w))) (this w0))
               (set_timers (fun l => l ++
                    [mkTimer (nextTimer (host w)) Interval v (now (host w) + v)])
                  (set_nextTimer (S (nextTimer (host w)))
                     (set_timers (fun _ => []) (host w))))).
  assert (V2.update_speed nc w0 = (Val tt, w2)) as Hspd.
  { rewrite (update_speed_restarts _ _ Htr), startTyping_arms.
    subst w2 w0. unfold on_host. cbn [this host V2.set_config V2.config
      V2.typingInterval]. fold c.
    rewrite clearInterval_cleared, Hcl, Hvc, Z.max_r by lia.
    by destruct w as [[] []]. }
  assert (V2.updateConfig nc w
          = (Val tt, mkWorld (this w2) (tail_host nc (this w2) e (host w2))))
    as Hupd.
  { rewrite updateConfig_blocks by done. fold c. fold w0.
    erewrite bind_val by (by apply update_text_skip).
    erewrite bind_val by exact Hspd.
    unfold update_rest.
    erewrite bind_val by (by apply update_cursor_none).
    apply (update_tail_effect nc w2 (V2.config (this w)) e);
      by destruct w as [[] []]. }
  assert (revealing e (V2.cursorElement (this w)) c (V2.text (this w))
            (nextTimer (host w))
            (now (host w) - Z.of_nat (V2.currentIndex (this w)) * v)
            (V2.currentIndex (this w)) w') as Hrev.
  { subst w'. unfold exec. rewrite Hupd. cbn [snd]. clearbody c.
    split; [|split; [|split]].
    - apply typing_tail. subst w2 w0.
      destruct w as [[cfg ini ti ci tx el cu cls] [sel dm sp nn tm nt nw co bad]].
      unfold typing, content in *. by fields.
    - by destruct w as [[] []].
    - cbn [host]. destruct (tail_host_timers nc (this w2) e (host w2))
        as (-> & _).
      subst w2. destruct w as [[] []]. cbn. unfold ticker. rewrite Hvc.
      do 2 f_equal. lia.
    - cbn [host]. destruct (tail_host_timers nc (this w2) e (host w2))
        as (_ & _ & -> & _).
      subst w2. destruct w as [[] []]. cbn. rewrite Hvc. lia. }
  assert (0 <= Options.ms (Options.speed c)) as Hsp0 by lia.
  destruct (elapse_reveals _ _ _ _ _ _ _ w' fuel Hsp0 Hloop Hrev Hk Hfuel)
    as (H1 & H2 & _).
  destruct (elapse_quiesces _ _ _ _ _ _ _ w' fuel Hsp0 Hloop Hrev Hk Hfuel)
    as ([_ H3] & _).
  rewrite Hvc in H1, H2, H3.
  replace (now (host w) - Z.of_nat (V2.currentIndex (this w)) * v
           + Z.of_nat (length (V2.text (this w))) * v) with z in H1, H2
    by (unfold z; lia).
  replace (now (host w) - Z.of_nat (V2.currentIndex (this w)) * v
           + (Z.of_nat (length (V2.text (this w))) + 1) * v) with (z + v) in H3
    by (unfold z; lia).
  destruct H1 as (_ & _ & _ & _ & _ & H1). rewrite firstn_all in H1.
  split; [unfold returns; by rewrite Hupd|].
  split.
  { destruct Hrev as ((_ & _ & _ & _ & _ & Hch') & _).
    unfold content in *. by rewrite Hch', Hch. }
  unfold at_time, content.
  repeat split; try done.
  rewrite H1. apply shown_glyphs.
Qed.

Lemma new_speed_completes_reveal_witness :
  shown (content (at_time 20 1450
                    (exec (V2.updateConfig (opt_speed 50)) mid_reveal)) 0)
  = lit "Hello, TurboChat!"
  /\ timers (host (at_time 20 1500
                     (exec (V2.updateConfig (opt_speed 50)) mid_reveal)))
     = [].
Proof.
  destruct (new_speed_completes_reveal mid_reveal (opt_speed 50) 50 0 20)
    as (_ & _ & _ & H1 & _ & H2);
    [reflexivity|reflexivity|vm_compute; lia|reflexivity|reflexivity
    |reflexivity|lia|reflexivity|reflexivity|reflexivity|vm_compute; lia|].
  split; [exact H1|exact H2].
Defined.

(** ** What [destroy] does *)

(** X18.  [destroy] on an initialized animator with a target and a valid
    class in [animationClass]: it returns, clears [isInitialized] and
    [animationClass], empties the target, takes the class off the class
    list, and cancels the timer [typingInterval] names and no other.  It
    leaves [typingInterval], [cursorElement], [currentIndex], the
    configuration, the colour and the animation duration as they were. *)
Theorem destroy_effect (w : World V2.Typify) (e : nat) :
  V2.isInitialized (this w) = true ->
  V2.element (this w) = Some e ->
  Dom.token_error (V2.animationClass (this w)) = None ->
  returns V2.destroy w = true
  /\ V2.isInitialized (this (exec V2.destroy w)) = false
  /\ V2.animationClass (this (exec V2.destroy w)) = []
  /\ content (exec V2.destroy w) e = []
  /\ classList (elem (host (exec V2.destroy w)) e)
     = Dom.remove_token (V2.animationClass (this w)) (classList (elem (host w) e))
  /\ timers (host (exec V2.destroy w))
     = cleared (V2.typingInterval (this w)) (timers (host w))
  /\ V2.typingInterval (this (exec V2.destroy w)) = V2.typingInterval (this w)
  /\ V2.cursorElement (this (exec V2.destroy w)) = V2.cursorElement (this w)
  /\ V2.currentIndex (this (exec V2.destroy w)) = V2.currentIndex (this w)
  /\ V2.config (this (exec V2.destroy w)) = V2.config (this w)
  /\ style_color (elem (host (exec V2.destroy w)) e) = style_color (elem (host w) e)
  /\ style_animationDuration (elem (host (exec V2.destroy w)) e)
     = style_animationDuration (elem (host w) e).
Proof.
  destruct w as [[cfg ini ti ci tx el cu cls] h].
  cbn [this host V2.isInitialized V2.element V2.animationClass].
  intros -> -> Htok.
  unfold content.
  destruct ti as [i|]; js; rewrite Htok; js; destruct h; fields;
    rewrite !lookup_total_insert_eq; cbn; repeat split.
Qed.

Lemma destroy_effect_witness :
  returns V2.destroy fade_session = true
  /\ V2.isInitialized (this (exec V2.destroy fade_session)) = false
  /\ classList (elem (host (exec V2.destroy fade_session)) 0) = [].
Proof.
  destruct (destroy_effect fade_session 0) as (H1 & H2 & _ & _ & H3 & _);
    [reflexivity|reflexivity|reflexivity|].
  split; [exact H1|]. split; [exact H2|exact H3].
Defined.

(** X19.  [destroy] on an initialized animator whose [animationClass] is
    empty (as it is with the default animation ['none']) raises
    [SyntaxError] at [classList.remove('')]: by then the ticker is
    cancelled and the target emptied, but [isInitialized] stays true. *)
Theorem destroy_without_class_raises (w : World V2.Typify) (e : nat) :
  V2.isInitialized (this w) = true ->
  V2.element (this w) = Some e ->
  V2.animationClass (this w) = [] ->
  fst (V2.destroy w) = Throw SyntaxError
  /\ V2.isInitialized (this (exec V2.destroy w)) = true
  /\ content (exec V2.destroy w) e = []
  /\ timers (host (exec V2.destroy w))
     = cleared (V2.typingInterval (this w)) (timers (host w))
  /\ classList (elem (host (exec V2.destroy w)) e) = classList (elem (host w) e).
Proof.
  destruct w as [[cfg ini ti ci tx el cu cls] h].
  cbn [this host V2.isInitialized V2.element V2.animationClass].
  intros -> -> Hcls.
  assert (Dom.token_error cls = Some SyntaxError) as Htok by (by subst cls).
  unfold content.
  destruct ti as [i|]; js; rewrite Htok; js; destruct h; fields;
    rewrite !lookup_total_insert_eq; cbn; repeat split.
Qed.

Lemma destroy_without_class_raises_witness :
  fst (V2.destroy default_session2) = Throw SyntaxError
  /\ V2.isInitialized (this (exec V2.destroy default_session2)) = true.
Proof.
  destruct (destroy_without_class_raises default_session2 0) as (H1 & H2 & _);
    [reflexivity|reflexivity|reflexivity|].
  split; [exact H1|exact H2].
Defined.

(** ** [destroy] during the start delay *)

(** X25.  Let [destroy] be called, and return, in an initialized state in
    which a timeout [tm] is pending (a start delay or a loop restart),
    timer handles being in order: every timer identifier is below the
    counter of the host, and so is the handle in [typingInterval], which
    names no timeout (as in every state reached from the animator as the
    page loads it, on a page without timers).  The timeout is
    still pending after [destroy], which has cleared [isInitialized]; when
    it fires, [startTyping] arms a new ticker, named by [typingInterval],
    while [isInitialized] is still false. *)
Theorem pending_start_survives_destroy (w : World V2.Typify) (tm : Timer) :
  handles_ok w ->
  V2.isInitialized (this w) = true ->
  tm ∈ timers (host w) -> kind tm = Timeout ->
  returns V2.destroy w = true ->
  let w' := exec V2.destroy w in
  let w'' := fire V2.startTyping V2.tick tm w' in
  tm ∈ timers (host w')
  /\ V2.isInitialized (this w') = false
  /\ V2.isInitialized (this w'') = false
  /\ V2.typingInterval (this w'') = Some (nextTimer (host w'))
  /\ exists tk, tk ∈ tickers (host w'') /\ tid tk = nextTimer (host w').
Proof.
  intros Hok Hini Hin Hk Hret.
  assert (V2.typingInterval (this w) <> Some (tid tm)) as Hti.
  { intros Hti. destruct Hok as [_ Hh]. destruct (Hh _ Hti) as [_ Hi].
    specialize (Hi tm Hin eq_refl). congruence. }
  exact (pending_start_effect w tm Hini Hin Hk Hti Hret).
Qed.

Lemma pending_start_survives_destroy_witness :
  V2.isInitialized
    (this (fire V2.startTyping V2.tick start_timeout
             (exec V2.destroy fade_session))) = false
  /\ exists tk, tk ∈ tickers (host (fire V2.startTyping V2.tick start_timeout
                                      (exec V2.destroy fade_session)))
                /\ tid tk = nextTimer (host (exec V2.destroy fade_session)).
Proof.
  destruct (pending_start_survives_destroy fade_session start_timeout)
    as (_ & _ & H1 & _ & H2);
    [apply (run_keeps_handles [Init (opt_animation anim_fade)]),
       fresh_handles_ok; reflexivity
    |reflexivity|vm_compute; apply list_elem_of_singleton; reflexivity
    |reflexivity|reflexivity|].
  split; [exact H1|exact H2].
Defined.

(** ** The handle in [typingInterval] *)

(** X20.  In every state reached from a freshly loaded animator on a
    page without timers, any operations and callbacks in any order: every
    active timer and the handle in [typingInterval] were issued already,
    and a timer with the identifier in [typingInterval] is an interval, so
    [clearInterval(this.typingInterval)] never cancels a start timeout. *)
Theorem handle_names_a_ticker (h : Host) (l : list action) (i : nat) (tm : Timer) :
  timers h = [] ->
  V2.typingInterval (this (V2.run l (mkWorld V2.initial h))) = Some i ->
  tm ∈ timers (host (V2.run l (mkWorld V2.initial h))) ->
  (tid tm < nextTimer (host (V2.run l (mkWorld V2.initial h))))%nat
  /\ (i < nextTimer (host (V2.run l (mkWorld V2.initial h))))%nat
  /\ (tid tm = i -> kind tm = Interval)
  /\ (kind tm = Timeout -> tid tm <> i).
Proof.
  intros Htm Hi Hin.
  destruct (run_keeps_handles l _ (fresh_handles_ok h Htm)) as [H1 H2].
  destruct (H2 i Hi) as [Hlt Hk].
  split; [by apply H1|]. split; [done|]. split; [by apply Hk|].
  intros Hto Heq. specialize (Hk tm Hin Heq). congruence.
Qed.

Lemma handle_names_a_ticker_witness :
  (1 < nextTimer (host (V2.run [Init Options.empty; Fire] fresh2)))%nat
  /\ (kind (mkTimer 1 Interval 100 600) = Timeout -> 1%nat <> 1%nat).
Proof.
  destruct (handle_names_a_ticker page [Init Options.empty; Fire] 1
              (mkTimer 1 Interval 100 600)) as (_ & H1 & _ & H2);
    [reflexivity|reflexivity
    |vm_compute; apply list_elem_of_singleton; reflexivity|].
  split; [exact H1|exact H2].
Defined.

(** ** The two versions, without [destroy] *)






























(** ** [destroy] in version 1.0.0 *)

(** X22.  [destroy] of version 1.0.0 on an initialized animator with a
    target returns, clears [isInitialized], empties the target, and
    cancels the timer [typingInterval] names and no other; the handles and
    [currentIndex] stay; a second [destroy] changes nothing. *)
Theorem v1_destroy_effect (w : World V1.Typify) (e : nat) :
  V1.isInitialized (this w) = true ->
  V1.element (this w) = Some e ->
  returns V1.destroy w = true
  /\ V1.isInitialized (this (exec V1.destroy w)) = false
  /\ children (elem (host (exec V1.destroy w)) e) = []
  /\ timers (host (exec V1.destroy w))
     = cleared (V1.typingInterval (this w)) (timers (host w))
  /\ V1.typingInterval (this (exec V1.destroy w)) = V1.typingInterval (this w)
  /\ V1.cursorElement (this (exec V1.destroy w)) = V1.cursorElement (this w)
  /\ V1.currentIndex (this (exec V1.destroy w)) = V1.currentIndex (this w)
  /\ exec V1.destroy (exec V1.destroy w) = exec V1.destroy w.
Proof.
  destruct w as [[cfg ini ti ci tx el cu] [sel dm sp nn tm nt nw co bad]].
  cbn [this host V1.isInitialized V1.element]. intros -> ->.
  destruct ti as [i|]; cbn; repeat split.
  all: unfold elem, update_elem, set_dom; cbn [dom];
    by rewrite lookup_total_insert_eq.
Qed.

Lemma v1_destroy_effect_witness :
  returns V1.destroy default_session1 = true
  /\ V1.isInitialized (this (exec V1.destroy default_session1)) = false.
Proof.
  destruct (v1_destroy_effect default_session1 0) as (H1 & H2 & _);
    [reflexivity|reflexivity|].
  split; [exact H1|exact H2].
Defined.

